(** * FlumpMovieLayer: per-frame resolution of a Flump layer

  Shallow embedding of [FlumpMovieLayer] (constructor, [setFrame], [draw],
  [reset]) together with the collaborators it calls, of [AbstractBehavior],
  of the constructor of [FlumpTextureGroupAtlas] and of [SpriteSheet].  JavaScript numbers are IEEE
  binary64 values and are modelled by the primitive floats of the kernel, so
  every arithmetic expression below rounds exactly as the source does. *)

From Stdlib Require Import ZArith Floats Uint63 Bool.
From stdpp Require Import base option list strings gmap.

Open Scope float_scope.

(** ** JavaScript numbers *)

Module Js.

(** Integer part of a number, truncated toward zero; [NaN] and the two
    infinities go to [0] (the first step of ECMAScript's ToInt32). *)
Definition truncate (f : float) : Z :=
  match Prim2SF f with
  | S754_finite s m e =>
      let mag := if (0 <=? e)%Z then (Zpos m * 2 ^ e)%Z
                 else (Zpos m / 2 ^ (- e))%Z in
      if s then (- mag)%Z else mag
  | _ => 0%Z
  end.

(** Wrap-around of an integer into the signed 32-bit range. *)
Definition int32_wrap (n : Z) : Z := ((n + 2 ^ 31) mod 2 ^ 32 - 2 ^ 31)%Z.

Definition of_int32 (n : Z) : float :=
  if (n <? 0)%Z then - of_uint63 (Uint63.of_Z (- n))
  else of_uint63 (Uint63.of_Z n).

(** [frame | 0] *)
Definition bitor0 (f : float) : float := of_int32 (int32_wrap (truncate f)).

(** [a != b] on numbers: IEEE comparison, so [NaN != NaN] and [-0 == 0]. *)
Definition neq (a b : float) : bool := negb (a =? b).

(** [Math.sin] and [Math.cos] are host built-ins whose results ECMAScript
    leaves implementation-approximated; they stay parameters. *)
Class Math := { sin : float -> float; cos : float -> float }.

Inductive Error := TypeError | UnknownSymbolReference.

(** Completion of a call: a normal return or a thrown exception. *)
Inductive outcome (A : Type) : Type :=
| Returns (a : A)
| Throws (e : Error).
Arguments Returns {A} a.
Arguments Throws {A} e.

Definition bind {A B} (m : outcome A) (k : A -> outcome B) : outcome B :=
  match m with
  | Returns a => k a
  | Throws e => Throws e
  end.

(** A method call given as the object it leaves and the exception, if any,
    that ended it (what the call assigned before it threw stays assigned),
    seen as its caller sees it: the object, or the exception. *)
Definition completion {S : Type} (r : S * option Error) : outcome S :=
  match r with
  | (s, None) => Returns s
  | (_, Some e) => Throws e
  end.

(** *** Plain objects used as tables *)

(** The names of the members that an object created by [{}] inherits from
    [Object.prototype], on a host that has not altered it (ECMAScript 2015
    with its Annex B). *)
Definition prototypeNames : list string :=
  ["constructor"; "hasOwnProperty"; "isPrototypeOf"; "propertyIsEnumerable";
   "toLocaleString"; "toString"; "valueOf"; "__defineGetter__";
   "__defineSetter__"; "__lookupGetter__"; "__lookupSetter__"; "__proto__"].

Definition inherited (name : string) : bool :=
  existsb (String.eqb name) prototypeNames.

(** [name in obj] for a plain object with the own properties [own] and the
    prototype [Object.prototype]. *)
Definition has {V : Type} (name : string) (own : gmap string V) : bool :=
  bool_decide (is_Some (own !! name)) || inherited name.

(** A plain object that is filled by [obj[name] = v] with objects [v] of one
    kind: its own properties and, once [obj["__proto__"] = v] has run, the
    object [v] that has taken the place of [Object.prototype] as its
    prototype. *)
Record table (V : Type) := Table { own : gmap string V; proto : option V }.
Arguments Table {V} own proto.
Arguments own {V} t.
Arguments proto {V} t.

(** [{}] *)
Definition blank {V : Type} : table V := Table ∅ None.

(** [obj[name] = v] for an object [v].  Unless the table has an own property
    of that name, the name [__proto__] reaches the setter inherited from
    [Object.prototype], which replaces the prototype and adds no property. *)
Definition set {V : Type} (name : string) (v : V) (obj : table V) : table V :=
  if String.eqb name "__proto__"
     && negb (bool_decide (is_Some (own obj !! name)))
  then Table (own obj) (Some v)
  else Table (<[name := v]> (own obj)) (proto obj).

(** What the objects of a kind show of themselves when one of them is the
    prototype: [field v name] is [None] when [v] has no own property [name],
    and otherwise tells whether the value of the property is [null] or
    [undefined]. *)
Class Shape (V : Type) := field : V -> string -> option bool.

(** The value of [obj[name]]: an object of the kind the table is filled with,
    a value of another kind ([nullish] when it is [null] or [undefined]), or
    [undefined] for a name that is not found. *)
Inductive member (V : Type) : Type :=
| Holds (v : V)
| Foreign (nullish : bool)
| Missing.
Arguments Holds {V} v.
Arguments Foreign {V} nullish.
Arguments Missing {V}.

(** [obj[name]]: an own property; or the prototype itself under the name
    [__proto__]; or a property of the object that has become the prototype;
    or a member of [Object.prototype], at which every chain ends. *)
Definition get {V : Type} `{Shape V} (name : string) (obj : table V)
  : member V :=
  match own obj !! name with
  | Some v => Holds v
  | None =>
      match proto obj with
      | Some p =>
          if String.eqb name "__proto__" then Holds p
          else
            match field p name with
            | Some nullish => Foreign nullish
            | None => if inherited name then Foreign false else Missing
            end
      | None => if inherited name then Foreign false else Missing
      end
  end.

(** The object of the table's kind that [obj[name]] finds, if it finds
    one. *)
Definition holds {V : Type} `{Shape V} (name : string) (obj : table V)
  : option V :=
  match get name obj with
  | Holds v => Some v
  | _ => None
  end.

End Js.

Notation "m >>= k" := (Js.bind m k) (at level 58, left associativity).
Abbreviation Returns := Js.Returns.
Abbreviation Throws := Js.Throws.

(** ** Static data *)

(** [DisplayType]: the members of the enum that the sources mention, and
    [UNDEFINED], which is no member of the enum: it is the value [undefined]
    that [_symbolType] holds once it has been assigned the [type] of an
    object that has none. *)
Inductive DisplayType := UNKNOWN | STAGE | DISPLAYOBJECT | TEXTURE | UNDEFINED.

Module FlumpKeyframeData.
(** [ref] is [None] for the values that fail the guard
    [ref != -1 && ref != null] (null, undefined and the [-1] sentinel) and
    [Some name] for a symbol name. *)
Record t := mk {
  index : float;
  duration : float;
  ref : option string;
  label : option string;
  x : float;
  y : float;
  scaleX : float;
  scaleY : float;
  skewX : float;
  skewY : float;
  pivotX : float;
  pivotY : float;
  visible : bool;
  alpha : float;
  tweened : bool;
  ease : float
}.
End FlumpKeyframeData.

Module FlumpLabelData.
Record t := mk { label : string; index : float; duration : float }.
End FlumpLabelData.

Module FlumpLayerData.
Record t := mk {
  name : string;
  flumpKeyframeDatas : list FlumpKeyframeData.t
}.

(** The two keyframe queries of [FlumpLayerData]; their bodies are not part
    of the sources at hand, so the layer is written against this interface. *)
Class Lookup := {
  getKeyframeForFrame : t -> float -> option FlumpKeyframeData.t;
  getKeyframeAfter : t -> FlumpKeyframeData.t -> option FlumpKeyframeData.t
}.

(** The query only ever hands out keyframes of the layer itself. *)
Definition lookup_in_layer `{Lookup} : Prop :=
  forall ld frame kf,
    getKeyframeForFrame ld frame = Some kf -> kf ∈ flumpKeyframeDatas ld.

(** Modelled from the spec: [getKeyframeForFrame] returns the keyframe whose
    span [index, index+duration) contains the frame, the last keyframe
    covering every frame not claimed before it, and nothing only for a layer
    without keyframes. *)
Fixpoint keyframeForFrame (kfs : list FlumpKeyframeData.t) (frame : float)
  : option FlumpKeyframeData.t :=
  match kfs with
  | [] => None
  | kf :: rest =>
      match rest with
      | [] => Some kf
      | _ :: _ =>
          if (FlumpKeyframeData.index kf <=? frame)
             && (frame <? FlumpKeyframeData.index kf
                          + FlumpKeyframeData.duration kf)
          then Some kf
          else keyframeForFrame rest frame
      end
  end.

(** Modelled from the spec: [getKeyframeAfter] returns the next keyframe in
    sequence order, or nothing for the last one.  The keyframe is located by
    its [index], which the data invariant (strictly increasing indices) makes
    a key of the layer. *)
Fixpoint keyframeAfter (kfs : list FlumpKeyframeData.t)
  (kf : FlumpKeyframeData.t) : option FlumpKeyframeData.t :=
  match kfs with
  | [] => None
  | k :: rest =>
      match rest with
      | [] => None
      | n :: _ =>
          if FlumpKeyframeData.index k =? FlumpKeyframeData.index kf
          then Some n
          else keyframeAfter rest kf
      end
  end.

Definition specLookup : Lookup := {|
  getKeyframeForFrame ld frame := keyframeForFrame (flumpKeyframeDatas ld) frame;
  getKeyframeAfter ld kf := keyframeAfter (flumpKeyframeDatas ld) kf
|}.
End FlumpLayerData.

(** ** Child symbols *)

Module FlumpMovie.
(** Modelled from the spec: the runtime [FlumpMovie] is not among the
    sources.  Of a nested movie the layer uses [reset] and [draw]; the spec
    gives a movie "a current frame position" that [reset] puts back to 0. *)
Record t := mk { name : string; frame : float }.
Definition reset (m : t) : t := {| name := name m; frame := 0 |}.
End FlumpMovie.

Module FlumpTexture.
(** Modelled from the spec: a texture is a static image without playback
    state, so its [reset] leaves it as it is. *)
Record t := mk { name : string }.
Definition reset (m : t) : t := m.
End FlumpTexture.

(** [FlumpMovie | FlumpTexture], told apart by the [type] tag. *)
Inductive Symbol :=
| SymMovie (m : FlumpMovie.t)
| SymTexture (t : FlumpTexture.t).

Definition Symbol_type (s : Symbol) : DisplayType :=
  match s with
  | SymMovie _ => DISPLAYOBJECT
  | SymTexture _ => TEXTURE
  end.

Module FlumpLibrary.
Inductive definition := MovieDef | TextureDef.

(** Modelled from the spec: the library maps symbol names to movie or
    texture definitions and [createSymbol] instantiates a fresh symbol by
    name, failing for a name it does not hold. *)
Definition t := gmap string definition.

Definition createSymbol (lib : t) (name : string) : Js.outcome Symbol :=
  match lib !! name with
  | Some MovieDef => Returns (SymMovie (FlumpMovie.mk name 0))
  | Some TextureDef => Returns (SymTexture (FlumpTexture.mk name))
  | None => Throws Js.UnknownSymbolReference
  end.
End FlumpLibrary.

Module FlumpMtx.
Record t := mk { a : float; b : float; c : float; d : float;
                 tx : float; ty : float }.
End FlumpMtx.

(** ** The runtime layer *)

Module FlumpMovieLayer.

(** The locals of [setFrame] once tweening is done. *)
Record locals := mkLocals {
  x : float;
  y : float;
  scaleX : float;
  scaleY : float;
  skewX : float;
  skewY : float;
  pivotX : float;
  pivotY : float;
  alpha_ : float
}.

(** [_symbolMovie] and [_symbolTexture] alias objects held in [_symbols]:
    they are kept as the key of the aliased entry, so that a [reset] through
    either is seen through the map as well.  [None] is [undefined].
    [_keyframeRef] is [None] for [undefined] and [null], which [!=] does not
    tell apart.  [_symbols] holds the own properties of the plain object; its
    prototype stays [Object.prototype], whose members [in] and [[]] find as
    well: the constructor assigns to a name only when [in] does not find
    it. *)
Record t := mk {
  name : string;
  flumpLayerData : FlumpLayerData.t;
  _symbolType : DisplayType;
  _symbolMovie : option string;
  _symbolTexture : option string;
  _keyframeRef : option string;
  _symbols : gmap string Symbol;
  _storedMtx : FlumpMtx.t;
  alpha : float;
  visible : bool
}.

Definition set_symbolType (v : DisplayType) (l : t) : t :=
  mk (name l) (flumpLayerData l) v (_symbolMovie l) (_symbolTexture l)
     (_keyframeRef l) (_symbols l) (_storedMtx l) (alpha l) (visible l).

Definition set_symbolMovie (v : option string) (l : t) : t :=
  mk (name l) (flumpLayerData l) (_symbolType l) v (_symbolTexture l)
     (_keyframeRef l) (_symbols l) (_storedMtx l) (alpha l) (visible l).

Definition set_symbolTexture (v : option string) (l : t) : t :=
  mk (name l) (flumpLayerData l) (_symbolType l) (_symbolMovie l) v
     (_keyframeRef l) (_symbols l) (_storedMtx l) (alpha l) (visible l).

Definition set_keyframeRef (v : option string) (l : t) : t :=
  mk (name l) (flumpLayerData l) (_symbolType l) (_symbolMovie l)
     (_symbolTexture l) v (_symbols l) (_storedMtx l) (alpha l) (visible l).

Definition set_symbols (v : gmap string Symbol) (l : t) : t :=
  mk (name l) (flumpLayerData l) (_symbolType l) (_symbolMovie l)
     (_symbolTexture l) (_keyframeRef l) v (_storedMtx l) (alpha l) (visible l).

Definition set_storedMtx (v : FlumpMtx.t) (l : t) : t :=
  mk (name l) (flumpLayerData l) (_symbolType l) (_symbolMovie l)
     (_symbolTexture l) (_keyframeRef l) (_symbols l) v (alpha l) (visible l).

Definition set_alpha (v : float) (l : t) : t :=
  mk (name l) (flumpLayerData l) (_symbolType l) (_symbolMovie l)
     (_symbolTexture l) (_keyframeRef l) (_symbols l) (_storedMtx l) v (visible l).

Definition set_visible (v : bool) (l : t) : t :=
  mk (name l) (flumpLayerData l) (_symbolType l) (_symbolMovie l)
     (_symbolTexture l) (_keyframeRef l) (_symbols l) (_storedMtx l) (alpha l) v.

(** [this._keyframeRef != keyframe.ref] for a [keyframe.ref] that is set. *)
Definition ref_differs (current : option string) (ref : string) : bool :=
  match current with
  | Some r => negb (String.eqb r ref)
  | None => true
  end.

(** Lines 99-116: the eased progress of a tweened frame. *)
Definition eased (ease interped : float) : float :=
  if Js.neq ease 0 then
    if ease <? 0 then
      let inv := 1 - interped in
      let t := 1 - inv * inv in
      let ease := 0 - ease in
      ease * t + (1 - ease) * interped
    else
      let t := interped * interped in
      ease * t + (1 - ease) * interped
  else interped.

(** The guard of line 93 together with the test of line 97. *)
Definition tweens (keyframe : FlumpKeyframeData.t)
  (nextKeyframe : option FlumpKeyframeData.t) (frame : float) : bool :=
  Js.neq (FlumpKeyframeData.index keyframe) (Js.bitor0 frame)
  && FlumpKeyframeData.tweened keyframe
  && bool_decide (is_Some nextKeyframe).

(** Lines 77-126: the keyframe's values, tweened toward the next keyframe. *)
Definition tween (keyframe : FlumpKeyframeData.t)
  (nextKeyframe : option FlumpKeyframeData.t) (frame : float) : locals :=
  let x := FlumpKeyframeData.x keyframe in
  let y := FlumpKeyframeData.y keyframe in
  let scaleX := FlumpKeyframeData.scaleX keyframe in
  let scaleY := FlumpKeyframeData.scaleY keyframe in
  let skewX := FlumpKeyframeData.skewX keyframe in
  let skewY := FlumpKeyframeData.skewY keyframe in
  let pivotX := FlumpKeyframeData.pivotX keyframe in
  let pivotY := FlumpKeyframeData.pivotY keyframe in
  let alpha := FlumpKeyframeData.alpha keyframe in
  if Js.neq (FlumpKeyframeData.index keyframe) (Js.bitor0 frame)
     && FlumpKeyframeData.tweened keyframe
  then
    match nextKeyframe with
    | Some nextKeyframe =>
        let interped :=
          (frame - FlumpKeyframeData.index keyframe)
          / FlumpKeyframeData.duration keyframe in
        let interped := eased (FlumpKeyframeData.ease keyframe) interped in
        mkLocals
          (x + (FlumpKeyframeData.x nextKeyframe - x) * interped)
          (y + (FlumpKeyframeData.y nextKeyframe - y) * interped)
          (scaleX + (FlumpKeyframeData.scaleX nextKeyframe - scaleX) * interped)
          (scaleY + (FlumpKeyframeData.scaleY nextKeyframe - scaleY) * interped)
          (skewX + (FlumpKeyframeData.skewX nextKeyframe - skewX) * interped)
          (skewY + (FlumpKeyframeData.skewY nextKeyframe - skewY) * interped)
          pivotX pivotY
          (alpha + (FlumpKeyframeData.alpha nextKeyframe - alpha) * interped)
    | None => mkLocals x y scaleX scaleY skewX skewY pivotX pivotY alpha
    end
  else mkLocals x y scaleX scaleY skewX skewY pivotX pivotY alpha.

Section WithMath.
Context `{Js.Math}.

(** Lines 88-91 and 128-138: sine and cosine of a skew, with the shortcut
    for a skew that compares equal to zero. *)
Definition sinOf (skew : float) : float :=
  if Js.neq skew 0 then Js.sin skew else 0.
Definition cosOf (skew : float) : float :=
  if Js.neq skew 0 then Js.cos skew else 1.

(** Lines 140-146. *)
Definition compose (v : locals) : FlumpMtx.t :=
  let sinX := sinOf (skewX v) in
  let cosX := cosOf (skewX v) in
  let sinY := sinOf (skewY v) in
  let cosY := cosOf (skewY v) in
  let a := scaleX v * cosY in
  let b := scaleX v * sinY in
  let c := (- scaleY v) * sinX in
  let d := scaleY v * cosX in
  FlumpMtx.mk a b c d
    (x v - (pivotX v * a + pivotY v * c))
    (y v - (pivotX v * b + pivotY v * d)).

(** Lines 152-178, given as the layer that they leave and the exception, if
    any, that ends them.  [this._symbols[keyframe.ref]] is the own entry of
    that name or else a member inherited from [Object.prototype], whose
    [type] is [undefined] and equals no display type; when the name is not
    found at all, reading [symbol.type] throws, after [_keyframeRef] has been
    assigned. *)
Definition resolveSymbol_state (keyframe : FlumpKeyframeData.t) (this : t)
  : t * option Js.Error :=
  match FlumpKeyframeData.ref keyframe with
  | Some ref =>
      if ref_differs (_keyframeRef this) ref then
        match _symbols this !! ref with
        | None =>
            let this := set_keyframeRef (Some ref) this in
            if Js.inherited ref
            then (set_symbolType UNDEFINED this, None)
            else (this, Some Js.TypeError)
        | Some symbol =>
            let this := set_keyframeRef (Some ref) this in
            let this := set_symbolType (Symbol_type symbol) this in
            match symbol with
            | SymMovie m =>
                let this := set_symbolMovie (Some ref) this in
                (set_symbols
                   (<[ref := SymMovie (FlumpMovie.reset m)]> (_symbols this))
                   this, None)
            | SymTexture tex =>
                let this := set_symbolTexture (Some ref) this in
                (set_symbols
                   (<[ref := SymTexture (FlumpTexture.reset tex)]> (_symbols this))
                   this, None)
            end
        end
      else (this, None)
  | None =>
      (set_symbolType UNKNOWN (set_keyframeRef None this), None)
  end.

(** Lines 152-178 as their caller sees them. *)
Definition resolveSymbol (keyframe : FlumpKeyframeData.t) (this : t)
  : Js.outcome t :=
  Js.completion (resolveSymbol_state keyframe this).

Context `{FlumpLayerData.Lookup}.

(** [setFrame], given as the layer that the call leaves and the exception,
    if any, that ends it: the transform, alpha and visibility assigned
    before line 158 throws stay assigned. *)
Definition setFrame_state (frame : float) (this : t) : t * option Js.Error :=
  match FlumpLayerData.getKeyframeForFrame (flumpLayerData this)
          (Js.bitor0 frame) with
  | None => (set_symbolType UNKNOWN this, None)
  | Some keyframe =>
      let nextKeyframe :=
        FlumpLayerData.getKeyframeAfter (flumpLayerData this) keyframe in
      let v := tween keyframe nextKeyframe frame in
      let this := set_storedMtx (compose v) this in
      let this := set_alpha (alpha_ v) this in
      let this := set_visible (FlumpKeyframeData.visible keyframe) this in
      resolveSymbol_state keyframe this
  end.

(** [setFrame] as its caller sees it: the layer when the call returns, the
    exception when it throws. *)
Definition setFrame (frame : float) (this : t) : Js.outcome t :=
  Js.completion (setFrame_state frame this).

(** Lines 39-53: one pass over the keyframes, filling the movie's label map
    and instantiating each referenced symbol that [in] does not find in
    [_symbols], be it as an own entry or as a member inherited from
    [Object.prototype].  The third component logs the calls made to
    [createSymbol]. *)
Definition registerKeyframe (lib : FlumpLibrary.t)
  (acc : gmap string FlumpLabelData.t * gmap string Symbol * list string)
  (keyframe : FlumpKeyframeData.t)
  : Js.outcome (gmap string FlumpLabelData.t * gmap string Symbol * list string) :=
  let '(labels, symbols, created) := acc in
  let labels :=
    match FlumpKeyframeData.label keyframe with
    | Some l =>
        if String.eqb l "" then labels
        else <[l := FlumpLabelData.mk l (FlumpKeyframeData.index keyframe)
                      (FlumpKeyframeData.duration keyframe)]> labels
    | None => labels
    end in
  match FlumpKeyframeData.ref keyframe with
  | Some ref =>
      if Js.has ref symbols then Returns (labels, symbols, created)
      else
        FlumpLibrary.createSymbol lib ref >>= fun symbol =>
        Returns (labels, <[ref := symbol]> symbols, created ++ [ref])
  | None => Returns (labels, symbols, created)
  end.

Fixpoint registerKeyframes (lib : FlumpLibrary.t)
  (keyframes : list FlumpKeyframeData.t)
  (acc : gmap string FlumpLabelData.t * gmap string Symbol * list string)
  : Js.outcome (gmap string FlumpLabelData.t * gmap string Symbol * list string) :=
  match keyframes with
  | [] => Returns acc
  | keyframe :: rest =>
      registerKeyframe lib acc keyframe >>= registerKeyframes lib rest
  end.

(** The fields as the initialisers leave them; [alpha0] and [visible0] are
    the values inherited from [DisplayObject], whose source is not at hand. *)
Definition fresh (alpha0 : float) (visible0 : bool)
  (flumpLayerData : FlumpLayerData.t) (symbols : gmap string Symbol) : t :=
  mk (FlumpLayerData.name flumpLayerData) flumpLayerData UNKNOWN None None None
     symbols (FlumpMtx.mk 1 0 0 1 0 0) alpha0 visible0.

(** The constructor; [labels] is [flumpMove.labels] and [lib] is
    [flumpMove.flumpLibrary].  It returns the updated label map, the log of
    [createSymbol] calls and the layer. *)
Definition constructor (alpha0 : float) (visible0 : bool)
  (lib : FlumpLibrary.t) (labels : gmap string FlumpLabelData.t)
  (flumpLayerData : FlumpLayerData.t)
  : Js.outcome (gmap string FlumpLabelData.t * list string * t) :=
  registerKeyframes lib (FlumpLayerData.flumpKeyframeDatas flumpLayerData)
    (labels, ∅, [])
  >>= fun '(labels, symbols, created) =>
  setFrame 0 (fresh alpha0 visible0 flumpLayerData symbols)
  >>= fun this => Returns (labels, created, this).

End WithMath.

(** The child the layer draws: the object behind [_symbolMovie] or
    [_symbolTexture], as [_symbolType] selects. *)
Definition activeChild (this : t) : option Symbol :=
  match _symbolType this with
  | DISPLAYOBJECT => _symbolMovie this ≫= fun r => _symbols this !! r
  | TEXTURE => _symbolTexture this ≫= fun r => _symbols this !! r
  | _ => None
  end.

(** [draw] (lines 188-200).  The children's own [draw] is not among the
    sources: the drawing context is rendered as the log of the symbols drawn
    onto it, a child's [draw] appending the child.  Calling [draw] on
    [undefined] throws. *)
Definition draw (this : t) (ctx : list Symbol) : Js.outcome (list Symbol * bool) :=
  match _symbolType this with
  | DISPLAYOBJECT =>
      match _symbolMovie this ≫= fun r => _symbols this !! r with
      | Some child => Returns (ctx ++ [child], true)
      | None => Throws Js.TypeError
      end
  | TEXTURE =>
      match _symbolTexture this ≫= fun r => _symbols this !! r with
      | Some child => Returns (ctx ++ [child], true)
      | None => Throws Js.TypeError
      end
  | _ => Returns (ctx, true)
  end.

(** [reset] of a child symbol, whichever class it has. *)
Definition resetSymbol (symbol : Symbol) : Symbol :=
  match symbol with
  | SymMovie m => SymMovie (FlumpMovie.reset m)
  | SymTexture tex => SymTexture (FlumpTexture.reset tex)
  end.

(** [reset] (lines 183-186): the nested movie is reset in place, so the
    cache sees it; calling [reset] on [undefined] throws. *)
Definition reset (this : t) : Js.outcome t :=
  match _symbolType this with
  | DISPLAYOBJECT =>
      match _symbolMovie this with
      | Some r =>
          match _symbols this !! r with
          | Some child =>
              Returns (set_symbols (<[r := resetSymbol child]> (_symbols this))
                         this)
          | None => Throws Js.TypeError
          end
      | None => Throws Js.TypeError
      end
  | _ => Returns this
  end.

(** The state that the spec's idempotence property observes. *)
Definition observed (this : t)
  : FlumpMtx.t * float * bool * option Symbol * DisplayType :=
  (_storedMtx this, alpha this, visible this, activeChild this, _symbolType this).

End FlumpMovieLayer.

(** ** Scenario data *)

Module Scenario.

(** A keyframe at [index] lasting [duration] that shows nothing and leaves
    every transform parameter at its neutral value. *)
Definition plain (index duration : float) : FlumpKeyframeData.t :=
  FlumpKeyframeData.mk index duration None None 0 0 1 1 0 0 0 0 true 1 false 0.

(** [{index:0, x:0, tweened:true, duration:10, ease:0}] *)
Definition slideFrom : FlumpKeyframeData.t :=
  FlumpKeyframeData.mk 0 10 None None 0 0 1 1 0 0 0 0 true 1 true 0.

(** [{index:10, x:100}] *)
Definition slideTo : FlumpKeyframeData.t :=
  FlumpKeyframeData.mk 10 0 None None 100 0 1 1 0 0 0 0 true 1 false 0.

(** The same start keyframe with [ease:-0.5] (ease-out). *)
Definition easeOutFrom : FlumpKeyframeData.t :=
  FlumpKeyframeData.mk 0 10 None None 0 0 1 1 0 0 0 0 true 1 true (-0.5).

(** A keyframe with a quarter-unit skew, scaled and anchored off-centre. *)
Definition skewed : FlumpKeyframeData.t :=
  FlumpKeyframeData.mk 0 4 None None 8 16 2 4 0.25 0.5 1 2 true 0.5 false 0.

Definition tilt : FlumpLayerData.t := FlumpLayerData.mk "tilt" [skewed].

(** The slide with an eased start keyframe. *)
Definition easeOut : FlumpLayerData.t :=
  FlumpLayerData.mk "easeOut" [easeOutFrom; slideTo].

Definition slide : FlumpLayerData.t :=
  FlumpLayerData.mk "slide" [slideFrom; slideTo].

(** [ref="ball"] at index 0, [ref=null] at index 5. *)
Definition ballOn : FlumpKeyframeData.t :=
  FlumpKeyframeData.mk 0 5 (Some "ball") None 0 0 1 1 0 0 0 0 true 1 false 0.

Definition ballOff : FlumpKeyframeData.t := plain 5 0.

Definition bounce : FlumpLayerData.t :=
  FlumpLayerData.mk "bounce" [ballOn; ballOff].

Definition library : FlumpLibrary.t := {[ "ball" := FlumpLibrary.MovieDef ]}.

(** [ref="constructor"]: a symbol named as a member of [Object.prototype]. *)
Definition shadowOn : FlumpKeyframeData.t :=
  FlumpKeyframeData.mk 0 5 (Some "constructor") None 0 0 1 1 0 0 0 0 true 1
    false 0.

Definition shadow : FlumpLayerData.t := FlumpLayerData.mk "shadow" [shadowOn].


Definition empty : FlumpLayerData.t := FlumpLayerData.mk "empty" [].

(** A layer without keyframes whose fields hold values of an earlier life. *)
Definition stale : FlumpMovieLayer.t :=
  FlumpMovieLayer.mk "empty" empty DISPLAYOBJECT (Some "ball") None (Some "ball")
    {[ "ball" := SymMovie (FlumpMovie.mk "ball" 7) ]}
    (FlumpMtx.mk 2 0 0 2 30 40) 0.5 false.

(** A host whose [Math.sin] and [Math.cos] are short Taylor polynomials:
    one admissible implementation among many, used where a property is run on
    concrete data. *)
Definition taylor : Js.Math := {|
  Js.sin a := a - a * a * a / 6 + a * a * a * a * a / 120;
  Js.cos a := 1 - a * a / 2 + a * a * a * a / 24
|}.

Section WithMath.
Context `{Js.Math}.
#[local] Existing Instance FlumpLayerData.specLookup.

(** The layer as its constructor leaves it, then moved to [frame]. *)
Definition play (lib : FlumpLibrary.t) (ld : FlumpLayerData.t) (frame : float)
  : Js.outcome FlumpMovieLayer.t :=
  FlumpMovieLayer.constructor 1 true lib ∅ ld
  >>= fun '(_, _, this) => FlumpMovieLayer.setFrame frame this.

End WithMath.

End Scenario.

(** ** Behaviours *)

Module AbstractBehavior.
Section WithOwner.
Context {Owner : Type}.
(** [truthy o] tells whether the value [o] counts as true in a condition. *)
Context (truthy : Owner -> bool).

(** [owner] is [None] for [null] and for [undefined], and any other value
    otherwise. *)
Record t := mk { owner : option Owner }.

(** The constructor function. *)
Definition create : t := mk None.

(** [init]: the left summand carries the message of the [Error] thrown.  The
    test [if (this.owner)] lets a falsy owner be replaced. *)
Definition init (owner' : option Owner) (this : t) : string + t :=
  match owner this with
  | Some o =>
      if truthy o then inl "behavior already has a owner" else inr (mk owner')
  | None => inr (mk owner')
  end.

Definition destruct (this : t) : t := mk None.

(** A call made on a behaviour. *)
Inductive call := Init (owner : option Owner) | Destruct.

(** The behaviour after a call whose exception, if any, the caller caught. *)
Definition after (this : t) (c : call) : t :=
  match c with
  | Init owner =>
      match init owner this with
      | inr this' => this'
      | inl _ => this
      end
  | Destruct => destruct this
  end.

End WithOwner.
Arguments t : clear implicits.
End AbstractBehavior.

(** ** Texture atlases *)

Module FlumpTextureGroupAtlas.
Section WithTextures.
(** [Image] is [HTMLImageElement], [Json] an entry of [json.textures] with its
    [symbol], and [newFlumpTexture] the constructor of [FlumpTexture], a class
    that is not among the sources. *)
Context {Image Json Texture : Type}.
Context (symbol : Json -> string).
Context (newFlumpTexture : Image -> Json -> Texture).

Record t := mk {
  renderTexture : Image;
  flumpTextures : Js.table Texture
}.

(** The constructor, given [json.textures]; [flumpTextures] starts as [{}]
    and is filled by assignment. *)
Definition constructor (renderTexture : Image) (textures : list Json) : t :=
  mk renderTexture
    (foldl (fun flumpTextures texture =>
              Js.set (symbol texture) (newFlumpTexture renderTexture texture)
                flumpTextures)
       Js.blank textures).

End WithTextures.
Arguments t : clear implicits.
End FlumpTextureGroupAtlas.

(** ** Sprite sheets *)

Module SpriteSheet.

(** Pixel measures, frame numbers and counters are whole numbers; speeds and
    frame rates are binary64 numbers.  The data handed to a sprite sheet is
    typed after the format its documentation describes. *)

(** [Rectangle] (its class is not among the sources) keeps the four numbers
    it is constructed from. *)
Record Rectangle := mkRect { x : Z; y : Z; width : Z; height : Z }.

(** What the sheet reads of the document and of its image elements.
    [createImg src] is [document.createElement("img")] with its [src] set;
    [imgHasContext] tells whether [img.getContext] is set (a canvas). *)
Class Dom (Img : Type) := {
  createImg : string -> Img;
  imgWidth : Img -> Z;
  imgHeight : Img -> Z;
  imgComplete : Img -> bool;
  imgHasContext : Img -> bool
}.

(** A number used as a condition: [0], [-0] and [NaN] are falsy. *)
Definition truthy (f : float) : bool := negb ((f =? 0) || negb (f =? f)).

(** [next] of an animation definition: absent, [null], a boolean or a name. *)
Inductive NextSpec :=
| NextUndefined
| NextNull
| NextBool (b : bool)
| NextName (name : string).

(** The definition of one animation: a frame number; the arrays [[frame]]
    and [[start, end, next, speed]] (the last two optional); or an object with
    [frames] (a number or an array), [next] and [speed]. *)
Inductive AnimSpec :=
| Single (frame : Z)
| Simple1 (frame : Z)
| Range (start stop : Z) (next : NextSpec) (speed : option float)
| Complex (frames : Z + list Z) (next : NextSpec) (speed : option float).

(** One entry [[x, y, width, height, imageIndex, regX, regY]] of a frame
    list, the last three optional. *)
Record FrameDef := mkFrameDef {
  defX : Z; defY : Z; defWidth : Z; defHeight : Z;
  defImage : option Z; defRegX : option Z; defRegY : option Z
}.

(** The object form of [frames]. *)
Record Grid := mkGrid {
  gridWidth : Z; gridHeight : Z;
  gridRegX : option Z; gridRegY : option Z; gridCount : option Z
}.

Inductive FramesSpec :=
| NoFrames
| FrameList (defs : list FrameDef)
| FrameGrid (grid : Grid).

Record Anim := mkAnim {
  name : string;
  frames : list Z;
  speed : float;
  next : option string
}.

(** The four properties of an animation object; only [next] can be [null]. *)
#[global] Instance animShape : Js.Shape Anim := fun anim property =>
  if String.eqb property "name" then Some false
  else if String.eqb property "frames" then Some false
  else if String.eqb property "speed" then Some false
  else if String.eqb property "next" then Some (bool_decide (next anim = None))
  else None.

Section WithDom.
Context {Img : Type} `{Dom Img}.

Inductive ImageSpec := Src (src : string) | Element (img : Img).

(** [animations] lists the properties of the object in the order in which
    [for ... in] visits them. *)
Record Data := mkData {
  dataFramerate : option float;
  dataImages : option (list ImageSpec);
  dataFrames : FramesSpec;
  dataAnimations : option (list (string * AnimSpec))
}.

(** [image] is [None] when the image index names no image. *)
Record Frame := mkFrame {
  image : option Img;
  rect : Rectangle;
  regX : Z;
  regY : Z
}.

(** [None] stands for [null] and for [undefined]; [_data] is a plain object
    filled with animation objects.  [dispatched] logs the events handed to
    [dispatchEvent], oldest first. *)
Record t := mk {
  complete : bool;
  framerate : float;
  _animations : option (list string);
  _frames : option (list Frame);
  _images : option (list Img);
  _data : option (Js.table Anim);
  loadCount : Z;
  _frameHeight : Z;
  _frameWidth : Z;
  _numFrames : option Z;
  _regX : Z;
  _regY : Z;
  _hasLoaded : bool;
  url : option string;
  dispatched : list string
}.

Definition set_complete (v : bool) (s : t) : t :=
  mk v (framerate s) (_animations s) (_frames s) (_images s) (_data s)
    (loadCount s) (_frameHeight s) (_frameWidth s) (_numFrames s) (_regX s)
    (_regY s) (_hasLoaded s) (url s) (dispatched s).

Definition set_framerate (v : float) (s : t) : t :=
  mk (complete s) v (_animations s) (_frames s) (_images s) (_data s)
    (loadCount s) (_frameHeight s) (_frameWidth s) (_numFrames s) (_regX s)
    (_regY s) (_hasLoaded s) (url s) (dispatched s).

Definition set_animations (v : option (list string)) (s : t) : t :=
  mk (complete s) (framerate s) v (_frames s) (_images s) (_data s) (loadCount
    s) (_frameHeight s) (_frameWidth s) (_numFrames s) (_regX s) (_regY s)
    (_hasLoaded s) (url s) (dispatched s).

Definition set_frames (v : option (list Frame)) (s : t) : t :=
  mk (complete s) (framerate s) (_animations s) v (_images s) (_data s)
    (loadCount s) (_frameHeight s) (_frameWidth s) (_numFrames s) (_regX s)
    (_regY s) (_hasLoaded s) (url s) (dispatched s).

Definition set_images (v : option (list Img)) (s : t) : t :=
  mk (complete s) (framerate s) (_animations s) (_frames s) v (_data s)
    (loadCount s) (_frameHeight s) (_frameWidth s) (_numFrames s) (_regX s)
    (_regY s) (_hasLoaded s) (url s) (dispatched s).

Definition set_data (v : option (Js.table Anim)) (s : t) : t :=
  mk (complete s) (framerate s) (_animations s) (_frames s) (_images s) v
    (loadCount s) (_frameHeight s) (_frameWidth s) (_numFrames s) (_regX s)
    (_regY s) (_hasLoaded s) (url s) (dispatched s).

Definition set_loadCount (v : Z) (s : t) : t :=
  mk (complete s) (framerate s) (_animations s) (_frames s) (_images s) (_data
    s) v (_frameHeight s) (_frameWidth s) (_numFrames s) (_regX s) (_regY s)
    (_hasLoaded s) (url s) (dispatched s).

Definition set_frameHeight (v : Z) (s : t) : t :=
  mk (complete s) (framerate s) (_animations s) (_frames s) (_images s) (_data
    s) (loadCount s) v (_frameWidth s) (_numFrames s) (_regX s) (_regY s)
    (_hasLoaded s) (url s) (dispatched s).

Definition set_frameWidth (v : Z) (s : t) : t :=
  mk (complete s) (framerate s) (_animations s) (_frames s) (_images s) (_data
    s) (loadCount s) (_frameHeight s) v (_numFrames s) (_regX s) (_regY s)
    (_hasLoaded s) (url s) (dispatched s).

Definition set_numFrames (v : option Z) (s : t) : t :=
  mk (complete s) (framerate s) (_animations s) (_frames s) (_images s) (_data
    s) (loadCount s) (_frameHeight s) (_frameWidth s) v (_regX s) (_regY s)
    (_hasLoaded s) (url s) (dispatched s).

Definition set_regX (v : Z) (s : t) : t :=
  mk (complete s) (framerate s) (_animations s) (_frames s) (_images s) (_data
    s) (loadCount s) (_frameHeight s) (_frameWidth s) (_numFrames s) v (_regY
    s) (_hasLoaded s) (url s) (dispatched s).

Definition set_regY (v : Z) (s : t) : t :=
  mk (complete s) (framerate s) (_animations s) (_frames s) (_images s) (_data
    s) (loadCount s) (_frameHeight s) (_frameWidth s) (_numFrames s) (_regX s)
    v (_hasLoaded s) (url s) (dispatched s).

Definition set_url (v : option string) (s : t) : t :=
  mk (complete s) (framerate s) (_animations s) (_frames s) (_images s) (_data
    s) (loadCount s) (_frameHeight s) (_frameWidth s) (_numFrames s) (_regX s)
    (_regY s) (_hasLoaded s) v (dispatched s).

Definition set_dispatched (v : list string) (s : t) : t :=
  mk (complete s) (framerate s) (_animations s) (_frames s) (_images s) (_data
    s) (loadCount s) (_frameHeight s) (_frameWidth s) (_numFrames s) (_regX s)
    (_regY s) (_hasLoaded s) (url s) v.

Definition set_hasLoaded (v : bool) (s : t) : t :=
  mk (complete s) (framerate s) (_animations s) (_frames s) (_images s) (_data
    s) (loadCount s) (_frameHeight s) (_frameWidth s) (_numFrames s) (_regX s)
    (_regY s) v (url s) (dispatched s).

(** The fields as the initialisers leave them. *)
Definition fresh : t :=
  mk true 0 None None None None 0 0 0 (Some 0%Z) 0 0 false None [].

(** A step that may throw or, when [None], fail to end within the fuel. *)
Definition andThen {A B : Type} (m : option (Js.outcome A))
  (k : A -> option (Js.outcome B)) : option (Js.outcome B) :=
  match m with
  | None => None
  | Some (Throws e) => Some (Throws e)
  | Some (Returns a) => k a
  end.

(** [arr[i]] for a whole number [i]. *)
Definition at_index {A : Type} (l : list A) (i : Z) : option A :=
  if (0 <=? i)%Z then l !! Z.to_nat i else None.

(** *** [_calculateFrames] *)

Section Scan.
Context (frameWidth frameHeight spacing margin maxFrames : Z) (rx ry : Z).

(** The inner [while]: the frames, the frame count and whether
    [break imgLoop] was taken. *)
Fixpoint scanRow (fuel : nat) (img : Img) (imgW : Z) (y x : Z)
  (frames : list Frame) (frameCount : Z) : option (list Frame * Z * bool) :=
  match fuel with
  | O => None
  | S fuel =>
      if (x <=? imgW - margin - frameWidth)%Z then
        if (maxFrames <=? frameCount)%Z then Some (frames, frameCount, true)
        else
          scanRow fuel img imgW y (x + (frameWidth + spacing))%Z
            (frames ++ [mkFrame (Some img)
                          (mkRect x y frameWidth frameHeight) rx ry])
            (frameCount + 1)%Z
      else Some (frames, frameCount, false)
  end.

(** The outer [while]. *)
Fixpoint scanColumn (fuel budget : nat) (img : Img) (imgW imgH : Z) (y : Z)
  (frames : list Frame) (frameCount : Z) : option (list Frame * Z * bool) :=
  match fuel with
  | O => None
  | S fuel =>
      if (y <=? imgH - margin - frameHeight)%Z then
        match scanRow budget img imgW y margin frames frameCount with
        | None => None
        | Some (frames, frameCount, true) => Some (frames, frameCount, true)
        | Some (frames, frameCount, false) =>
            scanColumn fuel budget img imgW imgH (y + (frameHeight + spacing))%Z
              frames frameCount
        end
      else Some (frames, frameCount, false)
  end.

(** The [for] over the images, labelled [imgLoop]. *)
Fixpoint scanImages (fuel : nat) (imgs : list Img)
  (frames : list Frame) (frameCount : Z) : option (list Frame * Z) :=
  match imgs with
  | [] => Some (frames, frameCount)
  | img :: rest =>
      match scanColumn fuel fuel img (imgWidth img) (imgHeight img) margin
              frames frameCount with
      | None => None
      | Some (frames, frameCount, true) => Some (frames, frameCount)
      | Some (frames, frameCount, false) =>
          scanImages fuel rest frames frameCount
      end
  end.

End Scan.

(** Each loop may run [fuel] times; [None] when one of them would run longer.
    Reading [imgs.length] of [null] throws. *)
Definition _calculateFrames (fuel : nat) (this : t) : option (Js.outcome t) :=
  if bool_decide (is_Some (_frames this)) || (_frameWidth this =? 0)%Z
  then Some (Returns this)
  else
    let this := set_frames (Some []) this in
    let maxFrames :=
      match _numFrames this with
      | Some n => if (n =? 0)%Z then 100000%Z else n
      | None => 100000%Z
      end in
    let spacing := 0%Z in
    let margin := 0%Z in
    match _images this with
    | None => Some (Throws Js.TypeError)
    | Some imgs =>
        match scanImages (_frameWidth this) (_frameHeight this) spacing margin
                maxFrames (_regX this) (_regY this) fuel imgs [] 0%Z with
        | None => None
        | Some (frames, frameCount) =>
            Some (Returns (set_numFrames (Some frameCount)
                             (set_frames (Some frames) this)))
        end
    end.

(** *** [_handleImageLoad] *)

Definition _handleImageLoad (fuel : nat) (this : t) : option (Js.outcome t) :=
  let this := set_loadCount (loadCount this - 1)%Z this in
  if (loadCount this =? 0)%Z then
    andThen (_calculateFrames fuel this) (fun this =>
    let this := set_complete true this in
    Some (Returns (set_dispatched (dispatched this ++ ["complete"]) this)))
  else Some (Returns this).

(** *** [initialize] *)

(** The loop over [data.images]. *)
Fixpoint parseImages (specs : list ImageSpec) (this : t) : t :=
  match specs with
  | [] => this
  | spec :: rest =>
      let img := match spec with
                 | Src src => createImg src
                 | Element img => img
                 end in
      let this := set_images (Some (default [] (_images this) ++ [img])) this in
      let this :=
        if negb (imgHasContext img) && negb (imgComplete img)
        then set_complete false (set_loadCount (loadCount this + 1)%Z this)
        else this in
      parseImages rest this
  end.

(** The loop over a frame list; [imgs] is [this._images]. *)
Definition parseFrame (imgs : list Img) (arr : FrameDef) : Frame :=
  mkFrame (at_index imgs (default 0%Z (defImage arr)))
    (mkRect (defX arr) (defY arr) (defWidth arr) (defHeight arr))
    (default 0%Z (defRegX arr)) (default 0%Z (defRegY arr)).

(** [for(i = obj[0]; i <= obj[1]; i++) a.push(i)] *)
Definition range (start stop : Z) : list Z := seqZ start (stop - start + 1).

(** One turn of the loop over [data.animations].  [a] is the length of the
    array that the variable [a] holds, [None] while it is [undefined]; the
    turn returns the animation and the new [a]. *)
Definition parseAnimation (name : string) (obj : AnimSpec) (a : option nat)
  : Js.outcome (Anim * option nat) :=
  let '(frames, speed, next, a) :=
    match obj with
    | Single frame => ([frame], None, NextUndefined, Some 1%nat)
    | Simple1 frame => ([frame], None, NextUndefined, a)
    | Range start stop next speed =>
        let frames := range start stop in
        (frames, speed, next, Some (length frames))
    | Complex frames next speed =>
        let frames := match frames with
                      | inl frame => [frame]
                      | inr frames => frames
                      end in
        (frames, speed, next, Some (length frames))
    end in
  let next :=
    match next with
    | NextBool true | NextUndefined => NextName name
    | _ => next
    end in
  let speed :=
    match speed with
    | Some speed => if truthy speed then speed else 1
    | None => 1
    end in
  match next with
  | NextBool _ => Returns (mkAnim name frames speed None, a)
  | NextNull | NextUndefined => 
      match a with
      | None => Throws Js.TypeError
      | Some _ => Returns (mkAnim name frames speed None, a)
      end
  | NextName n =>
      match a with
      | None => Throws Js.TypeError
      | Some len =>
          if (len <? 2)%nat && String.eqb n name
          then Returns (mkAnim name frames speed None, a)
          else Returns (mkAnim name frames speed (Some n), a)
      end
  end.

Fixpoint parseAnimations (anims : list (string * AnimSpec)) (a : option nat)
  (this : t) : Js.outcome t :=
  match anims with
  | [] => Returns this
  | (name, obj) :: rest =>
      parseAnimation name obj a >>= fun '(anim, a) =>
      let this :=
        set_animations (Some (default [] (_animations this) ++ [name])) this in
      let this :=
        set_data (Some (Js.set name anim (default Js.blank (_data this))))
          this in
      parseAnimations rest a this
  end.

Definition initialize (fuel : nat) (data : option Data) (this : t)
  : option (Js.outcome t) :=
  match data with
  | None => Some (Returns this)
  | Some data =>
      let this :=
        set_framerate (match dataFramerate data with
                       | Some f => if truthy f then f else 0
                       | None => 0
                       end) this in
      (* parse images: *)
      let '(this, a) :=
        match dataImages data with
        | Some (spec :: specs) =>
            (parseImages (spec :: specs) (set_images (Some []) this),
             Some (length (spec :: specs)))
        | _ => (this, None)
        end in
      (* parse frames: *)
      andThen
        match dataFrames data with
        | NoFrames => Some (Returns (this, a))
        | FrameList defs =>
            let this := set_frames (Some []) this in
            match defs, _images this with
            | [], _ => Some (Returns (this, Some 0%nat))
            | _ :: _, None => Some (Throws Js.TypeError)
            | _ :: _, Some imgs =>
                Some (Returns (set_frames (Some (parseFrame imgs <$> defs)) this,
                               Some (length defs)))
            end
        | FrameGrid o =>
            let this := set_frameWidth (gridWidth o) this in
            let this := set_frameHeight (gridHeight o) this in
            let this := set_regX (default 0%Z (gridRegX o)) this in
            let this := set_regY (default 0%Z (gridRegY o)) this in
            let this := set_numFrames (gridCount o) this in
            if (loadCount this =? 0)%Z
            then andThen (_calculateFrames fuel this)
                   (fun this => Some (Returns (this, a)))
            else Some (Returns (this, a))
        end
        (fun '(this, a) =>
           (* parse animations: *)
           let this := set_animations (Some []) this in
           match dataAnimations data with
           | Some o =>
               Some (parseAnimations o a (set_data (Some Js.blank) this))
           | None => Some (Returns this)
           end)
  end.

(** *** Construction *)

(** The argument of the constructor: a URL, or data ([None] when absent). *)
Inductive Arg := Url (url : string) | DataArg (data : option Data).

Definition constructor (fuel : nat) (dataOrUrl : Arg) : option (Js.outcome t) :=
  match dataOrUrl with
  | Url url => Some (Returns (set_url (Some url) fresh))
  | DataArg data => initialize fuel data fresh
  end.

Definition createSequenceDataFromString (images : list string)
  (width height : Z) : Data :=
  mkData None
    (Some (Src <$> images))
    (FrameList (imap (fun index _ =>
                        mkFrameDef 0 0 width height
                          (Some (Z.of_nat index)) (Some 0%Z) (Some 0%Z))
                  images))
    (Some [("animation",
            Range 0 (Z.of_nat (length images) - 1) NextUndefined None)]).

Definition createFromString (fuel : nat) (images : list string)
  (width height : Z) : option (Js.outcome t) :=
  constructor fuel
    (DataArg (Some (createSequenceDataFromString images width height))).

(** *** Queries *)

Definition hasLoaded (this : t) : bool := _hasLoaded this.

(** *** [load] *)

(** What [onProgress] is called with: the number 1, or the quotient
    [(total - this.loadCount) / total] given by its two operands. *)
Inductive Progress :=
| Whole
| Quotient (numerator denominator : Z).

(** How a call of [load] ends, before any promise settles: with a promise
    resolved with the sheet, with a promise that polls [loadCount] on an
    interval ([total] is the count at the call), with the promise of the
    static [load] for the URL of the sheet, or with a thrown [Error]. *)
Inductive Loading :=
| Resolved
| Polling (total : Z)
| Fetching (url : string)
| Raised (message : string).

(** [load]; [onProgress] tells whether the callback is given, and the list
    holds what it has been called with when [load] returns. *)
Definition load (onProgress : bool) (this : t)
  : Js.outcome (list Progress * Loading) :=
  if hasLoaded this then
    Returns (if onProgress then [Whole] else [], Resolved)
  else
    match _animations this with
    | None => Throws Js.TypeError
    | Some animations =>
        if (0 <? length animations)%nat then
          Returns ([], Polling (loadCount this))
        else
          match url this with
          | Some url =>
              if String.eqb url EmptyString
              then Returns ([], Raised "url is not set and there for can not be loaded")
              else Returns ([], Fetching url)
          | None =>
              Returns ([], Raised "url is not set and there for can not be loaded")
          end
    end.

(** *** The static [load] *)

(** [s.indexOf(needle) > -1] *)
Fixpoint includes (needle s : string) : bool :=
  String.prefix needle s
  || match s with
     | EmptyString => false
     | String _ rest => includes needle rest
     end.

(** [s.lastIndexOf(c)], [None] for -1. *)
Fixpoint lastIndexOf (c : Ascii.ascii) (s : string) : option nat :=
  match s with
  | EmptyString => None
  | String c' rest =>
      match lastIndexOf c rest with
      | Some i => Some (S i)
      | None => if Ascii.eqb c' c then Some 0%nat else None
      end
  end.

(** [s.substr(0, n)] for the [n] that [lastIndexOf] gives: a negative length
    yields the empty string. *)
Definition substr0 (s : string) (n : option nat) : string :=
  match n with
  | Some n => String.substring 0 n s
  | None => EmptyString
  end.

(** [s.substr(-1)], which is also [s.substr(s.length - 1)]: the last
    character, or the empty string. *)
Fixpoint lastChar (s : string) : string :=
  match s with
  | EmptyString => EmptyString
  | String c EmptyString => String c EmptyString
  | String _ rest => lastChar rest
  end.

(** [s.substr(0, s.length - 1)] *)
Fixpoint dropLast (s : string) : string :=
  match s with
  | EmptyString => EmptyString
  | String c EmptyString => EmptyString
  | String c rest => String c (dropLast rest)
  end.

(** The character [/]. *)
Definition slash : Ascii.ascii := Ascii.ascii_of_nat 47.

(** The part of the static [load] before the request (lines 163-177): the
    URL that is requested and [baseDir]. *)
Definition loadUrl (url : string) : string * string :=
  if includes ".json" url then
    (url, substr0 url (lastIndexOf slash url))
  else
    let baseDir :=
      if String.eqb (lastChar url) "/" then dropLast url else url in
    (url +:+ (if negb (String.eqb (lastChar url) "/") then "/" else EmptyString)
         +:+ "library.json",
     baseDir).

(** The JSON answer: its images are strings. *)
Record Json := mkJson {
  jsonFramerate : option float;
  jsonImages : option (list string);
  jsonFrames : FramesSpec;
  jsonAnimations : option (list (string * AnimSpec))
}.

(** The one character that the pattern [/\\/] looks for. *)
Definition backslash : string := String (Ascii.ascii_of_nat 92) EmptyString.

(** The callback that the static [load] runs on the answer (lines 181-199);
    an exception rejects the promise.  The list holds what [onProgress] has
    been called with. *)
Definition loadJson (fuel : nat) (url baseDir : string) (json : Json)
  (spriteSheet : t) (onProgress : bool)
  : option (Js.outcome (list Progress * t)) :=
  let spriteSheet := set_url (Some url) spriteSheet in
  match jsonImages json with
  | None => Some (Throws Js.TypeError)
  | Some images =>
      let images :=
        (fun image =>
           if negb (includes backslash image)
           then baseDir +:+ "/" +:+ image
           else image) <$> images in
      andThen
        (initialize fuel
           (Some (mkData (jsonFramerate json) (Some (Src <$> images))
                    (jsonFrames json) (jsonAnimations json)))
           spriteSheet)
        (fun spriteSheet =>
           Some (Returns (if onProgress then [Whole] else [], spriteSheet)))
  end.

(** One run of the interval callback of a polling [load]: what [onProgress]
    is called with, the sheet, and whether the promise has been resolved and
    the interval cleared. *)
Definition loadInterval (onProgress : bool) (total : Z) (this : t)
  : list Progress * t * bool :=
  let reported :=
    if onProgress then [Quotient (total - loadCount this) total] else [] in
  if (loadCount this =? 0)%Z
  then (reported, set_hasLoaded true this, true)
  else (reported, this, false).

(** [getNumFrames]; the argument is [None] when omitted, and so is the result
    when it is [undefined].  A value found under the name that is no
    animation and not [null] has no [frames], so that reading the [length]
    of its [frames] throws. *)
Definition getNumFrames (animation : option string) (this : t)
  : Js.outcome (option Z) :=
  match animation with
  | None =>
      Returns match _frames this with
              | Some frames => Some (Z.of_nat (length frames))
              | None => _numFrames this
              end
  | Some animation =>
      match _data this with
      | None => Throws Js.TypeError
      | Some data =>
          match Js.get animation data with
          | Js.Missing | Js.Foreign true => Returns (Some 0%Z)
          | Js.Foreign false => Throws Js.TypeError
          | Js.Holds anim => Returns (Some (Z.of_nat (length (frames anim))))
          end
      end
  end.

Definition getAnimations (this : t) : Js.outcome (list string) :=
  match _animations this with
  | Some names => Returns names
  | None => Throws Js.TypeError
  end.

(** [getAnimation]: whatever [this._data[name]] finds. *)
Definition getAnimation (name : string) (this : t)
  : Js.outcome (Js.member Anim) :=
  match _data this with
  | Some data => Returns (Js.get name data)
  | None => Throws Js.TypeError
  end.

Definition getFrame (frameIndex : Z) (this : t) : option Frame :=
  match _frames this with
  | Some frames => at_index frames frameIndex
  | None => None
  end.

Definition getFrameBounds (frameIndex : Z) (rectangle : option Rectangle)
  (this : t) : option Rectangle :=
  match getFrame frameIndex this with
  | Some frame =>
      Some match rectangle with
           | Some rectangle => rectangle
           | None => mkRect (- regX frame) (- regY frame)
                       (width (rect frame)) (height (rect frame))
           end
  | None => None
  end.

Definition toString (this : t) : string := "[SpriteSheet]".

(** [clone]: [new SpriteSheet()] runs [initialize(undefined)], which returns
    at once. *)
Definition clone (this : t) : t :=
  let o := fresh in
  let o := set_complete (complete this) o in
  let o := set_animations (_animations this) o in
  let o := set_frames (_frames this) o in
  let o := set_images (_images this) o in
  let o := set_data (_data this) o in
  let o := set_frameHeight (_frameHeight this) o in
  let o := set_frameWidth (_frameWidth this) o in
  let o := set_numFrames (_numFrames this) o in
  set_loadCount (loadCount this) o.

End WithDom.
Arguments t : clear implicits.
Arguments Frame : clear implicits.
Arguments Data : clear implicits.
Arguments ImageSpec : clear implicits.
Arguments Arg : clear implicits.

End SpriteSheet.

(** ** Vocabulary of the properties *)

Module KF := FlumpKeyframeData.
Module Layer := FlumpMovieLayer.

(** The values of a keyframe as they stand, without tweening. *)
Definition raw (keyframe : KF.t) : Layer.locals :=
  Layer.mkLocals (KF.x keyframe) (KF.y keyframe)
    (KF.scaleX keyframe) (KF.scaleY keyframe)
    (KF.skewX keyframe) (KF.skewY keyframe)
    (KF.pivotX keyframe) (KF.pivotY keyframe) (KF.alpha keyframe).

(** The values of a keyframe moved toward [next] by the fraction [t]; the
    pivot stays the keyframe's. *)
Definition lerp (keyframe next : KF.t) (t : float) : Layer.locals :=
  Layer.mkLocals
    (KF.x keyframe + (KF.x next - KF.x keyframe) * t)
    (KF.y keyframe + (KF.y next - KF.y keyframe) * t)
    (KF.scaleX keyframe + (KF.scaleX next - KF.scaleX keyframe) * t)
    (KF.scaleY keyframe + (KF.scaleY next - KF.scaleY keyframe) * t)
    (KF.skewX keyframe + (KF.skewX next - KF.skewX keyframe) * t)
    (KF.skewY keyframe + (KF.skewY next - KF.skewY keyframe) * t)
    (KF.pivotX keyframe) (KF.pivotY keyframe)
    (KF.alpha keyframe + (KF.alpha next - KF.alpha keyframe) * t).

(** Raw progress through the keyframe's span. *)
Definition progress (keyframe : KF.t) (frame : float) : float :=
  (frame - KF.index keyframe) / KF.duration keyframe.

(** The same keyframe anchored at another pivot. *)
Definition with_pivot (pivotX pivotY : float) (k : KF.t) : KF.t :=
  KF.mk (KF.index k) (KF.duration k) (KF.ref k) (KF.label k)
    (KF.x k) (KF.y k) (KF.scaleX k) (KF.scaleY k) (KF.skewX k) (KF.skewY k)
    pivotX pivotY (KF.visible k) (KF.alpha k) (KF.tweened k) (KF.ease k).

(** Two keyframes that differ at most in [pivotX] and [pivotY]. *)
Definition pivot_apart (k k' : KF.t) : Prop :=
  k' = with_pivot (KF.pivotX k') (KF.pivotY k') k.

(** Several [setFrame] calls in a row. *)
Definition setFrames `{Js.Math} `{FlumpLayerData.Lookup}
  (frames : list float) (this : Layer.t) : Js.outcome Layer.t :=
  foldl (fun acc frame => acc >>= Layer.setFrame frame) (Returns this) frames.

(** Every name that a keyframe of the layer refers to is found in the
    cache, as an entry or as an inherited member. *)
Definition refs_cached (this : Layer.t) : Prop :=
  forall kf ref,
    kf ∈ FlumpLayerData.flumpKeyframeDatas (Layer.flumpLayerData this) ->
    KF.ref kf = Some ref -> Js.has ref (Layer._symbols this) = true.

(** What the constructor's loop maintains: the log of [createSymbol] calls
    has no repetition and lists exactly the cached names, none of which is
    the name of an inherited member. *)
Definition log_ok
  (acc : gmap string FlumpLabelData.t * gmap string Symbol * list string) : Prop :=
  NoDup acc.2
  /\ (forall r, r ∈ acc.2 <-> is_Some (acc.1.2 !! r))
  /\ (forall r, r ∈ acc.2 -> Js.inherited r = false).

Section Staged.
Context `{Js.Math} `{FlumpLayerData.Lookup}.

(** The layer after lines 140-150, before the symbol is resolved. *)
Definition staged (keyframe : KF.t) (frame : float) (this : Layer.t) : Layer.t :=
  let v := Layer.tween keyframe
             (FlumpLayerData.getKeyframeAfter (Layer.flumpLayerData this) keyframe)
             frame in
  Layer.set_visible (KF.visible keyframe)
    (Layer.set_alpha (Layer.alpha_ v)
       (Layer.set_storedMtx (Layer.compose v) this)).

End Staged.

(** The active child, when there is one, is the cached symbol named by
    [_keyframeRef], held by the field that [_symbolType] selects; and the
    symbol type is [undefined] only while [_keyframeRef] names a member
    inherited from [Object.prototype]. *)
Definition active_ok (this : Layer.t) : Prop :=
  match Layer._symbolType this with
  | DISPLAYOBJECT =>
      exists r m, Layer._keyframeRef this = Some r
                  /\ Layer._symbolMovie this = Some r
                  /\ Layer._symbols this !! r = Some (SymMovie m)
  | TEXTURE =>
      exists r tex, Layer._keyframeRef this = Some r
                    /\ Layer._symbolTexture this = Some r
                    /\ Layer._symbols this !! r = Some (SymTexture tex)
  | UNKNOWN => True
  | STAGE => False
  | UNDEFINED =>
      exists r, Layer._keyframeRef this = Some r
                /\ Layer._symbols this !! r = None
                /\ Js.inherited r = true
  end.

(** The keyframes that carry the label [l]. *)
Definition labelled (l : string) (kfs : list KF.t) : list KF.t :=
  filter (fun kf => KF.label kf = Some l) kfs.

(** ** Further sample data *)

Module Sample.

(** A keyframe that carries a label and nothing else of note. *)
Definition tagged (index duration : float) (label : string) : KF.t :=
  KF.mk index duration None (Some label) 0 0 1 1 0 0 0 0 true 1 false 0.

(** Labels "intro", "loop", "intro" again and an empty label. *)
Definition chapters : FlumpLayerData.t :=
  FlumpLayerData.mk "chapters"
    [tagged 0 3 "intro"; tagged 3 4 "loop"; tagged 7 2 "intro"; tagged 9 1 ""].

(** The label map of a movie whose earlier layers registered two labels. *)
Definition earlier : gmap string FlumpLabelData.t :=
  {[ "intro" := FlumpLabelData.mk "intro" 0 1;
     "outro" := FlumpLabelData.mk "outro" 20 5 ]}.

(** A layer that names a symbol the sample library lacks. *)
Definition orphan : FlumpLayerData.t :=
  FlumpLayerData.mk "orphan"
    [Scenario.ballOn;
     KF.mk 5 5 (Some "ghost") None 0 0 1 1 0 0 0 0 true 1 false 0].

End Sample.

(** ** Sample pictures *)

Module Pictures.

(** An image element reduced to what a sprite sheet reads of it. *)
Record Picture := mk {
  src : string;
  width : Z;
  height : Z;
  complete : bool;
  canvas : bool
}.

(** A document whose new image elements have not loaded yet. *)
Definition dom : SpriteSheet.Dom Picture := {|
  SpriteSheet.createImg src := mk src 0 0 false false;
  SpriteSheet.imgWidth := width;
  SpriteSheet.imgHeight := height;
  SpriteSheet.imgComplete := complete;
  SpriteSheet.imgHasContext := canvas
|}.

(** A loaded strip of 64 by 32 pixels. *)
Definition strip : Picture := mk "strip.png" 64 32 true false.

(** A sheet waiting to cut [strip] into frames of 32 by 16, three at most. *)
Definition cutting : SpriteSheet.t Picture :=
  SpriteSheet.mk true 0 None None (Some [strip]) None 0 16 32 (Some 3%Z) 1 2
    false None [].

(** A sheet with a frame of height 0 that is wider than [strip]. *)
Definition stuck : SpriteSheet.t Picture :=
  SpriteSheet.mk true 0 None None (Some [strip]) None 0 0 100 (Some 0%Z) 0 0
    false None [].

(** Three animations: a frame number, a range and an object. *)
Definition moves : list (string * SpriteSheet.AnimSpec) :=
  [("idle", SpriteSheet.Single 3);
   ("run", SpriteSheet.Range 0 4 SpriteSheet.NextUndefined None);
   ("jump", SpriteSheet.Complex (inr [1; 2]%Z)
              (SpriteSheet.NextName "idle") (Some 0))].

(** Data with animations only. *)
Definition script : SpriteSheet.Data Picture :=
  SpriteSheet.mkData (Some 24) None SpriteSheet.NoFrames (Some moves).

(** Data with a frame list and no image. *)
Definition imageless : SpriteSheet.Data Picture :=
  SpriteSheet.mkData None None
    (SpriteSheet.FrameList [SpriteSheet.mkFrameDef 0 0 8 8 None None None])
    None.

(** Two images and one animation written as a one-element array. *)
Definition still : SpriteSheet.Data Picture :=
  SpriteSheet.mkData None
    (Some [SpriteSheet.Element strip; SpriteSheet.Src "more.png"])
    SpriteSheet.NoFrames
    (Some [("pose", SpriteSheet.Simple1 0)]).

(** A grid over [strip], and nothing else. *)
Definition gridded : SpriteSheet.Data Picture :=
  SpriteSheet.mkData None (Some [SpriteSheet.Element strip])
    (SpriteSheet.FrameGrid (SpriteSheet.mkGrid 32 16 None None None)) None.

(** A sheet holding two frames of [strip]. *)
Definition halves : SpriteSheet.t Picture :=
  SpriteSheet.mk true 0 None
    (Some [SpriteSheet.mkFrame (Some strip) (SpriteSheet.mkRect 0 0 32 32) 4 5;
           SpriteSheet.mkFrame (Some strip) (SpriteSheet.mkRect 32 0 32 32) 4 5])
    (Some [strip]) None 0 0 0 (Some 2%Z) 4 5 false None [].

(** An answer that has no [images]. *)
Definition imagefree : SpriteSheet.Json :=
  SpriteSheet.mkJson None None SpriteSheet.NoFrames None.

(** An answer with two image names and one animation. *)
Definition answer : SpriteSheet.Json :=
  SpriteSheet.mkJson None (Some ["a.png"; "b.png"]) SpriteSheet.NoFrames
    (Some [("run", SpriteSheet.Range 0 1 SpriteSheet.NextUndefined None)]).

End Pictures.

(** ** Vocabulary of the sprite sheet properties *)

Module Sheet := SpriteSheet.

(** The array form [[frame]] of an animation. *)
Definition one_element (obj : Sheet.AnimSpec) : Prop :=
  match obj with
  | Sheet.Simple1 _ => True
  | _ => False
  end.

(** An animation whose speed counts as a number that is set and that does
    not name itself as its successor unless it has two frames at least. *)
Definition settled (anim : Sheet.Anim) : Prop :=
  Sheet.truthy (Sheet.speed anim) = true
  /\ (Sheet.next anim = Some (Sheet.name anim) ->
      (2 <= length (Sheet.frames anim))%nat).

Section SheetVocabulary.
Context {Img : Type} `{Sheet.Dom Img}.

(** The image element that an entry of [data.images] stands for. *)
Definition toImg (spec : Sheet.ImageSpec Img) : Img :=
  match spec with
  | Sheet.Src src => Sheet.createImg src
  | Sheet.Element img => img
  end.

(** An image that the sheet has to wait for. *)
Definition pending (img : Img) : bool :=
  negb (Sheet.imgHasContext img) && negb (Sheet.imgComplete img).

(** The cap on the number of frames of a grid. *)
Definition maxFramesOf (this : Sheet.t Img) : Z :=
  match Sheet._numFrames this with
  | Some n => if (n =? 0)%Z then 100000%Z else n
  | None => 100000%Z
  end.

(** The cells of a grid of [fw] by [fh] frames laid over an image, row by
    row from the top left corner. *)
Definition rowCells (fw fh rx ry : Z) (img : Img) (row : Z) : list (Sheet.Frame Img) :=
  (fun col => Sheet.mkFrame (Some img)
                (Sheet.mkRect (col * fw) (row * fh) fw fh) rx ry)
  <$> seqZ 0 (Sheet.imgWidth img / fw).

Definition imageCells (fw fh rx ry : Z) (img : Img) : list (Sheet.Frame Img) :=
  concat (rowCells fw fh rx ry img <$> seqZ 0 (Sheet.imgHeight img / fh)).

Definition gridCells (fw fh rx ry : Z) (imgs : list Img) : list (Sheet.Frame Img) :=
  concat (imageCells fw fh rx ry <$> imgs).

(** A number of loop turns that suffices for the grid over these images. *)
Definition enoughFuel (imgs : list Img) : nat :=
  S (Z.to_nat (foldr Z.max 0%Z
                 ((fun img => Z.max (Sheet.imgWidth img) (Sheet.imgHeight img))
                  <$> imgs))).

(** The images of a list that the sheet has to wait for. *)
Definition waiting (imgs : list Img) : list Img :=
  filter (fun img => pending img = true) imgs.

(** [n] load events, one after the other. *)
Fixpoint loadEvents (fuel n : nat) (this : Sheet.t Img)
  : option (Js.outcome (Sheet.t Img)) :=
  match n with
  | O => Some (Returns this)
  | S n => Sheet.andThen (Sheet._handleImageLoad fuel this) (loadEvents fuel n)
  end.

End SheetVocabulary.

(** * Properties *)

(** ** Facts about comparisons of binary64 numbers *)

Lemma Prim2SF_zero : Prim2SF 0 = S754_zero false.
Proof. reflexivity. Qed.

Lemma ltb_zero_sign (e : float) :
  (e <? 0) = true ->
  Prim2SF e = S754_infinity true \/ exists m k, Prim2SF e = S754_finite true m k.
Proof.
  rewrite FloatAxioms.ltb_spec, Prim2SF_zero. unfold SFltb, SFcompare.
  destruct (Prim2SF e) as [s | s | | s m k]; try discriminate.
  - destruct s; [auto | discriminate].
  - destruct s; [eauto | discriminate].
Qed.

Lemma ltb_zero_neq (e : float) : (e <? 0) = true -> Js.neq e 0 = true.
Proof.
  intros Hlt. unfold Js.neq. rewrite FloatAxioms.eqb_spec, Prim2SF_zero.
  destruct (ltb_zero_sign e Hlt) as [-> | (m & k & ->)]; reflexivity.
Qed.

Lemma zero_ltb_sign (e : float) :
  (0 <? e) = true ->
  Prim2SF e = S754_infinity false \/ exists m k, Prim2SF e = S754_finite false m k.
Proof.
  rewrite FloatAxioms.ltb_spec, Prim2SF_zero. unfold SFltb, SFcompare.
  destruct (Prim2SF e) as [s | s | | s m k]; try discriminate.
  - destruct s; [discriminate | auto].
  - destruct s; [discriminate | eauto].
Qed.

Lemma zero_ltb_neq (e : float) :
  (0 <? e) = true -> Js.neq e 0 = true /\ (e <? 0) = false.
Proof.
  intros Hlt. unfold Js.neq. rewrite FloatAxioms.eqb_spec, FloatAxioms.ltb_spec, Prim2SF_zero.
  destruct (zero_ltb_sign e Hlt) as [-> | (m & k & ->)]; split; reflexivity.
Qed.

(** For a negative number, [0 - e] and [-e] are the same value. *)
Lemma zero_sub_negative (e : float) : (e <? 0) = true -> 0 - e = - e.
Proof.
  intros Hlt. apply Prim2SF_inj.
  rewrite FloatAxioms.sub_spec, FloatAxioms.opp_spec, Prim2SF_zero.
  destruct (ltb_zero_sign e Hlt) as [-> | (m & k & ->)]; reflexivity.
Qed.

(** A number strictly below another one differs from it. *)
Lemma ltb_neq (a b : float) : (a <? b) = true -> Js.neq a b = true.
Proof.
  unfold Js.neq. rewrite FloatAxioms.ltb_spec, FloatAxioms.eqb_spec.
  unfold SFltb, SFeqb.
  destruct (SFcompare (Prim2SF a) (Prim2SF b)) as [[]|];
    (discriminate || reflexivity).
Qed.

Lemma eqb_zero_not_neq (e : float) : (e =? 0) = true -> Js.neq e 0 = false.
Proof. unfold Js.neq. intros ->. reflexivity. Qed.

(** ** How [setFrame] splits *)

Section Frame.
Context `{Js.Math} `{FlumpLayerData.Lookup}.

Lemma setFrame_none (frame : float) (this : Layer.t) :
  FlumpLayerData.getKeyframeForFrame (Layer.flumpLayerData this) (Js.bitor0 frame)
  = None ->
  Layer.setFrame frame this = Returns (Layer.set_symbolType UNKNOWN this).
Proof. unfold Layer.setFrame, Layer.setFrame_state. intros ->. reflexivity. Qed.

Lemma setFrame_some (frame : float) (this : Layer.t) (keyframe : KF.t) :
  FlumpLayerData.getKeyframeForFrame (Layer.flumpLayerData this) (Js.bitor0 frame)
  = Some keyframe ->
  Layer.setFrame frame this
  = Layer.resolveSymbol keyframe (staged keyframe frame this).
Proof. unfold Layer.setFrame, Layer.setFrame_state. intros ->. reflexivity. Qed.

(** The symbol resolution, case by case, as its caller sees it. *)
Lemma resolveSymbol_cases (keyframe : KF.t) (this : Layer.t) :
  Layer.resolveSymbol keyframe this
  = match KF.ref keyframe with
    | Some ref =>
        if Layer.ref_differs (Layer._keyframeRef this) ref then
          match Layer._symbols this !! ref with
          | None =>
              if Js.inherited ref
              then Returns (Layer.set_symbolType UNDEFINED
                              (Layer.set_keyframeRef (Some ref) this))
              else Throws Js.TypeError
          | Some (SymMovie m) =>
              Returns (Layer.set_symbols
                         (<[ref := SymMovie (FlumpMovie.reset m)]>
                            (Layer._symbols this))
                         (Layer.set_symbolMovie (Some ref)
                            (Layer.set_symbolType DISPLAYOBJECT
                               (Layer.set_keyframeRef (Some ref) this))))
          | Some (SymTexture tex) =>
              Returns (Layer.set_symbols
                         (<[ref := SymTexture (FlumpTexture.reset tex)]>
                            (Layer._symbols this))
                         (Layer.set_symbolTexture (Some ref)
                            (Layer.set_symbolType TEXTURE
                               (Layer.set_keyframeRef (Some ref) this))))
          end
        else Returns this
    | None =>
        Returns (Layer.set_symbolType UNKNOWN (Layer.set_keyframeRef None this))
    end.
Proof.
  unfold Layer.resolveSymbol, Layer.resolveSymbol_state.
  destruct (KF.ref keyframe) as [ref|]; [|reflexivity].
  destruct (Layer.ref_differs (Layer._keyframeRef this) ref); [|reflexivity].
  destruct (Layer._symbols this !! ref) as [[m|tex]|]; try reflexivity.
  destruct (Js.inherited ref); reflexivity.
Qed.

(** Resolving the symbol touches neither the transform nor the static data. *)
Lemma resolveSymbol_keeps (keyframe : KF.t) (this this' : Layer.t) :
  Layer.resolveSymbol keyframe this = Returns this' ->
  Layer._storedMtx this' = Layer._storedMtx this
  /\ Layer.alpha this' = Layer.alpha this
  /\ Layer.visible this' = Layer.visible this
  /\ Layer.flumpLayerData this' = Layer.flumpLayerData this
  /\ Layer.name this' = Layer.name this.
Proof.
  rewrite resolveSymbol_cases. intros Hr.
  destruct (KF.ref keyframe) as [ref|].
  - destruct (Layer.ref_differs (Layer._keyframeRef this) ref).
    + destruct (Js.inherited ref);
        destruct (Layer._symbols this !! ref) as [[m|tex]|];
        inversion Hr; subst; simpl; auto.
    + inversion Hr; subst; auto.
  - inversion Hr; subst; simpl; auto.
Qed.

Lemma setFrame_transform (frame : float) (this this' : Layer.t) (keyframe : KF.t) :
  FlumpLayerData.getKeyframeForFrame (Layer.flumpLayerData this) (Js.bitor0 frame)
  = Some keyframe ->
  Layer.setFrame frame this = Returns this' ->
  let v := Layer.tween keyframe
             (FlumpLayerData.getKeyframeAfter (Layer.flumpLayerData this) keyframe)
             frame in
  Layer._storedMtx this' = Layer.compose v
  /\ Layer.alpha this' = Layer.alpha_ v
  /\ Layer.visible this' = KF.visible keyframe.
Proof.
  intros Hkf Hset. rewrite (setFrame_some _ _ _ Hkf) in Hset.
  apply resolveSymbol_keeps in Hset as (-> & -> & -> & _). auto.
Qed.

Lemma setFrame_flumpLayerData (frame : float) (this this' : Layer.t) :
  Layer.setFrame frame this = Returns this' ->
  Layer.flumpLayerData this' = Layer.flumpLayerData this.
Proof.
  intros Hset.
  destruct (FlumpLayerData.getKeyframeForFrame (Layer.flumpLayerData this)
              (Js.bitor0 frame)) as [keyframe|] eqn:Hkf.
  - rewrite (setFrame_some _ _ _ Hkf) in Hset.
    apply resolveSymbol_keeps in Hset as (_ & _ & _ & -> & _). reflexivity.
  - rewrite (setFrame_none _ _ Hkf) in Hset. inversion Hset. reflexivity.
Qed.

End Frame.

(** ** Tweening *)

Lemma tween_cases (keyframe : KF.t) (next : option KF.t) (frame : float) :
  Layer.tween keyframe next frame
  = match next with
    | Some n =>
        if Layer.tweens keyframe next frame
        then lerp keyframe n (Layer.eased (KF.ease keyframe) (progress keyframe frame))
        else raw keyframe
    | None => raw keyframe
    end.
Proof.
  unfold Layer.tween, Layer.tweens, lerp, raw, progress.
  destruct next as [n|]; simpl.
  - rewrite andb_true_r.
    destruct (Js.neq (KF.index keyframe) (Js.bitor0 frame) && KF.tweened keyframe);
      reflexivity.
  - destruct (Js.neq (KF.index keyframe) (Js.bitor0 frame) && KF.tweened keyframe);
      reflexivity.
Qed.

Lemma tweens_false_raw (keyframe : KF.t) (next : option KF.t) (frame : float) :
  Layer.tweens keyframe next frame = false ->
  Layer.tween keyframe next frame = raw keyframe.
Proof.
  intros Hno. rewrite tween_cases. destruct next; [rewrite Hno|]; reflexivity.
Qed.

Lemma tweens_true_lerp (keyframe n : KF.t) (frame : float) :
  Layer.tweens keyframe (Some n) frame = true ->
  Layer.tween keyframe (Some n) frame
  = lerp keyframe n (Layer.eased (KF.ease keyframe) (progress keyframe frame)).
Proof. intros Hyes. rewrite tween_cases, Hyes. reflexivity. Qed.

Lemma tweens_intro (keyframe n : KF.t) (frame : float) :
  Js.neq (KF.index keyframe) (Js.bitor0 frame) = true ->
  KF.tweened keyframe = true ->
  Layer.tweens keyframe (Some n) frame = true.
Proof. unfold Layer.tweens. intros -> ->. reflexivity. Qed.

Lemma eased_linear (ease t : float) : (ease =? 0) = true -> Layer.eased ease t = t.
Proof.
  intros Hz. unfold Layer.eased. rewrite (eqb_zero_not_neq _ Hz). reflexivity.
Qed.

(** C1 (amended): when the current keyframe [kf] is tweened with [ease = 0]
    and has a successor [next], [setFrame(frame)] for every [frame] whose
    integer part [frame | 0] differs from [kf.index] sets x, y, scaleX, scaleY,
    skewX, skewY and alpha to
    [kf_value + (next_value - kf_value) * ((frame - kf.index) / kf.duration)],
    the pivot staying [kf]'s, and the cached transform and opacity are built
    from these values; every whole-number [frame] of the 32-bit range above
    [kf.index] is such a frame.  On the layer
    [{index:0,x:0,tweened:true,duration:10,ease:0},{index:10,x:100}],
    [setFrame(5)] gives x = 50, [setFrame(0)] gives x = 0 and [setFrame(9)]
    gives x = 90. *)
Theorem C1_linear_tween :
  (forall (M : Js.Math) (L : FlumpLayerData.Lookup)
          (this this' : Layer.t) (frame : float) (kf next : KF.t),
      FlumpLayerData.getKeyframeForFrame (Layer.flumpLayerData this)
        (Js.bitor0 frame) = Some kf ->
      FlumpLayerData.getKeyframeAfter (Layer.flumpLayerData this) kf = Some next ->
      KF.tweened kf = true ->
      (KF.ease kf =? 0) = true ->
      Js.neq (KF.index kf) (Js.bitor0 frame) = true ->
      Layer.setFrame frame this = Returns this' ->
      let v := lerp kf next (progress kf frame) in
      Layer.tween kf (Some next) frame = v
      /\ Layer._storedMtx this' = Layer.compose v
      /\ Layer.alpha this' = Layer.alpha_ v)
  /\ (forall (kf : KF.t) (frame : float),
         Js.bitor0 frame = frame ->
         (KF.index kf <? frame) = true ->
         Js.neq (KF.index kf) (Js.bitor0 frame) = true)
  /\ (forall (M : Js.Math),
         let at_frame frame :=
           Scenario.play ∅ Scenario.slide frame
           >>= fun this => Returns (FlumpMtx.tx (Layer._storedMtx this)) in
         Layer.x (Layer.tween Scenario.slideFrom (Some Scenario.slideTo) 5) = 50
         /\ Layer.x (Layer.tween Scenario.slideFrom (Some Scenario.slideTo) 0) = 0
         /\ Layer.x (Layer.tween Scenario.slideFrom (Some Scenario.slideTo) 9) = 90
         /\ at_frame 5 = Returns 50
         /\ at_frame 0 = Returns 0
         /\ at_frame 9 = Returns 90).
Proof.
  split; [|split].
  - intros M L this this' frame kf next Hkf Hnext Htw Hease Hmid Hset v.
    assert (Htween : Layer.tween kf (Some next) frame = v).
    { rewrite (tweens_true_lerp _ _ _ (tweens_intro _ next _ Hmid Htw)).
      rewrite (eased_linear _ _ Hease). reflexivity. }
    destruct (setFrame_transform _ _ _ _ Hkf Hset) as (Hm & Ha & _).
    rewrite Hnext, Htween in Hm, Ha. auto.
  - intros kf frame -> Hlt. apply ltb_neq, Hlt.
  - intros M at_frame. repeat split; vm_compute; reflexivity.
Qed.

Lemma C1_linear_tween_witness :
  let this := Layer.fresh 1 true Scenario.slide ∅ in
  let v := lerp Scenario.slideFrom Scenario.slideTo (progress Scenario.slideFrom 9) in
  exists this',
    Layer.setFrame (H := Scenario.taylor) (H0 := FlumpLayerData.specLookup) 9 this
    = Returns this'
    /\ Layer.tween Scenario.slideFrom (Some Scenario.slideTo) 9 = v
    /\ Layer._storedMtx this' = @Layer.compose Scenario.taylor v
    /\ Layer.alpha this' = Layer.alpha_ v.
Proof.
  intros this v. eexists. split.
  - vm_compute. reflexivity.
  - refine (proj1 C1_linear_tween Scenario.taylor FlumpLayerData.specLookup
              this _ 9 Scenario.slideFrom Scenario.slideTo _ _ _ _ _ _).
    + reflexivity.
    + reflexivity.
    + reflexivity.
    + reflexivity.
    + reflexivity.
    + vm_compute. reflexivity.
Defined.

(** C1 as stated fails on a fractional frame inside the first whole frame of
    the span: at [frame = 0.5] the keyframe at index 0 is current, tweened,
    linear and followed by a successor, and 0 < 0.5 < 0 + 10; the formula gives
    x = 5 but [setFrame] leaves x = 0, because [0.5 | 0] equals the index. *)
Lemma C1_counterexample :
  FlumpLayerData.getKeyframeForFrame (Lookup := FlumpLayerData.specLookup)
    Scenario.slide (Js.bitor0 0.5) = Some Scenario.slideFrom
  /\ FlumpLayerData.getKeyframeAfter (Lookup := FlumpLayerData.specLookup)
       Scenario.slide Scenario.slideFrom = Some Scenario.slideTo
  /\ KF.tweened Scenario.slideFrom = true
  /\ KF.ease Scenario.slideFrom = 0
  /\ (KF.index Scenario.slideFrom <? 0.5) = true
  /\ (0.5 <? KF.index Scenario.slideFrom + KF.duration Scenario.slideFrom) = true
  /\ Layer.x (lerp Scenario.slideFrom Scenario.slideTo
                (progress Scenario.slideFrom 0.5)) = 5
  /\ Layer.x (Layer.tween Scenario.slideFrom (Some Scenario.slideTo) 0.5) = 0
  /\ (Scenario.play (H := Scenario.taylor) ∅ Scenario.slide 0.5
      >>= fun this => Returns (FlumpMtx.tx (Layer._storedMtx this))) = Returns 0
  /\ Layer.tween Scenario.slideFrom (Some Scenario.slideTo) 0.5
     <> lerp Scenario.slideFrom Scenario.slideTo (progress Scenario.slideFrom 0.5).
Proof.
  repeat split; try (vm_compute; reflexivity).
  intros Heq. apply (f_equal Layer.x) in Heq. vm_compute in Heq. discriminate.
Qed.

(** C2 (amended): on every frame that [setFrame] tweens, that is when
    [kf.tweened] is true, a next keyframe exists and the integer part
    [frame | 0] differs from [kf.index], with raw progress
    [t_raw = (frame - kf.index) / kf.duration], the progress [t] used by
    [setFrame] is [t_raw] when [kf.ease == 0]; is
    [easeMag*quad + (1-easeMag)*t_raw] with [inv = 1 - t_raw],
    [quad = 1 - inv*inv] and [easeMag = -kf.ease] when [kf.ease < 0]; is
    [kf.ease*quad + (1-kf.ease)*t_raw] with [quad = t_raw*t_raw] when
    [kf.ease > 0]; and every interpolated field, hence the cached transform and
    the opacity that [setFrame] stores, is computed with this [t].  On a
    keyframe without ref [setFrame] returns with these values; on the layer
    [{index:0,x:0,tweened:true,duration:10,ease:-0.5},{index:10,x:100}],
    [setFrame(5)] gives x = 62.5. *)
Theorem C2_easing (kf next : KF.t) (frame : float) :
  Layer.tweens kf (Some next) frame = true ->
  let t_raw := progress kf frame in
  let t := Layer.eased (KF.ease kf) t_raw in
  ((KF.ease kf =? 0) = true -> t = t_raw)
  /\ ((KF.ease kf <? 0) = true ->
      let inv := 1 - t_raw in
      let quad := 1 - inv * inv in
      let easeMag := - KF.ease kf in
      t = easeMag * quad + (1 - easeMag) * t_raw)
  /\ ((0 <? KF.ease kf) = true ->
      let quad := t_raw * t_raw in
      t = KF.ease kf * quad + (1 - KF.ease kf) * t_raw)
  /\ Layer.tween kf (Some next) frame = lerp kf next t
  /\ (forall (M : Js.Math) (L : FlumpLayerData.Lookup) (this this' : Layer.t),
         FlumpLayerData.getKeyframeForFrame (Layer.flumpLayerData this)
           (Js.bitor0 frame) = Some kf ->
         FlumpLayerData.getKeyframeAfter (Layer.flumpLayerData this) kf
         = Some next ->
         Layer.setFrame frame this = Returns this' ->
         Layer._storedMtx this' = Layer.compose (lerp kf next t)
         /\ Layer.alpha this' = Layer.alpha_ (lerp kf next t))
  /\ (forall (M : Js.Math) (L : FlumpLayerData.Lookup) (this : Layer.t),
         FlumpLayerData.getKeyframeForFrame (Layer.flumpLayerData this)
           (Js.bitor0 frame) = Some kf ->
         FlumpLayerData.getKeyframeAfter (Layer.flumpLayerData this) kf
         = Some next ->
         KF.ref kf = None ->
         exists this',
           Layer.setFrame frame this = Returns this'
           /\ Layer._storedMtx this' = Layer.compose (lerp kf next t)
           /\ Layer.alpha this' = Layer.alpha_ (lerp kf next t))
  /\ (forall (M : Js.Math),
         Scenario.play ∅ Scenario.easeOut 5
         >>= (fun this => Returns (FlumpMtx.tx (Layer._storedMtx this)))
         = Returns 62.5).
Proof.
  intros Htw t_raw t.
  assert (Hstored :
    forall (M : Js.Math) (L : FlumpLayerData.Lookup) (this this' : Layer.t),
      FlumpLayerData.getKeyframeForFrame (Layer.flumpLayerData this)
        (Js.bitor0 frame) = Some kf ->
      FlumpLayerData.getKeyframeAfter (Layer.flumpLayerData this) kf
      = Some next ->
      Layer.setFrame frame this = Returns this' ->
      Layer._storedMtx this' = Layer.compose (lerp kf next t)
      /\ Layer.alpha this' = Layer.alpha_ (lerp kf next t)).
  { intros M L this this' Hkf Hnext Hset.
    destruct (setFrame_transform _ _ _ _ Hkf Hset) as (Hm & Ha & _).
    rewrite Hnext, (tweens_true_lerp _ _ _ Htw) in Hm, Ha. auto. }
  split; [|split; [|split; [|split; [|split; [|split]]]]].
  - intros Hz. apply eased_linear, Hz.
  - intros Hneg. subst t. unfold Layer.eased.
    rewrite (ltb_zero_neq _ Hneg), Hneg, (zero_sub_negative _ Hneg). reflexivity.
  - intros Hpos. subst t. unfold Layer.eased.
    destruct (zero_ltb_neq _ Hpos) as [-> ->]. reflexivity.
  - apply tweens_true_lerp, Htw.
  - exact Hstored.
  - intros M L this Hkf Hnext Href.
    assert (Hret : exists this', Layer.setFrame frame this = Returns this').
    { rewrite (setFrame_some _ _ _ Hkf), resolveSymbol_cases, Href. eauto. }
    destruct Hret as [this' Hset]. exists this'.
    split; [exact Hset | exact (Hstored M L this this' Hkf Hnext Hset)].
  - intros M. vm_compute. reflexivity.
Qed.

Lemma C2_easing_witness :
  Layer.eased (KF.ease Scenario.easeOutFrom) (progress Scenario.easeOutFrom 5)
  = 0.625
  /\ Layer.x (Layer.tween Scenario.easeOutFrom (Some Scenario.slideTo) 5) = 62.5
  /\ exists this',
       Layer.setFrame (H := Scenario.taylor) (H0 := FlumpLayerData.specLookup)
         5 (Layer.fresh 1 true Scenario.easeOut ∅) = Returns this'
       /\ FlumpMtx.tx (Layer._storedMtx this') = 62.5
       /\ Layer.alpha this' = 1.
Proof.
  pose proof (C2_easing Scenario.easeOutFrom Scenario.slideTo 5 eq_refl)
    as (_ & Hout & _ & Htween & _ & Hruns & _).
  split; [rewrite (Hout eq_refl); reflexivity|].
  split; [rewrite Htween; reflexivity|].
  destruct (Hruns Scenario.taylor FlumpLayerData.specLookup
              (Layer.fresh 1 true Scenario.easeOut ∅) eq_refl eq_refl eq_refl)
    as (this' & Hset & Hm & Ha).
  exists this'. split; [exact Hset|].
  rewrite Hm, Ha. split; vm_compute; reflexivity.
Defined.

(** C2 as stated fails on a fractional frame inside the first whole frame of
    the span: at [frame = 0.5] the keyframe at index 0 is current, tweened,
    eased with [ease = -0.5] and followed by a successor, and the frame is
    mid-span (0 < 0.5 < 0 + 10, and 0.5 differs from the index); the ease-out
    blend gives t close to 0.07375 and x close to 7.375, above 7, but
    [setFrame] applies no easing and leaves x = 0, because [0.5 | 0] equals
    the index. *)
Lemma C2_counterexample :
  FlumpLayerData.getKeyframeForFrame (Lookup := FlumpLayerData.specLookup)
    Scenario.easeOut (Js.bitor0 0.5) = Some Scenario.easeOutFrom
  /\ FlumpLayerData.getKeyframeAfter (Lookup := FlumpLayerData.specLookup)
       Scenario.easeOut Scenario.easeOutFrom = Some Scenario.slideTo
  /\ KF.tweened Scenario.easeOutFrom = true
  /\ (KF.ease Scenario.easeOutFrom <? 0) = true
  /\ Js.neq 0.5 (KF.index Scenario.easeOutFrom) = true
  /\ (KF.index Scenario.easeOutFrom <? 0.5) = true
  /\ (0.5 <? KF.index Scenario.easeOutFrom + KF.duration Scenario.easeOutFrom)
     = true
  /\ (let t_raw := progress Scenario.easeOutFrom 0.5 in
      let inv := 1 - t_raw in
      let quad := 1 - inv * inv in
      let easeMag := - KF.ease Scenario.easeOutFrom in
      let t := easeMag * quad + (1 - easeMag) * t_raw in
      (7 <? Layer.x (lerp Scenario.easeOutFrom Scenario.slideTo t)) = true)
  /\ Layer.x (Layer.tween Scenario.easeOutFrom (Some Scenario.slideTo) 0.5) = 0
  /\ (Scenario.play (H := Scenario.taylor) ∅ Scenario.easeOut 0.5
      >>= fun this => Returns (FlumpMtx.tx (Layer._storedMtx this))) = Returns 0.
Proof. repeat split; vm_compute; reflexivity. Qed.

(** ** The cached transform *)

Lemma eqb_zero_cases (s : float) : (s =? 0) = true -> s = 0 \/ s = (-0).
Proof.
  rewrite FloatAxioms.eqb_spec, Prim2SF_zero. unfold SFeqb, SFcompare.
  destruct (Prim2SF s) as [sg | sg | | sg m k] eqn:Hs; try discriminate.
  - intros _. rewrite <- (SF2Prim_Prim2SF s), Hs.
    destruct sg; [right | left]; reflexivity.
  - destruct sg; discriminate.
  - destruct sg; discriminate.
Qed.

Lemma sinOf_unfold `{Js.Math} (skew : float) :
  Layer.sinOf skew = if skew =? 0 then 0 else Js.sin skew.
Proof. unfold Layer.sinOf, Js.neq. destruct (skew =? 0); reflexivity. Qed.

Lemma cosOf_unfold `{Js.Math} (skew : float) :
  Layer.cosOf skew = if skew =? 0 then 1 else Js.cos skew.
Proof. unfold Layer.cosOf, Js.neq. destruct (skew =? 0); reflexivity. Qed.

(** C3: for a frame resolved to the values [v] (x, y, scaleX, scaleY, skewX,
    skewY, alpha possibly interpolated, pivot from the keyframe), the cached
    transform becomes a = scaleX*cosY, b = scaleX*sinY, c = -scaleY*sinX,
    d = scaleY*cosX, tx = x - (pivotX*a + pivotY*c),
    ty = y - (pivotX*b + pivotY*d), where sine and cosine of a skew that
    compares equal to 0 are taken as 0 and 1; the opacity becomes the
    interpolated alpha and the visibility is the keyframe's own.  On a host
    with sin(0) = 0 and cos(0) = cos(-0) = 1 the shortcut returns what
    [Math.cos] and [Math.sin] return, up to the sign of a zero sine. *)
Theorem C3_matrix (M : Js.Math) (L : FlumpLayerData.Lookup)
  (this this' : Layer.t) (frame : float) (kf : KF.t) :
  FlumpLayerData.getKeyframeForFrame (Layer.flumpLayerData this) (Js.bitor0 frame)
  = Some kf ->
  Layer.setFrame frame this = Returns this' ->
  let v := Layer.tween kf
             (FlumpLayerData.getKeyframeAfter (Layer.flumpLayerData this) kf)
             frame in
  let sinX := if Layer.skewX v =? 0 then 0 else Js.sin (Layer.skewX v) in
  let cosX := if Layer.skewX v =? 0 then 1 else Js.cos (Layer.skewX v) in
  let sinY := if Layer.skewY v =? 0 then 0 else Js.sin (Layer.skewY v) in
  let cosY := if Layer.skewY v =? 0 then 1 else Js.cos (Layer.skewY v) in
  let a := Layer.scaleX v * cosY in
  let b := Layer.scaleX v * sinY in
  let c := (- Layer.scaleY v) * sinX in
  let d := Layer.scaleY v * cosX in
  Layer._storedMtx this'
  = FlumpMtx.mk a b c d
      (Layer.x v - (Layer.pivotX v * a + Layer.pivotY v * c))
      (Layer.y v - (Layer.pivotX v * b + Layer.pivotY v * d))
  /\ Layer.pivotX v = KF.pivotX kf
  /\ Layer.pivotY v = KF.pivotY kf
  /\ Layer.alpha this' = Layer.alpha_ v
  /\ Layer.visible this' = KF.visible kf
  /\ (Js.sin 0 = 0 -> Js.cos 0 = 1 -> Js.cos (-0) = 1 ->
      forall skew,
        Layer.cosOf skew = Js.cos skew
        /\ (Layer.sinOf skew = Js.sin skew \/ (skew = (-0) /\ Layer.sinOf skew = 0))).
Proof.
  intros Hkf Hset v sinX cosX sinY cosY a b c d.
  destruct (setFrame_transform _ _ _ _ Hkf Hset) as (Hm & Ha & Hv).
  split; [|split; [|split; [|split; [|split]]]]; auto.
  - rewrite Hm. unfold Layer.compose.
    rewrite !sinOf_unfold, !cosOf_unfold. reflexivity.
  - subst v. rewrite tween_cases.
    destruct (FlumpLayerData.getKeyframeAfter _ kf) as [n|];
      [destruct (Layer.tweens kf (Some n) frame)|]; reflexivity.
  - subst v. rewrite tween_cases.
    destruct (FlumpLayerData.getKeyframeAfter _ kf) as [n|];
      [destruct (Layer.tweens kf (Some n) frame)|]; reflexivity.
  - intros Hsin0 Hcos0 Hcosn skew.
    rewrite sinOf_unfold, cosOf_unfold.
    destruct (skew =? 0) eqn:Hz; [|auto].
    destruct (eqb_zero_cases _ Hz) as [-> | ->]; auto.
Qed.

Lemma C3_matrix_witness :
  exists this',
    Scenario.play (H := Scenario.taylor) ∅ Scenario.tilt 2 = Returns this'
    /\ Layer._storedMtx this'
       = (let cosX := 1 - 0.25 * 0.25 / 2 + 0.25 * 0.25 * 0.25 * 0.25 / 24 in
          let sinX := 0.25 - 0.25 * 0.25 * 0.25 / 6
                      + 0.25 * 0.25 * 0.25 * 0.25 * 0.25 / 120 in
          let cosY := 1 - 0.5 * 0.5 / 2 + 0.5 * 0.5 * 0.5 * 0.5 / 24 in
          let sinY := 0.5 - 0.5 * 0.5 * 0.5 / 6
                      + 0.5 * 0.5 * 0.5 * 0.5 * 0.5 / 120 in
          FlumpMtx.mk (2 * cosY) (2 * sinY) ((-4) * sinX) (4 * cosX)
            (8 - (1 * (2 * cosY) + 2 * ((-4) * sinX)))
            (16 - (1 * (2 * sinY) + 2 * (4 * cosX))))
    /\ Layer.alpha this' = 0.5
    /\ Layer.visible this' = true.
Proof.
  eexists. split; [vm_compute; reflexivity|].
  pose proof (C3_matrix Scenario.taylor FlumpLayerData.specLookup
                (Layer.fresh 1 true Scenario.tilt ∅) _ 2 Scenario.skewed
                eq_refl ltac:(vm_compute; reflexivity))
    as (Hm & _ & _ & Ha & Hv & _).
  split; [|split].
  - etransitivity; [exact Hm | vm_compute; reflexivity].
  - etransitivity; [exact Ha | reflexivity].
  - etransitivity; [exact Hv | reflexivity].
Defined.

(** ** When tweening applies *)

(** C4 (amended): [setFrame(kf.index)] produces exactly [kf]'s raw values even
    if [kf.tweened] is true and whatever the next keyframe holds ([kf.index]
    being a whole number of the 32-bit range, as the data model has it); a
    keyframe with [tweened = false] gives its raw values on every frame; and
    tweening occurs exactly when [(frame | 0) != kf.index], [kf.tweened] is
    true and a next keyframe exists, the raw values being used otherwise. *)
Theorem C4_tween_gate (kf : KF.t) (next : option KF.t) (frame : float) :
  let gate :=
    Js.neq (KF.index kf) (Js.bitor0 frame) && KF.tweened kf
    && bool_decide (is_Some next) in
  (Js.neq (KF.index kf) (Js.bitor0 (KF.index kf)) = false ->
   Layer.tween kf next (KF.index kf) = raw kf)
  /\ (KF.tweened kf = false -> Layer.tween kf next frame = raw kf)
  /\ Layer.tween kf next frame
     = match next with
       | Some n =>
           if gate
           then lerp kf n (Layer.eased (KF.ease kf) (progress kf frame))
           else raw kf
       | None => raw kf
       end
  /\ (forall (M : Js.Math) (L : FlumpLayerData.Lookup) (this this' : Layer.t),
         FlumpLayerData.getKeyframeForFrame (Layer.flumpLayerData this)
           (Js.bitor0 frame) = Some kf ->
         FlumpLayerData.getKeyframeAfter (Layer.flumpLayerData this) kf = next ->
         Layer.setFrame frame this = Returns this' ->
         gate = false ->
         Layer._storedMtx this' = Layer.compose (raw kf)
         /\ Layer.alpha this' = KF.alpha kf).
Proof.
  intros gate. split; [|split; [|split]].
  - intros Hown. apply tweens_false_raw. unfold Layer.tweens.
    rewrite Hown. reflexivity.
  - intros Hoff. apply tweens_false_raw. unfold Layer.tweens.
    rewrite Hoff, andb_false_r. reflexivity.
  - apply tween_cases.
  - intros M L this this' Hkf Hnext Hset Hgate.
    destruct (setFrame_transform _ _ _ _ Hkf Hset) as (Hm & Ha & _).
    rewrite Hnext, (tweens_false_raw _ _ _ Hgate) in Hm, Ha. auto.
Qed.

Lemma C4_tween_gate_witness :
  Layer.tween Scenario.slideFrom (Some Scenario.slideTo) 0 = raw Scenario.slideFrom
  /\ Layer.tween Scenario.slideTo None 12 = raw Scenario.slideTo.
Proof.
  split.
  - exact (proj1 (C4_tween_gate Scenario.slideFrom (Some Scenario.slideTo) 0)
             eq_refl).
  - exact (proj1 (proj2 (C4_tween_gate Scenario.slideTo None 12)) eq_refl).
Defined.

(** C4 as stated fails at [frame = 0.5]: the frame differs from the index 0 of
    the current keyframe, the keyframe is tweened and has a successor, so
    tweening should occur; [setFrame] keeps the raw values (x = 0, where
    tweening gives x = 5), since the test compares the index with [0.5 | 0]. *)
Lemma C4_counterexample :
  Js.neq 0.5 (KF.index Scenario.slideFrom) = true
  /\ KF.tweened Scenario.slideFrom = true
  /\ FlumpLayerData.getKeyframeForFrame (Lookup := FlumpLayerData.specLookup)
       Scenario.slide (Js.bitor0 0.5) = Some Scenario.slideFrom
  /\ FlumpLayerData.getKeyframeAfter (Lookup := FlumpLayerData.specLookup)
       Scenario.slide Scenario.slideFrom = Some Scenario.slideTo
  /\ Layer.tween Scenario.slideFrom (Some Scenario.slideTo) 0.5
     = raw Scenario.slideFrom
  /\ Layer.x (raw Scenario.slideFrom) = 0
  /\ Layer.x (lerp Scenario.slideFrom Scenario.slideTo
                (Layer.eased (KF.ease Scenario.slideFrom)
                   (progress Scenario.slideFrom 0.5))) = 5.
Proof. repeat split; vm_compute; reflexivity. Qed.

(** ** The pivot *)

Lemma tween_pivot (kf : KF.t) (next : option KF.t) (frame : float) :
  Layer.pivotX (Layer.tween kf next frame) = KF.pivotX kf
  /\ Layer.pivotY (Layer.tween kf next frame) = KF.pivotY kf.
Proof.
  rewrite tween_cases.
  destruct next as [n|]; [destruct (Layer.tweens kf (Some n) frame)|];
    split; reflexivity.
Qed.

Lemma tween_pivot_apart (kf kf' : KF.t) (next next' : option KF.t) (frame : float) :
  pivot_apart kf kf' ->
  option_Forall2 pivot_apart next next' ->
  let v := Layer.tween kf next frame in
  let v' := Layer.tween kf' next' frame in
  Layer.x v' = Layer.x v /\ Layer.y v' = Layer.y v
  /\ Layer.scaleX v' = Layer.scaleX v /\ Layer.scaleY v' = Layer.scaleY v
  /\ Layer.skewX v' = Layer.skewX v /\ Layer.skewY v' = Layer.skewY v
  /\ Layer.alpha_ v' = Layer.alpha_ v.
Proof.
  intros Hkf Hnext. rewrite Hkf.
  destruct Hnext as [n n' Hn|]; [rewrite Hn|]; unfold Layer.tween; simpl.
  - destruct (Js.neq (KF.index kf) (Js.bitor0 frame) && KF.tweened kf);
      simpl; repeat split; reflexivity.
  - destruct (Js.neq (KF.index kf) (Js.bitor0 frame) && KF.tweened kf);
      simpl; repeat split; reflexivity.
Qed.

Lemma compose_linear_part `{Js.Math} (v v' : Layer.locals) :
  Layer.scaleX v' = Layer.scaleX v -> Layer.scaleY v' = Layer.scaleY v ->
  Layer.skewX v' = Layer.skewX v -> Layer.skewY v' = Layer.skewY v ->
  FlumpMtx.a (Layer.compose v') = FlumpMtx.a (Layer.compose v)
  /\ FlumpMtx.b (Layer.compose v') = FlumpMtx.b (Layer.compose v)
  /\ FlumpMtx.c (Layer.compose v') = FlumpMtx.c (Layer.compose v)
  /\ FlumpMtx.d (Layer.compose v') = FlumpMtx.d (Layer.compose v).
Proof.
  unfold Layer.compose. simpl. intros -> -> -> ->. repeat split; reflexivity.
Qed.

(** C7: two keyframe configurations that differ only in pivotX and pivotY
    (successors included) make [setFrame] produce the same a, b, c and d, so
    that only tx and ty can change; and the pivot used is never interpolated,
    it is the current keyframe's. *)
Theorem C7_pivot (M : Js.Math) (kf kf' : KF.t) (next next' : option KF.t)
  (frame : float) :
  pivot_apart kf kf' ->
  option_Forall2 pivot_apart next next' ->
  let m := Layer.compose (Layer.tween kf next frame) in
  let m' := Layer.compose (Layer.tween kf' next' frame) in
  (FlumpMtx.a m' = FlumpMtx.a m /\ FlumpMtx.b m' = FlumpMtx.b m
   /\ FlumpMtx.c m' = FlumpMtx.c m /\ FlumpMtx.d m' = FlumpMtx.d m)
  /\ (Layer.pivotX (Layer.tween kf next frame) = KF.pivotX kf
      /\ Layer.pivotY (Layer.tween kf next frame) = KF.pivotY kf)
  /\ (forall (L L' : FlumpLayerData.Lookup) (this this' that that' : Layer.t),
         @FlumpLayerData.getKeyframeForFrame L (Layer.flumpLayerData this)
           (Js.bitor0 frame) = Some kf ->
         @FlumpLayerData.getKeyframeAfter L (Layer.flumpLayerData this) kf = next ->
         @FlumpLayerData.getKeyframeForFrame L' (Layer.flumpLayerData that)
           (Js.bitor0 frame) = Some kf' ->
         @FlumpLayerData.getKeyframeAfter L' (Layer.flumpLayerData that) kf' = next' ->
         @Layer.setFrame M L frame this = Returns this' ->
         @Layer.setFrame M L' frame that = Returns that' ->
         FlumpMtx.a (Layer._storedMtx that') = FlumpMtx.a (Layer._storedMtx this')
         /\ FlumpMtx.b (Layer._storedMtx that') = FlumpMtx.b (Layer._storedMtx this')
         /\ FlumpMtx.c (Layer._storedMtx that') = FlumpMtx.c (Layer._storedMtx this')
         /\ FlumpMtx.d (Layer._storedMtx that') = FlumpMtx.d (Layer._storedMtx this')).
Proof.
  intros Hkf Hnext m m'.
  assert (Hlin : FlumpMtx.a m' = FlumpMtx.a m /\ FlumpMtx.b m' = FlumpMtx.b m
                 /\ FlumpMtx.c m' = FlumpMtx.c m /\ FlumpMtx.d m' = FlumpMtx.d m).
  { destruct (tween_pivot_apart kf kf' next next' frame Hkf Hnext)
      as (_ & _ & Hsx & Hsy & Hkx & Hky & _).
    apply compose_linear_part; assumption. }
  split; [exact Hlin|]. split; [apply tween_pivot|].
  intros L L' this this' that that' Hthis Hafter Hthat Hafter' Hset Hset'.
  destruct (@setFrame_transform M L _ _ _ _ Hthis Hset) as (-> & _).
  destruct (@setFrame_transform M L' _ _ _ _ Hthat Hset') as (-> & _).
  rewrite Hafter, Hafter'. exact Hlin.
Qed.

Lemma C7_pivot_witness :
  let m := @Layer.compose Scenario.taylor (Layer.tween Scenario.skewed None 2) in
  let m' := @Layer.compose Scenario.taylor
              (Layer.tween (with_pivot 0 0 Scenario.skewed) None 2) in
  (FlumpMtx.a m' = FlumpMtx.a m /\ FlumpMtx.b m' = FlumpMtx.b m
   /\ FlumpMtx.c m' = FlumpMtx.c m /\ FlumpMtx.d m' = FlumpMtx.d m)
  /\ FlumpMtx.tx m' = 8 /\ FlumpMtx.ty m' = 16
  /\ (FlumpMtx.tx m =? 8) = false /\ (FlumpMtx.ty m =? 16) = false.
Proof.
  intros m m'. split.
  - exact (proj1 (C7_pivot Scenario.taylor Scenario.skewed
                    (with_pivot 0 0 Scenario.skewed) None None 2
                    eq_refl (None_Forall2 _))).
  - repeat split; vm_compute; reflexivity.
Defined.

(** ** A layer without a current keyframe *)

(** C10: when the keyframe lookup returns nothing, [setFrame] returns with
    the active-symbol kind set to none and every other field as it was: the
    cached transform, alpha, visibility, the cached children and the stored
    child references are neither reset nor cleared. *)
Theorem C10_no_keyframe (M : Js.Math) (L : FlumpLayerData.Lookup)
  (this : Layer.t) (frame : float) :
  FlumpLayerData.getKeyframeForFrame (Layer.flumpLayerData this) (Js.bitor0 frame)
  = None ->
  exists this',
    Layer.setFrame frame this = Returns this'
    /\ Layer._symbolType this' = UNKNOWN
    /\ Layer._storedMtx this' = Layer._storedMtx this
    /\ Layer.alpha this' = Layer.alpha this
    /\ Layer.visible this' = Layer.visible this
    /\ Layer._symbols this' = Layer._symbols this
    /\ Layer._symbolMovie this' = Layer._symbolMovie this
    /\ Layer._symbolTexture this' = Layer._symbolTexture this
    /\ Layer._keyframeRef this' = Layer._keyframeRef this
    /\ Layer.flumpLayerData this' = Layer.flumpLayerData this
    /\ Layer.name this' = Layer.name this.
Proof.
  intros Hnone. exists (Layer.set_symbolType UNKNOWN this).
  split; [apply setFrame_none, Hnone|]. repeat split.
Qed.

Lemma C10_no_keyframe_witness :
  exists this',
    Layer.setFrame (H := Scenario.taylor) (H0 := FlumpLayerData.specLookup)
      3 Scenario.stale = Returns this'
    /\ Layer._symbolType this' = UNKNOWN
    /\ Layer._storedMtx this' = FlumpMtx.mk 2 0 0 2 30 40
    /\ Layer.alpha this' = 0.5
    /\ Layer.visible this' = false
    /\ Layer._symbols this' = {[ "ball" := SymMovie (FlumpMovie.mk "ball" 7) ]}
    /\ Layer._symbolMovie this' = Some "ball"
    /\ Layer._symbolTexture this' = None
    /\ Layer._keyframeRef this' = Some "ball"
    /\ Layer.flumpLayerData this' = Scenario.empty
    /\ Layer.name this' = "empty".
Proof.
  exact (C10_no_keyframe Scenario.taylor FlumpLayerData.specLookup
           Scenario.stale 3 eq_refl).
Defined.

(** ** Idempotence *)

Lemma staged_fixed (m : FlumpMtx.t) (a : float) (vis : bool) (l : Layer.t) :
  Layer._storedMtx l = m -> Layer.alpha l = a -> Layer.visible l = vis ->
  Layer.set_visible vis (Layer.set_alpha a (Layer.set_storedMtx m l)) = l.
Proof. destruct l. simpl. intros -> -> ->. reflexivity. Qed.

Section Idempotence.
Context `{Js.Math} `{FlumpLayerData.Lookup}.

Lemma resolveSymbol_again (kf : KF.t) (this this1 : Layer.t) :
  Layer.resolveSymbol kf this = Returns this1 ->
  Layer.resolveSymbol kf this1 = Returns this1.
Proof.
  rewrite !resolveSymbol_cases. destruct (KF.ref kf) as [ref|].
  - destruct (Layer.ref_differs (Layer._keyframeRef this) ref) eqn:Hd.
    + destruct (Js.inherited ref);
        destruct (Layer._symbols this !! ref) as [[m|tex]|]; intros Hr;
        inversion Hr; subst; simpl; rewrite String.eqb_refl; reflexivity.
    + intros Hr. inversion Hr; subst. rewrite Hd. reflexivity.
  - intros Hr. inversion Hr; subst. destruct this. reflexivity.
Qed.

Lemma setFrame_again (frame : float) (this this1 : Layer.t) :
  Layer.setFrame frame this = Returns this1 ->
  Layer.setFrame frame this1 = Returns this1.
Proof.
  intros Hset. pose proof (setFrame_flumpLayerData _ _ _ Hset) as Hld.
  destruct (FlumpLayerData.getKeyframeForFrame (Layer.flumpLayerData this)
              (Js.bitor0 frame)) as [kf|] eqn:Hkf.
  - rewrite (setFrame_some _ _ _ Hkf) in Hset.
    rewrite <- Hld in Hkf. rewrite (setFrame_some _ _ _ Hkf).
    destruct (resolveSymbol_keeps _ _ _ Hset) as (Hm & Ha & Hv & _).
    unfold staged at 1. rewrite Hld.
    rewrite staged_fixed by (rewrite ?Hm, ?Ha, ?Hv; reflexivity).
    exact (resolveSymbol_again _ _ _ Hset).
  - rewrite (setFrame_none _ _ Hkf) in Hset. inversion Hset; subst.
    rewrite setFrame_none by exact Hkf. destruct this. reflexivity.
Qed.

End Idempotence.

(** C6: [setFrame] is idempotent.  For every frame and every layer state,
    calling [setFrame(frame)] twice in a row ends as calling it once does; in
    particular the cached transform, alpha, visibility, active child and
    active-child kind after the second call are those after the first. *)
Theorem C6_idempotent (M : Js.Math) (L : FlumpLayerData.Lookup)
  (this : Layer.t) (frame : float) :
  (Layer.setFrame frame this >>= Layer.setFrame frame) = Layer.setFrame frame this
  /\ (forall this1 this2,
         Layer.setFrame frame this = Returns this1 ->
         Layer.setFrame frame this1 = Returns this2 ->
         Layer.observed this2 = Layer.observed this1
         /\ Layer._keyframeRef this2 = Layer._keyframeRef this1
         /\ Layer._symbolMovie this2 = Layer._symbolMovie this1
         /\ Layer._symbolTexture this2 = Layer._symbolTexture this1).
Proof.
  split.
  - destruct (Layer.setFrame frame this) as [this1|e] eqn:Hset; [|reflexivity].
    simpl. apply setFrame_again with (this := this). exact Hset.
  - intros this1 this2 Hone Htwo.
    rewrite (setFrame_again _ _ _ Hone) in Htwo. inversion Htwo; subst. auto.
Qed.

Lemma C6_idempotent_witness :
  let this := Layer.fresh 1 true Scenario.bounce
                {[ "ball" := SymMovie (FlumpMovie.mk "ball" 9) ]} in
  let setFrame := Layer.setFrame (H := Scenario.taylor)
                    (H0 := FlumpLayerData.specLookup) in
  (setFrame 2 this >>= setFrame 2) = setFrame 2 this.
Proof.
  exact (proj1 (C6_idempotent Scenario.taylor FlumpLayerData.specLookup
                  (Layer.fresh 1 true Scenario.bounce
                     {[ "ball" := SymMovie (FlumpMovie.mk "ball" 9) ]}) 2)).
Defined.

(** ** Drawing *)

(** C8 (amended): [draw] leaves the drawing context alone when the layer has
    no active child and otherwise delegates to the active child's draw; its
    return value is [true] in both cases. *)
Theorem C8_draw (this : Layer.t) (ctx : list Symbol) :
  (Layer._symbolType this = UNKNOWN -> Layer.draw this ctx = Returns (ctx, true))
  /\ (forall child,
         Layer.activeChild this = Some child ->
         Layer.draw this ctx = Returns (ctx ++ [child], true))
  /\ (forall ctx' drew, Layer.draw this ctx = Returns (ctx', drew) -> drew = true).
Proof.
  unfold Layer.draw, Layer.activeChild. split; [|split].
  - intros ->. reflexivity.
  - intros child. destruct (Layer._symbolType this); try discriminate;
      intros ->; reflexivity.
  - intros ctx' drew. destruct (Layer._symbolType this);
      repeat case_match; intros Hd; inversion Hd; reflexivity.
Qed.

Lemma C8_draw_witness :
  Layer.draw (Layer.fresh 1 true Scenario.bounce ∅) [] = Returns ([], true)
  /\ Layer.draw Scenario.stale []
     = Returns ([SymMovie (FlumpMovie.mk "ball" 7)], true).
Proof.
  split.
  - exact (proj1 (C8_draw (Layer.fresh 1 true Scenario.bounce ∅) []) eq_refl).
  - exact (proj1 (proj2 (C8_draw Scenario.stale [])) _ eq_refl).
Defined.

(** C8 as stated fails on a layer without active child: nothing is drawn (the
    context is unchanged) and [draw] still returns [true], not [false]. *)
Lemma C8_counterexample :
  Layer.activeChild (Layer.fresh 1 true Scenario.bounce ∅) = None
  /\ Layer.draw (Layer.fresh 1 true Scenario.bounce ∅) [] = Returns ([], true).
Proof. split; reflexivity. Qed.

(** ** Construction *)

Lemma has_own {V : Type} (name : string) (own : gmap string V) :
  is_Some (own !! name) -> Js.has name own = true.
Proof.
  intros Hown. unfold Js.has. rewrite bool_decide_eq_true_2 by exact Hown.
  reflexivity.
Qed.

Lemma has_cases {V : Type} (name : string) (own : gmap string V) :
  Js.has name own = true <-> is_Some (own !! name) \/ Js.inherited name = true.
Proof.
  unfold Js.has. rewrite orb_true_iff, bool_decide_eq_true. reflexivity.
Qed.

Lemma has_not {V : Type} (name : string) (own : gmap string V) :
  Js.has name own = false <-> own !! name = None /\ Js.inherited name = false.
Proof.
  unfold Js.has. rewrite orb_false_iff, bool_decide_eq_false.
  rewrite <- eq_None_not_Some. reflexivity.
Qed.

Lemma registerKeyframe_spec (lib : FlumpLibrary.t)
  (acc acc' : gmap string FlumpLabelData.t * gmap string Symbol * list string)
  (kf : KF.t) :
  Layer.registerKeyframe lib acc kf = Returns acc' ->
  log_ok acc ->
  log_ok acc'
  /\ (forall r, r ∈ acc'.2
                <-> r ∈ acc.2 \/ (KF.ref kf = Some r /\ Js.inherited r = false)).
Proof.
  destruct acc as [[labels symbols] created].
  unfold Layer.registerKeyframe, log_ok. simpl.
  intros Hreg (Hnodup & Hlog & Hplain).
  destruct (KF.ref kf) as [ref|].
  - destruct (Js.has ref symbols) eqn:Hhas.
    + inversion Hreg; subst; simpl. split; [auto|].
      intros r. split; [auto|]. intros [Hr | [Hr Hinh]]; [exact Hr|].
      inversion Hr; subst. apply Hlog.
      apply has_cases in Hhas as [Hown|Hin]; [exact Hown | congruence].
    + apply has_not in Hhas as [Hcached Hinh].
      destruct (FlumpLibrary.createSymbol lib ref) as [symbol|e];
        [|discriminate].
      simpl in Hreg. inversion Hreg; subst; simpl.
      assert (Hfresh : ref ∉ created).
      { intros Hin. apply Hlog in Hin. rewrite Hcached in Hin.
        destruct Hin; discriminate. }
      split; [split; [|split]|].
      * apply NoDup_app. split; [exact Hnodup|]. split; [|apply NoDup_singleton].
        intros r Hr Hr'. apply list_elem_of_singleton in Hr'. subst. auto.
      * intros r. rewrite elem_of_app, list_elem_of_singleton,
          lookup_insert_is_Some, Hlog.
        destruct (decide (ref = r)); subst; split; intros Hr; auto.
        -- destruct Hr as [Hr|Hr]; [auto|congruence].
        -- destruct Hr as [Hr|[_ Hr]]; [congruence|auto].
      * intros r. rewrite elem_of_app, list_elem_of_singleton.
        intros [Hr| ->]; [apply Hplain, Hr | exact Hinh].
      * intros r. rewrite elem_of_app, list_elem_of_singleton.
        split.
        -- intros [Hr| ->]; [auto|]. right. split; [reflexivity | exact Hinh].
        -- intros [Hr|[Hr _]]; [auto|]. right. congruence.
  - inversion Hreg; subst; simpl. split; [auto|].
    intros r. split; [auto|]. intros [Hr|[Hr _]]; [exact Hr|discriminate].
Qed.

Lemma registerKeyframes_spec (lib : FlumpLibrary.t) (kfs : list KF.t) :
  forall acc acc',
    Layer.registerKeyframes lib kfs acc = Returns acc' ->
    log_ok acc ->
    log_ok acc'
    /\ (forall r, r ∈ acc'.2
                  <-> r ∈ acc.2
                      \/ exists kf, kf ∈ kfs /\ KF.ref kf = Some r
                                    /\ Js.inherited r = false).
Proof.
  induction kfs as [|kf rest IH]; intros acc acc' Hreg Hok; simpl in Hreg.
  - inversion Hreg; subst. split; [exact Hok|].
    intros r. split; [auto|]. intros [Hr|(kf & Hin & _)]; [exact Hr|].
    inversion Hin.
  - destruct (Layer.registerKeyframe lib acc kf) as [mid|e] eqn:Hstep;
      [|discriminate].
    simpl in Hreg.
    destruct (registerKeyframe_spec _ _ _ _ Hstep Hok) as [Hmid Hone].
    destruct (IH _ _ Hreg Hmid) as [Hok' Hrest].
    split; [exact Hok'|].
    intros r. rewrite Hrest, Hone. split.
    + intros [[Hr|[Hr Hinh]]|(k & Hin & Hr)]; [auto| |].
      * right. exists kf. split; [apply list_elem_of_here | auto].
      * right. exists k. split; [apply list_elem_of_further, Hin | exact Hr].
    + intros [Hr|(k & Hin & Hr)]; [auto|].
      apply elem_of_cons in Hin as [->|Hin]; eauto.
Qed.

Lemma log_ok_start (labels : gmap string FlumpLabelData.t) :
  log_ok (labels, (∅ : gmap string Symbol), ([] : list string)).
Proof.
  split; [|split]; simpl.
  - apply NoDup_nil_2.
  - intros r. rewrite lookup_empty. split; [intros Hr; inversion Hr|].
    intros [x Hx]; discriminate.
  - intros r Hr. inversion Hr.
Qed.

Section Construction.
Context `{Js.Math} `{FlumpLayerData.Lookup}.

Lemma constructor_inv (alpha0 : float) (visible0 : bool) (lib : FlumpLibrary.t)
  (labels labels' : gmap string FlumpLabelData.t) (ld : FlumpLayerData.t)
  (created : list string) (this : Layer.t) :
  Layer.constructor alpha0 visible0 lib labels ld = Returns (labels', created, this) ->
  exists symbols,
    Layer.registerKeyframes lib (FlumpLayerData.flumpKeyframeDatas ld) (labels, ∅, [])
    = Returns (labels', symbols, created)
    /\ Layer.setFrame 0 (Layer.fresh alpha0 visible0 ld symbols) = Returns this.
Proof.
  unfold Layer.constructor. intros Hc.
  destruct (Layer.registerKeyframes lib _ _) as [[[l s] c]|e]; [|discriminate].
  simpl in Hc.
  destruct (Layer.setFrame 0 (Layer.fresh alpha0 visible0 ld s)) as [t|e] eqn:Hset;
    [|discriminate].
  simpl in Hc. inversion Hc; subst. exists s. split; [reflexivity | exact Hset].
Qed.

Lemma resolveSymbol_symbols (kf : KF.t) (this this' : Layer.t) :
  Layer.resolveSymbol kf this = Returns this' ->
  forall r, is_Some (Layer._symbols this' !! r) <-> is_Some (Layer._symbols this !! r).
Proof.
  rewrite resolveSymbol_cases. intros Hr r.
  destruct (KF.ref kf) as [ref|]; [|inversion Hr; subst; reflexivity].
  destruct (Layer.ref_differs (Layer._keyframeRef this) ref);
    [|inversion Hr; subst; reflexivity].
  destruct (Layer._symbols this !! ref) as [[m|tex]|] eqn:Hs.
  - inversion Hr; subst; simpl; rewrite lookup_insert_is_Some.
    split; [intros [<-|[_ Hx]]; [rewrite Hs; eauto | exact Hx]
           | intros Hx; destruct (decide (ref = r)); auto].
  - inversion Hr; subst; simpl; rewrite lookup_insert_is_Some.
    split; [intros [<-|[_ Hx]]; [rewrite Hs; eauto | exact Hx]
           | intros Hx; destruct (decide (ref = r)); auto].
  - destruct (Js.inherited ref); inversion Hr; subst. reflexivity.
Qed.

Lemma setFrame_symbols (frame : float) (this this' : Layer.t) :
  Layer.setFrame frame this = Returns this' ->
  forall r, is_Some (Layer._symbols this' !! r) <-> is_Some (Layer._symbols this !! r).
Proof.
  intros Hset.
  destruct (FlumpLayerData.getKeyframeForFrame (Layer.flumpLayerData this)
              (Js.bitor0 frame)) as [kf|] eqn:Hkf.
  - rewrite (setFrame_some _ _ _ Hkf) in Hset.
    exact (resolveSymbol_symbols _ _ _ Hset).
  - rewrite (setFrame_none _ _ Hkf) in Hset. inversion Hset; subst. reflexivity.
Qed.

Lemma constructor_created (alpha0 : float) (visible0 : bool) (lib : FlumpLibrary.t)
  (labels labels' : gmap string FlumpLabelData.t) (ld : FlumpLayerData.t)
  (created : list string) (this : Layer.t) :
  Layer.constructor alpha0 visible0 lib labels ld = Returns (labels', created, this) ->
  NoDup created
  /\ (forall r, r ∈ created
                <-> exists kf, kf ∈ FlumpLayerData.flumpKeyframeDatas ld
                               /\ KF.ref kf = Some r
                               /\ Js.inherited r = false)
  /\ (forall r, is_Some (Layer._symbols this !! r) <-> r ∈ created)
  /\ Layer.flumpLayerData this = ld.
Proof.
  intros Hc. destruct (constructor_inv _ _ _ _ _ _ _ _ Hc) as (symbols & Hreg & Hset).
  pose proof (log_ok_start labels) as Hstart.
  destruct (registerKeyframes_spec _ _ _ _ Hreg Hstart)
    as [(Hnodup & Hlog & _) Hrefs].
  simpl in *. split; [exact Hnodup|]. split; [|split].
  - intros r. rewrite Hrefs. split; [|auto].
    intros [Hr|Hr]; [inversion Hr | exact Hr].
  - intros r. rewrite (setFrame_symbols _ _ _ Hset). simpl. symmetry. apply Hlog.
  - rewrite (setFrame_flumpLayerData _ _ _ Hset). reflexivity.
Qed.

Lemma constructor_refs_cached (alpha0 : float) (visible0 : bool)
  (lib : FlumpLibrary.t) (labels labels' : gmap string FlumpLabelData.t)
  (ld : FlumpLayerData.t) (created : list string) (this : Layer.t) :
  Layer.constructor alpha0 visible0 lib labels ld = Returns (labels', created, this) ->
  refs_cached this.
Proof.
  intros Hc. destruct (constructor_created _ _ _ _ _ _ _ _ Hc)
    as (_ & Hrefs & Hdom & Hld).
  intros kf ref Hin Href. rewrite Hld in Hin. apply has_cases.
  destruct (Js.inherited ref) eqn:Hinh; [auto|].
  left. apply Hdom, Hrefs. eauto.
Qed.

Lemma refs_cached_setFrame (frame : float) (this : Layer.t) :
  FlumpLayerData.lookup_in_layer ->
  refs_cached this ->
  exists this', Layer.setFrame frame this = Returns this' /\ refs_cached this'.
Proof.
  intros Hin Hcached.
  assert (Hret : exists this', Layer.setFrame frame this = Returns this').
  { destruct (FlumpLayerData.getKeyframeForFrame (Layer.flumpLayerData this)
                (Js.bitor0 frame)) as [kf|] eqn:Hkf.
    - rewrite (setFrame_some _ _ _ Hkf), resolveSymbol_cases.
      destruct (KF.ref kf) as [ref|] eqn:Href; [|eauto].
      destruct (Layer.ref_differs _ ref); [|eauto].
      pose proof (Hcached kf ref (Hin _ _ _ Hkf) Href) as Hfound.
      apply has_cases in Hfound. simpl in Hfound. simpl.
      destruct (Layer._symbols this !! ref) as [[m|tex]|]; [eauto | eauto |].
      destruct Hfound as [[x Hx]| ->]; [discriminate | eauto].
    - rewrite (setFrame_none _ _ Hkf). eauto. }
  destruct Hret as [this' Hset]. exists this'. split; [exact Hset|].
  intros kf ref Hkf Href. rewrite (setFrame_flumpLayerData _ _ _ Hset) in Hkf.
  apply has_cases. pose proof (Hcached kf ref Hkf Href) as Hfound.
  apply has_cases in Hfound as [Hown|Hinh]; [|auto].
  left. apply (setFrame_symbols _ _ _ Hset). exact Hown.
Qed.

Lemma refs_cached_setFrames (frames : list float) :
  FlumpLayerData.lookup_in_layer ->
  forall this, refs_cached this ->
    exists this', setFrames frames this = Returns this' /\ refs_cached this'.
Proof.
  intros Hin. unfold setFrames.
  induction frames as [|frame rest IH]; intros this Hcached; simpl.
  - eauto.
  - destruct (refs_cached_setFrame frame this Hin Hcached) as (this1 & -> & Hc1).
    apply IH, Hc1.
Qed.

End Construction.

Lemma keyframeForFrame_in (kfs : list KF.t) (frame : float) (kf : KF.t) :
  FlumpLayerData.keyframeForFrame kfs frame = Some kf -> kf ∈ kfs.
Proof.
  induction kfs as [|k rest IH]; simpl; [discriminate|].
  destruct rest as [|k' rest'].
  - intros Hk. inversion Hk; subst. apply list_elem_of_here.
  - destruct ((KF.index k <=? frame) && (frame <? KF.index k + KF.duration k)).
    + intros Hk. inversion Hk; subst. apply list_elem_of_here.
    + intros Hk. apply list_elem_of_further, IH, Hk.
Qed.

Lemma keyframeForFrame_none (kfs : list KF.t) (frame : float) :
  FlumpLayerData.keyframeForFrame kfs frame = None <-> kfs = [].
Proof.
  split; [|intros ->; reflexivity].
  induction kfs as [|k rest IH]; simpl; [reflexivity|].
  destruct rest as [|k' rest']; [discriminate|].
  destruct ((KF.index k <=? frame) && (frame <? KF.index k + KF.duration k));
    [discriminate|].
  intros Hk. apply IH in Hk. discriminate.
Qed.

Lemma specLookup_in_layer : @FlumpLayerData.lookup_in_layer FlumpLayerData.specLookup.
Proof. intros ld frame kf. apply keyframeForFrame_in. Qed.

(** ** Symbol resolution *)

Lemma ref_differs_other (current : option string) (ref : string) :
  current <> Some ref -> Layer.ref_differs current ref = true.
Proof.
  destruct current as [r|]; simpl; [|reflexivity].
  intros Hne. destruct (String.eqb_spec r ref); [congruence | reflexivity].
Qed.




(** ** Totality *)

(** C9: on a layer built by the constructor (which fails when a keyframe
    names a symbol the library lacks), [setFrame] returns normally for every
    frame argument, call after call; and when the keyframe lookup finds no
    keyframe it returns with the layer deactivated (no active child). *)
Theorem C9_total (M : Js.Math) (L : FlumpLayerData.Lookup)
  (alpha0 : float) (visible0 : bool) (lib : FlumpLibrary.t)
  (labels labels' : gmap string FlumpLabelData.t) (ld : FlumpLayerData.t)
  (created : list string) (this : Layer.t) :
  FlumpLayerData.lookup_in_layer ->
  Layer.constructor alpha0 visible0 lib labels ld = Returns (labels', created, this) ->
  (forall frames, exists this', setFrames frames this = Returns this')
  /\ (forall frame, exists this', Layer.setFrame frame this = Returns this')
  /\ (forall (any : Layer.t) (frame : float),
         FlumpLayerData.getKeyframeForFrame (Layer.flumpLayerData any)
           (Js.bitor0 frame) = None ->
         exists this',
           Layer.setFrame frame any = Returns this'
           /\ Layer.activeChild this' = None).
Proof.
  intros Hin Hc. pose proof (constructor_refs_cached _ _ _ _ _ _ _ _ Hc) as Hcached.
  split; [|split].
  - intros frames.
    destruct (refs_cached_setFrames frames Hin this Hcached) as (this' & Hs & _).
    eauto.
  - intros frame.
    destruct (refs_cached_setFrame frame this Hin Hcached) as (this' & Hs & _).
    eauto.
  - intros any frame Hnone. rewrite (setFrame_none _ _ Hnone).
    eexists. split; reflexivity.
Qed.

Lemma C9_total_witness :
  exists built,
    Layer.constructor (H := Scenario.taylor) (H0 := FlumpLayerData.specLookup)
      1 true Scenario.library ∅ Scenario.bounce = Returns (∅, ["ball"], built)
    /\ exists this',
         setFrames (H := Scenario.taylor) (H0 := FlumpLayerData.specLookup)
           [2; 5; 0.5; -3; 4294967296; nan; infinity] built = Returns this'.
Proof.
  eexists. split; [vm_compute; reflexivity|].
  refine (proj1 (C9_total Scenario.taylor FlumpLayerData.specLookup
                   1 true Scenario.library ∅ ∅ Scenario.bounce ["ball"] _
                   specLookup_in_layer _) _).
  vm_compute. reflexivity.
Defined.

(** * Further properties of the layer *)

Lemma setFrames_throws `{Js.Math} `{FlumpLayerData.Lookup}
  (frames : list float) (e : Js.Error) :
  foldl (fun acc frame => acc >>= Layer.setFrame frame) (Throws e) frames
  = Throws e.
Proof. induction frames as [|f fs IH]; simpl; [reflexivity | exact IH]. Qed.

Lemma setFrames_cons `{Js.Math} `{FlumpLayerData.Lookup}
  (frame : float) (frames : list float) (this : Layer.t) :
  setFrames (frame :: frames) this
  = Layer.setFrame frame this >>= setFrames frames.
Proof.
  unfold setFrames. simpl.
  destruct (Layer.setFrame frame this) as [mid|e]; simpl;
    [reflexivity | apply setFrames_throws].
Qed.

(** A property kept by every returning [setFrame] is kept by a run of them. *)
Lemma setFrames_invariant `{Js.Math} `{FlumpLayerData.Lookup}
  (P : Layer.t -> Prop) :
  (forall frame this this',
      P this -> Layer.setFrame frame this = Returns this' -> P this') ->
  forall frames this this',
    P this -> setFrames frames this = Returns this' -> P this'.
Proof.
  intros Hstep frames.
  induction frames as [|f fs IH]; intros this this' HP Hrun.
  - inversion Hrun; subst. exact HP.
  - rewrite setFrames_cons in Hrun.
    destruct (Layer.setFrame f this) as [mid|e] eqn:Hf; [|discriminate].
    simpl in Hrun. eapply IH; [|exact Hrun]. eapply Hstep; eauto.
Qed.

Section Cache.
Context `{Js.Math} `{FlumpLayerData.Lookup}.

Lemma resolveSymbol_cache (kf : KF.t) (this this' : Layer.t) :
  Layer.resolveSymbol kf this = Returns this' ->
  (forall r, Symbol_type <$> (Layer._symbols this' !! r)
             = Symbol_type <$> (Layer._symbols this !! r))
  /\ (forall r, Layer._keyframeRef this' <> Some r ->
                Layer._symbols this' !! r = Layer._symbols this !! r).
Proof.
  rewrite resolveSymbol_cases. intros Hr.
  destruct (KF.ref kf) as [ref|].
  - destruct (Layer.ref_differs (Layer._keyframeRef this) ref) eqn:Hd.
    + destruct (Layer._symbols this !! ref) as [[m|tex]|] eqn:Hs;
        [| |destruct (Js.inherited ref)];
        inversion Hr; subst; simpl; [| |auto].
      * split.
        -- intros r. destruct (decide (ref = r)) as [<-|Hne].
           ++ rewrite lookup_insert_eq, Hs. reflexivity.
           ++ rewrite lookup_insert_ne by exact Hne. reflexivity.
        -- intros r Hne. apply lookup_insert_ne. congruence.
      * split.
        -- intros r. destruct (decide (ref = r)) as [<-|Hne].
           ++ rewrite lookup_insert_eq, Hs. reflexivity.
           ++ rewrite lookup_insert_ne by exact Hne. reflexivity.
        -- intros r Hne. apply lookup_insert_ne. congruence.
    + inversion Hr; subst. auto.
  - inversion Hr; subst; simpl. auto.
Qed.

Lemma resolveSymbol_active_ok (kf : KF.t) (this this' : Layer.t) :
  active_ok this ->
  Layer.resolveSymbol kf this = Returns this' ->
  active_ok this'.
Proof.
  rewrite resolveSymbol_cases. intros Hok Hr.
  destruct (KF.ref kf) as [ref|].
  - destruct (Layer.ref_differs (Layer._keyframeRef this) ref).
    + destruct (Layer._symbols this !! ref) as [[m|tex]|] eqn:Hs.
      * inversion Hr; subst; unfold active_ok; simpl;
          do 2 eexists; rewrite lookup_insert_eq; auto.
      * inversion Hr; subst; unfold active_ok; simpl;
          do 2 eexists; rewrite lookup_insert_eq; auto.
      * destruct (Js.inherited ref) eqn:Hinh; inversion Hr; subst.
        unfold active_ok. simpl. eauto.
    + inversion Hr; subst. exact Hok.
  - inversion Hr; subst. exact I.
Qed.

Lemma setFrame_active_ok (frame : float) (this this' : Layer.t) :
  active_ok this ->
  Layer.setFrame frame this = Returns this' ->
  active_ok this'.
Proof.
  intros Hok Hset.
  destruct (FlumpLayerData.getKeyframeForFrame (Layer.flumpLayerData this)
              (Js.bitor0 frame)) as [kf|] eqn:Hkf.
  - rewrite (setFrame_some _ _ _ Hkf) in Hset.
    eapply resolveSymbol_active_ok; [|exact Hset]. exact Hok.
  - rewrite (setFrame_none _ _ Hkf) in Hset. inversion Hset; subst. exact I.
Qed.

Lemma active_ok_draw (this : Layer.t) (ctx : list Symbol) :
  active_ok this ->
  Layer.draw this ctx
  = Returns (ctx ++ match Layer.activeChild this with
                    | Some child => [child]
                    | None => []
                    end, true)
  /\ (Layer.activeChild this = None
      <-> Layer._symbolType this = UNKNOWN \/ Layer._symbolType this = UNDEFINED)
  /\ (forall child,
         Layer.activeChild this = Some child ->
         exists r, Layer._keyframeRef this = Some r
                   /\ Layer._symbols this !! r = Some child)
  /\ (Layer._symbolType this = UNDEFINED ->
      exists r, Layer._keyframeRef this = Some r
                /\ Layer._symbols this !! r = None
                /\ Js.inherited r = true).
Proof.
  unfold active_ok, Layer.draw, Layer.activeChild.
  destruct (Layer._symbolType this).
  - intros _. rewrite app_nil_r. repeat split; intros; (discriminate || auto).
  - intros [].
  - intros (r & m & Hk & -> & Hs). simpl. rewrite Hs.
    split; [reflexivity|].
    split; [split; [discriminate | intros [Hx|Hx]; discriminate]|].
    split; [|discriminate].
    intros child Hc. inversion Hc; subst. eauto.
  - intros (r & tex & Hk & -> & Hs). simpl. rewrite Hs.
    split; [reflexivity|].
    split; [split; [discriminate | intros [Hx|Hx]; discriminate]|].
    split; [|discriminate].
    intros child Hc. inversion Hc; subst. eauto.
  - intros Hund. rewrite app_nil_r.
    split; [reflexivity|]. split; [split; auto|].
    split; [intros; discriminate | auto].
Qed.

End Cache.

(** X1: [setFrame] never touches the layer's name and data, never adds,
    removes or changes the kind of a cached child, and leaves every cached
    child alone except the one it has just made active. *)
Theorem X1_setFrame_keeps_cache (M : Js.Math) (L : FlumpLayerData.Lookup)
  (this this' : Layer.t) (frame : float) :
  Layer.setFrame frame this = Returns this' ->
  Layer.name this' = Layer.name this
  /\ Layer.flumpLayerData this' = Layer.flumpLayerData this
  /\ (forall r, Symbol_type <$> (Layer._symbols this' !! r)
                = Symbol_type <$> (Layer._symbols this !! r))
  /\ (forall r, Layer._keyframeRef this' <> Some r ->
                Layer._symbols this' !! r = Layer._symbols this !! r)
  /\ (Layer._keyframeRef this' = Layer._keyframeRef this ->
      Layer._symbols this' = Layer._symbols this).
Proof.
  intros Hset.
  destruct (FlumpLayerData.getKeyframeForFrame (Layer.flumpLayerData this)
              (Js.bitor0 frame)) as [kf|] eqn:Hkf.
  - rewrite (setFrame_some _ _ _ Hkf) in Hset.
    destruct (resolveSymbol_keeps _ _ _ Hset) as (_ & _ & _ & Hld & Hname).
    destruct (resolveSymbol_cache _ _ _ Hset) as (Hkind & Hother).
    repeat split; auto.
    intros Hk. rewrite resolveSymbol_cases in Hset.
    destruct (KF.ref kf) as [ref|].
    + destruct (Layer.ref_differs _ ref) eqn:Hd.
      * destruct (Js.inherited ref);
          destruct (Layer._symbols _ !! ref) as [[m|tex]|];
          inversion Hset; subst; simpl in *; rewrite <- Hk in Hd; simpl in Hd;
          rewrite String.eqb_refl in Hd; discriminate.
      * inversion Hset; subst. reflexivity.
    + inversion Hset; subst. reflexivity.
  - rewrite (setFrame_none _ _ Hkf) in Hset. inversion Hset; subst.
    repeat split; reflexivity.
Qed.

Lemma X1_setFrame_keeps_cache_witness :
  let this := Layer.mk "bounce" Scenario.bounce TEXTURE None (Some "dot") (Some "dot")
                {[ "ball" := SymMovie (FlumpMovie.mk "ball" 9);
                   "dot" := SymTexture (FlumpTexture.mk "dot") ]}
                (FlumpMtx.mk 1 0 0 1 0 0) 1 true in
  exists this',
    Layer.setFrame (H := Scenario.taylor) (H0 := FlumpLayerData.specLookup) 2 this
    = Returns this'
    /\ Layer._symbols this' !! "dot"
       = Some (SymTexture (FlumpTexture.mk "dot"))
    /\ Symbol_type <$> (Layer._symbols this' !! "ball") = Some DISPLAYOBJECT.
Proof.
  intros this. eexists. split; [vm_compute; reflexivity|].
  pose proof (X1_setFrame_keeps_cache Scenario.taylor FlumpLayerData.specLookup
                this _ 2 ltac:(vm_compute; reflexivity))
    as (_ & _ & Hkind & Hother & _).
  split.
  - etransitivity; [apply Hother; discriminate | reflexivity].
  - etransitivity; [apply Hkind | reflexivity].
Defined.

(** X2: while the resolved keyframe names the ref that is already active,
    [setFrame] returns and changes the transform, alpha and visibility only:
    the child is not looked up again, not reset and not reactivated, so a
    nested movie keeps its own playback position and a layer that had been
    deactivated stays so. *)
Theorem X2_same_ref_untouched (M : Js.Math) (L : FlumpLayerData.Lookup)
  (this : Layer.t) (frame : float) (kf : KF.t) (r : string) :
  FlumpLayerData.getKeyframeForFrame (Layer.flumpLayerData this) (Js.bitor0 frame)
  = Some kf ->
  KF.ref kf = Some r ->
  Layer._keyframeRef this = Some r ->
  exists this',
    Layer.setFrame frame this = Returns this'
    /\ Layer._symbols this' = Layer._symbols this
    /\ Layer._symbolType this' = Layer._symbolType this
    /\ Layer._symbolMovie this' = Layer._symbolMovie this
    /\ Layer._symbolTexture this' = Layer._symbolTexture this
    /\ Layer._keyframeRef this' = Some r
    /\ Layer.activeChild this' = Layer.activeChild this.
Proof.
  intros Hkf Href Hcur. rewrite (setFrame_some _ _ _ Hkf).
  rewrite resolveSymbol_cases, Href. simpl. rewrite Hcur. simpl.
  rewrite String.eqb_refl. simpl. eexists. split; [reflexivity|].
  repeat split; assumption.
Qed.

Lemma X2_same_ref_untouched_witness :
  let this := Layer.mk "bounce" Scenario.bounce UNKNOWN (Some "ball") None
                (Some "ball") {[ "ball" := SymMovie (FlumpMovie.mk "ball" 9) ]}
                (FlumpMtx.mk 1 0 0 1 0 0) 1 true in
  exists this',
    Layer.setFrame (H := Scenario.taylor) (H0 := FlumpLayerData.specLookup) 3 this
    = Returns this'
    /\ Layer._symbols this' = {[ "ball" := SymMovie (FlumpMovie.mk "ball" 9) ]}
    /\ Layer._symbolType this' = UNKNOWN
    /\ Layer._symbolMovie this' = Some "ball"
    /\ Layer._symbolTexture this' = None
    /\ Layer._keyframeRef this' = Some "ball"
    /\ Layer.activeChild this' = None.
Proof.
  intros this.
  exact (X2_same_ref_untouched Scenario.taylor FlumpLayerData.specLookup
           this 3 Scenario.ballOn "ball" eq_refl eq_refl eq_refl).
Defined.

Lemma fresh_active_ok (alpha0 : float) (visible0 : bool)
  (ld : FlumpLayerData.t) (symbols : gmap string Symbol) :
  active_ok (Layer.fresh alpha0 visible0 ld symbols).
Proof. exact I. Qed.

(** X3: on a layer built by the constructor, after any run of [setFrame]
    calls that returned, [draw] returns normally: it draws exactly the active
    child, which is the cached symbol named by the active ref, or nothing when
    the layer has no active child, and answers [true].  The layer has no
    active child exactly when its symbol type is [UNKNOWN] or [undefined], and
    the type is [undefined] only while the active ref names a member
    inherited from [Object.prototype] under which nothing is cached. *)
Theorem X3_draw_after_setFrames (M : Js.Math) (L : FlumpLayerData.Lookup)
  (alpha0 : float) (visible0 : bool) (lib : FlumpLibrary.t)
  (labels labels' : gmap string FlumpLabelData.t) (ld : FlumpLayerData.t)
  (created : list string) (built this : Layer.t) (frames : list float)
  (ctx : list Symbol) :
  Layer.constructor alpha0 visible0 lib labels ld = Returns (labels', created, built) ->
  setFrames frames built = Returns this ->
  Layer.draw this ctx
  = Returns (ctx ++ match Layer.activeChild this with
                    | Some child => [child]
                    | None => []
                    end, true)
  /\ (Layer.activeChild this = None
      <-> Layer._symbolType this = UNKNOWN \/ Layer._symbolType this = UNDEFINED)
  /\ (forall child,
         Layer.activeChild this = Some child ->
         exists r, Layer._keyframeRef this = Some r
                   /\ Layer._symbols this !! r = Some child)
  /\ (Layer._symbolType this = UNDEFINED ->
      exists r, Layer._keyframeRef this = Some r
                /\ Layer._symbols this !! r = None
                /\ Js.inherited r = true).
Proof.
  intros Hc Hrun. apply active_ok_draw.
  destruct (constructor_inv _ _ _ _ _ _ _ _ Hc) as (symbols & _ & Hset).
  eapply (setFrames_invariant active_ok); [|  |exact Hrun].
  - intros frame t t' Hok Hs. eapply setFrame_active_ok; eauto.
  - eapply setFrame_active_ok; [|exact Hset]. apply fresh_active_ok.
Qed.

Lemma X3_draw_after_setFrames_witness :
  exists built this,
    Layer.constructor (H := Scenario.taylor) (H0 := FlumpLayerData.specLookup)
      1 true Scenario.library ∅ Scenario.bounce = Returns (∅, ["ball"], built)
    /\ setFrames (H := Scenario.taylor) (H0 := FlumpLayerData.specLookup)
         [7; 3] built = Returns this
    /\ Layer.draw this [] = Returns ([SymMovie (FlumpMovie.mk "ball" 0)], true).
Proof.
  do 2 eexists. split; [vm_compute; reflexivity|].
  split; [vm_compute; reflexivity|].
  refine (proj1 (X3_draw_after_setFrames Scenario.taylor FlumpLayerData.specLookup
                   1 true Scenario.library ∅ ∅ Scenario.bounce ["ball"] _ _
                   [7; 3] [] _ _));
    vm_compute; reflexivity.
Defined.

Section Switch.
Context `{Js.Math} `{FlumpLayerData.Lookup}.

Lemma setFrame_ref_none (frame : float) (this : Layer.t) (kf : KF.t) :
  FlumpLayerData.getKeyframeForFrame (Layer.flumpLayerData this) (Js.bitor0 frame)
  = Some kf ->
  KF.ref kf = None ->
  Layer.setFrame frame this
  = Returns (Layer.set_symbolType UNKNOWN
               (Layer.set_keyframeRef None (staged kf frame this))).
Proof.
  intros Hkf Href. rewrite (setFrame_some _ _ _ Hkf).
  rewrite resolveSymbol_cases, Href. reflexivity.
Qed.

Lemma setFrame_ref_movie (frame : float) (this : Layer.t) (kf : KF.t)
  (r : string) (m : FlumpMovie.t) :
  FlumpLayerData.getKeyframeForFrame (Layer.flumpLayerData this) (Js.bitor0 frame)
  = Some kf ->
  KF.ref kf = Some r ->
  Layer._keyframeRef this <> Some r ->
  Layer._symbols this !! r = Some (SymMovie m) ->
  exists this',
    Layer.setFrame frame this = Returns this'
    /\ Layer._symbolType this' = DISPLAYOBJECT
    /\ Layer._keyframeRef this' = Some r
    /\ Layer.activeChild this' = Some (SymMovie (FlumpMovie.reset m)).
Proof.
  intros Hkf Href Hne Hsym. rewrite (setFrame_some _ _ _ Hkf).
  rewrite resolveSymbol_cases, Href. simpl.
  rewrite (ref_differs_other _ _ Hne), Hsym.
  eexists. split; [reflexivity|].
  unfold Layer.activeChild. simpl. rewrite lookup_insert_eq. auto.
Qed.

End Switch.

(** X4: hiding a nested movie and showing it again restarts it.  After a
    frame whose keyframe has no ref, a frame whose keyframe names a cached
    movie makes that movie the active child and resets it, whatever was active
    before. *)
Theorem X4_hide_then_show_resets (M : Js.Math) (L : FlumpLayerData.Lookup)
  (this : Layer.t) (hidden shown : float) (off on : KF.t) (r : string)
  (m : FlumpMovie.t) :
  FlumpLayerData.getKeyframeForFrame (Layer.flumpLayerData this) (Js.bitor0 hidden)
  = Some off ->
  KF.ref off = None ->
  FlumpLayerData.getKeyframeForFrame (Layer.flumpLayerData this) (Js.bitor0 shown)
  = Some on ->
  KF.ref on = Some r ->
  Layer._symbols this !! r = Some (SymMovie m) ->
  exists mid this',
    Layer.setFrame hidden this = Returns mid
    /\ Layer.activeChild mid = None
    /\ Layer.setFrame shown mid = Returns this'
    /\ Layer._symbolType this' = DISPLAYOBJECT
    /\ Layer.activeChild this' = Some (SymMovie (FlumpMovie.reset m)).
Proof.
  intros Hoff Hnone Hon Hsome Hcached.
  eexists. rewrite (setFrame_ref_none _ _ _ Hoff Hnone).
  destruct (setFrame_ref_movie shown
              (Layer.set_symbolType UNKNOWN
                 (Layer.set_keyframeRef None (staged off hidden this)))
              on r m Hon Hsome ltac:(discriminate) Hcached)
    as (this' & Hset & Hty & _ & Hact).
  exists this'. repeat split; auto.
Qed.

Lemma X4_hide_then_show_resets_witness :
  let this := Layer.mk "bounce" Scenario.bounce DISPLAYOBJECT (Some "ball") None
                (Some "ball") {[ "ball" := SymMovie (FlumpMovie.mk "ball" 9) ]}
                (FlumpMtx.mk 1 0 0 1 0 0) 1 true in
  exists mid this',
    Layer.setFrame (H := Scenario.taylor) (H0 := FlumpLayerData.specLookup)
      6 this = Returns mid
    /\ Layer.activeChild mid = None
    /\ Layer.setFrame (H := Scenario.taylor) (H0 := FlumpLayerData.specLookup)
         1 mid = Returns this'
    /\ Layer._symbolType this' = DISPLAYOBJECT
    /\ Layer.activeChild this'
       = Some (SymMovie (FlumpMovie.reset (FlumpMovie.mk "ball" 9))).
Proof.
  intros this.
  exact (X4_hide_then_show_resets Scenario.taylor FlumpLayerData.specLookup
           this 6 1 Scenario.ballOff Scenario.ballOn "ball"
           (FlumpMovie.mk "ball" 9) eq_refl eq_refl eq_refl eq_refl eq_refl).
Defined.

(** ** What the constructor registers *)

Lemma registerKeyframe_labels (lib : FlumpLibrary.t)
  (acc acc' : gmap string FlumpLabelData.t * gmap string Symbol * list string)
  (kf : KF.t) (l : string) :
  Layer.registerKeyframe lib acc kf = Returns acc' ->
  l <> "" ->
  acc'.1.1 !! l
  = if decide (KF.label kf = Some l)
    then Some (FlumpLabelData.mk l (KF.index kf) (KF.duration kf))
    else acc.1.1 !! l.
Proof.
  destruct acc as [[labels symbols] created].
  unfold Layer.registerKeyframe. intros Hreg Hl.
  assert (Hlab :
    match KF.label kf with
    | Some l0 =>
        if String.eqb l0 "" then labels
        else <[l0 := FlumpLabelData.mk l0 (KF.index kf) (KF.duration kf)]> labels
    | None => labels
    end !! l
    = if decide (KF.label kf = Some l)
      then Some (FlumpLabelData.mk l (KF.index kf) (KF.duration kf))
      else labels !! l).
  { destruct (KF.label kf) as [l0|].
    - destruct (String.eqb l0 "") eqn:Hempty.
      + apply String.eqb_eq in Hempty. rewrite decide_False by congruence.
        reflexivity.
      + destruct (decide (Some l0 = Some l)) as [Heq|Hne].
        * inversion Heq; subst. apply lookup_insert_eq.
        * apply lookup_insert_ne. congruence.
    - rewrite decide_False by discriminate. reflexivity. }
  destruct (KF.ref kf) as [ref|].
  - destruct (Js.has ref symbols).
    + inversion Hreg; subst. exact Hlab.
    + destruct (FlumpLibrary.createSymbol lib ref); [|discriminate].
      inversion Hreg; subst. exact Hlab.
  - inversion Hreg; subst. exact Hlab.
Qed.

Lemma registerKeyframe_empty_label (lib : FlumpLibrary.t)
  (acc acc' : gmap string FlumpLabelData.t * gmap string Symbol * list string)
  (kf : KF.t) :
  Layer.registerKeyframe lib acc kf = Returns acc' ->
  acc'.1.1 !! "" = acc.1.1 !! "".
Proof.
  destruct acc as [[labels symbols] created].
  unfold Layer.registerKeyframe. intros Hreg.
  assert (Hlab :
    match KF.label kf with
    | Some l0 =>
        if String.eqb l0 "" then labels
        else <[l0 := FlumpLabelData.mk l0 (KF.index kf) (KF.duration kf)]> labels
    | None => labels
    end !! "" = labels !! "").
  { destruct (KF.label kf) as [l0|]; [|reflexivity].
    destruct (String.eqb l0 "") eqn:Hempty; [reflexivity|].
    apply String.eqb_neq in Hempty. apply lookup_insert_ne. exact Hempty. }
  destruct (KF.ref kf) as [ref|].
  - destruct (Js.has ref symbols).
    + inversion Hreg; subst. exact Hlab.
    + destruct (FlumpLibrary.createSymbol lib ref); [|discriminate].
      inversion Hreg; subst. exact Hlab.
  - inversion Hreg; subst. exact Hlab.
Qed.

Lemma registerKeyframes_labels (lib : FlumpLibrary.t) (kfs : list KF.t)
  (l : string) :
  l <> "" ->
  forall acc acc',
    Layer.registerKeyframes lib kfs acc = Returns acc' ->
    acc'.1.1 !! l
    = match last (labelled l kfs) with
      | Some kf => Some (FlumpLabelData.mk l (KF.index kf) (KF.duration kf))
      | None => acc.1.1 !! l
      end.
Proof.
  intros Hl. induction kfs as [|kf rest IH]; intros acc acc' Hreg; simpl in Hreg.
  - inversion Hreg; subst. reflexivity.
  - destruct (Layer.registerKeyframe lib acc kf) as [mid|e] eqn:Hstep;
      [|discriminate].
    simpl in Hreg. rewrite (IH _ _ Hreg).
    rewrite (registerKeyframe_labels _ _ _ _ l Hstep Hl).
    unfold labelled. rewrite filter_cons.
    destruct (decide (KF.label kf = Some l)) as [Hhere|Hnot].
    + rewrite last_cons. destruct (last (filter _ rest)); reflexivity.
    + reflexivity.
Qed.

Lemma registerKeyframes_empty_label (lib : FlumpLibrary.t) (kfs : list KF.t) :
  forall acc acc',
    Layer.registerKeyframes lib kfs acc = Returns acc' ->
    acc'.1.1 !! "" = acc.1.1 !! "".
Proof.
  induction kfs as [|kf rest IH]; intros acc acc' Hreg; simpl in Hreg.
  - inversion Hreg; subst. reflexivity.
  - destruct (Layer.registerKeyframe lib acc kf) as [mid|e] eqn:Hstep;
      [|discriminate].
    simpl in Hreg. rewrite (IH _ _ Hreg).
    apply (registerKeyframe_empty_label _ _ _ _ Hstep).
Qed.

(** X5: the constructor enters into the movie's label map, under each
    non-empty label carried by a keyframe of the layer, the index and duration
    of the last keyframe carrying it, overwriting an earlier entry of that
    name; every other entry of the map, the one under the empty name
    included, is left as it was. *)
Theorem X5_constructor_labels (M : Js.Math) (L : FlumpLayerData.Lookup)
  (alpha0 : float) (visible0 : bool) (lib : FlumpLibrary.t)
  (labels labels' : gmap string FlumpLabelData.t) (ld : FlumpLayerData.t)
  (created : list string) (this : Layer.t) :
  Layer.constructor alpha0 visible0 lib labels ld = Returns (labels', created, this) ->
  (forall l, l <> "" ->
             labels' !! l
             = match last (labelled l (FlumpLayerData.flumpKeyframeDatas ld)) with
               | Some kf => Some (FlumpLabelData.mk l (KF.index kf) (KF.duration kf))
               | None => labels !! l
               end)
  /\ labels' !! "" = labels !! "".
Proof.
  intros Hc. destruct (constructor_inv _ _ _ _ _ _ _ _ Hc) as (symbols & Hreg & _).
  split.
  - intros l Hl. exact (registerKeyframes_labels _ _ l Hl _ _ Hreg).
  - exact (registerKeyframes_empty_label _ _ _ _ Hreg).
Qed.

Lemma X5_constructor_labels_witness :
  exists labels' created this,
    Layer.constructor (H := Scenario.taylor) (H0 := FlumpLayerData.specLookup)
      1 true ∅ Sample.earlier Sample.chapters = Returns (labels', created, this)
    /\ labels' !! "intro" = Some (FlumpLabelData.mk "intro" 7 2)
    /\ labels' !! "loop" = Some (FlumpLabelData.mk "loop" 3 4)
    /\ labels' !! "outro" = Some (FlumpLabelData.mk "outro" 20 5)
    /\ labels' !! "" = None.
Proof.
  do 3 eexists. split; [vm_compute; reflexivity|].
  pose proof (X5_constructor_labels Scenario.taylor FlumpLayerData.specLookup
                1 true ∅ Sample.earlier _ Sample.chapters _ _
                ltac:(vm_compute; reflexivity)) as [Hnamed Hempty].
  split; [|split; [|split]].
  - etransitivity; [apply Hnamed; discriminate | reflexivity].
  - etransitivity; [apply Hnamed; discriminate | reflexivity].
  - etransitivity; [apply Hnamed; discriminate | reflexivity].
  - etransitivity; [apply Hempty | reflexivity].
Defined.

Lemma registerKeyframes_returns (lib : FlumpLibrary.t) (kfs : list KF.t) :
  (forall kf r, kf ∈ kfs -> KF.ref kf = Some r -> Js.inherited r = false ->
                exists s, FlumpLibrary.createSymbol lib r = Returns s) ->
  forall acc, exists acc', Layer.registerKeyframes lib kfs acc = Returns acc'.
Proof.
  induction kfs as [|kf rest IH]; intros Hall acc; simpl; [eauto|].
  assert (Hstep : exists mid, Layer.registerKeyframe lib acc kf = Returns mid).
  { destruct acc as [[labels symbols] created]. unfold Layer.registerKeyframe.
    destruct (KF.ref kf) as [ref|] eqn:Href; [|eauto].
    destruct (Js.has ref symbols) eqn:Hhas; [eauto|].
    apply has_not in Hhas as [_ Hinh].
    destruct (Hall kf ref (list_elem_of_here _ _) Href Hinh) as [s ->].
    simpl. eauto. }
  destruct Hstep as [mid ->]. simpl. apply IH.
  intros k r Hin. apply Hall. apply list_elem_of_further, Hin.
Qed.

(** Every cached symbol is the one [createSymbol] made for its name. *)
Lemma registerKeyframes_made (lib : FlumpLibrary.t) (kfs : list KF.t) :
  forall acc acc',
    Layer.registerKeyframes lib kfs acc = Returns acc' ->
    (forall r s, acc.1.2 !! r = Some s ->
                 FlumpLibrary.createSymbol lib r = Returns s) ->
    forall r s, acc'.1.2 !! r = Some s ->
                FlumpLibrary.createSymbol lib r = Returns s.
Proof.
  induction kfs as [|kf rest IH]; intros acc acc' Hreg Hmade; simpl in Hreg.
  - inversion Hreg; subst. exact Hmade.
  - destruct (Layer.registerKeyframe lib acc kf) as [mid|e] eqn:Hstep;
      [|discriminate].
    simpl in Hreg. apply (IH _ _ Hreg).
    destruct acc as [[labels symbols] created].
    unfold Layer.registerKeyframe in Hstep. simpl in Hmade.
    destruct (KF.ref kf) as [ref|].
    + destruct (Js.has ref symbols) eqn:Hcached.
      * inversion Hstep; subst. exact Hmade.
      * destruct (FlumpLibrary.createSymbol lib ref) as [symbol|e] eqn:Hnew;
          [|discriminate].
        inversion Hstep; subst; simpl. intros r s.
        destruct (decide (ref = r)) as [<-|Hne].
        -- rewrite lookup_insert_eq. intros Hs. inversion Hs; subst. exact Hnew.
        -- rewrite lookup_insert_ne by exact Hne. apply Hmade.
    + inversion Hstep; subst. exact Hmade.
Qed.

(** X6: construction succeeds exactly when [createSymbol] succeeds for every
    ref named by a keyframe of the layer that is not the name of a member
    inherited from [Object.prototype], and throws otherwise: for an inherited
    name [createSymbol] is never called.  Each child the built layer caches
    bears a name that is not inherited, is of the kind of the symbol
    [createSymbol] makes for its name, and is that very symbol unless it is
    the active one. *)
Theorem X6_constructor_succeeds (M : Js.Math) (L : FlumpLayerData.Lookup)
  (alpha0 : float) (visible0 : bool) (lib : FlumpLibrary.t)
  (labels : gmap string FlumpLabelData.t) (ld : FlumpLayerData.t) :
  FlumpLayerData.lookup_in_layer ->
  ((exists result, Layer.constructor alpha0 visible0 lib labels ld = Returns result)
   <-> (forall kf r, kf ∈ FlumpLayerData.flumpKeyframeDatas ld ->
                     KF.ref kf = Some r ->
                     Js.inherited r = false ->
                     exists s, FlumpLibrary.createSymbol lib r = Returns s))
  /\ (forall labels' created this r child,
         Layer.constructor alpha0 visible0 lib labels ld
         = Returns (labels', created, this) ->
         Layer._symbols this !! r = Some child ->
         Js.inherited r = false
         /\ exists s, FlumpLibrary.createSymbol lib r = Returns s
                      /\ Symbol_type child = Symbol_type s
                      /\ (Layer._keyframeRef this <> Some r -> child = s)).
Proof.
  intros Hin.
  pose proof (log_ok_start labels) as Hstart.
  split; [split|].
  - intros ([[labels' created] this] & Hc) kf r Hkf Href Hinh.
    destruct (constructor_inv _ _ _ _ _ _ _ _ Hc) as (symbols & Hreg & _).
    destruct (registerKeyframes_spec _ _ _ _ Hreg Hstart)
      as [(_ & Hlog & _) Hrefs].
    simpl in *.
    assert (Hcached : is_Some (symbols !! r)).
    { apply Hlog, Hrefs. right. eauto. }
    destruct Hcached as [s Hs]. exists s.
    apply (registerKeyframes_made _ _ _ _ Hreg) with (r := r); [|exact Hs].
    simpl. intros r0 s0. rewrite lookup_empty. discriminate.
  - intros Hall.
    destruct (registerKeyframes_returns lib _ Hall (labels, ∅, []))
      as ([[labels' symbols] created] & Hreg).
    destruct (registerKeyframes_spec _ _ _ _ Hreg Hstart)
      as [(_ & Hlog & _) Hrefs].
    simpl in *.
    assert (Hcached : refs_cached (Layer.fresh alpha0 visible0 ld symbols)).
    { intros kf r Hkf Href. simpl in *. apply has_cases.
      destruct (Js.inherited r) eqn:Hinh; [auto|].
      left. apply Hlog, Hrefs. right. eauto. }
    destruct (refs_cached_setFrame 0 _ Hin Hcached) as (this & Hset & _).
    exists (labels', created, this).
    unfold Layer.constructor. rewrite Hreg. simpl. rewrite Hset. reflexivity.
  - intros labels' created this r child Hc Hchild.
    destruct (constructor_created _ _ _ _ _ _ _ _ Hc) as (_ & Hrefs & Hdom & _).
    split.
    { assert (Hr : r ∈ created) by (apply Hdom; eauto).
      apply Hrefs in Hr as (kf & _ & _ & Hinh). exact Hinh. }
    destruct (constructor_inv _ _ _ _ _ _ _ _ Hc) as (symbols & Hreg & Hset).
    assert (Hmade : forall r s, symbols !! r = Some s ->
                                FlumpLibrary.createSymbol lib r = Returns s).
    { apply (registerKeyframes_made _ _ _ _ Hreg).
      simpl. intros r0 s0. rewrite lookup_empty. discriminate. }
    destruct (FlumpLayerData.getKeyframeForFrame
                (Layer.flumpLayerData (Layer.fresh alpha0 visible0 ld symbols))
                (Js.bitor0 0)) as [kf|] eqn:Hkf.
    + rewrite (setFrame_some _ _ _ Hkf) in Hset.
      destruct (resolveSymbol_cache _ _ _ Hset) as (Hkind & Hother).
      specialize (Hkind r). rewrite Hchild in Hkind. simpl in Hkind.
      destruct (symbols !! r) as [s|] eqn:Hs; [|discriminate].
      exists s. split; [apply Hmade, Hs|].
      split; [simpl in Hkind; congruence|].
      intros Hne. specialize (Hother r Hne). simpl in Hother.
      rewrite Hchild, Hs in Hother. congruence.
    + rewrite (setFrame_none _ _ Hkf) in Hset. inversion Hset; subst.
      simpl in Hchild. exists child. split; [apply Hmade, Hchild|]. auto.
Qed.

Lemma X6_constructor_succeeds_witness :
  (exists result,
      Layer.constructor (H := Scenario.taylor) (H0 := FlumpLayerData.specLookup)
        1 true Scenario.library ∅ Scenario.bounce = Returns result)
  /\ (exists result,
        Layer.constructor (H := Scenario.taylor) (H0 := FlumpLayerData.specLookup)
          1 true ∅ ∅ Scenario.shadow = Returns result)
  /\ exists e,
      Layer.constructor (H := Scenario.taylor) (H0 := FlumpLayerData.specLookup)
        1 true Scenario.library ∅ Sample.orphan = Throws e.
Proof.
  split; [|split].
  - apply (proj1 (X6_constructor_succeeds Scenario.taylor FlumpLayerData.specLookup
                    1 true Scenario.library ∅ Scenario.bounce specLookup_in_layer)).
    intros kf r Hkf Href _.
    apply elem_of_cons in Hkf as [->|Hkf].
    + inversion Href; subst. eexists. reflexivity.
    + apply list_elem_of_singleton in Hkf. subst. discriminate.
  - apply (proj1 (X6_constructor_succeeds Scenario.taylor FlumpLayerData.specLookup
                    1 true ∅ ∅ Scenario.shadow specLookup_in_layer)).
    intros kf r Hkf Href Hinh.
    apply list_elem_of_singleton in Hkf. subst.
    inversion Href; subst. discriminate.
  - eexists. vm_compute. reflexivity.
Defined.

(** * Behaviours *)

(** X7: a behaviour takes an owner only while it has none that counts as
    true.  [init] returns exactly when the current owner is falsy ([null],
    [undefined], or a value such as 0 or the empty string) and then stores its
    argument; otherwise it throws "behavior already has a owner" and changes
    nothing.  Hence, through any series of calls made after a successful
    [init] with a truthy owner, the owner stays that one as long as no
    [destruct] is among them; after an [init] with a falsy owner the next
    [init] succeeds again, and so does the next [init] after [destruct]. *)
Theorem X7_behavior_owner (Owner : Type) (truthy : Owner -> bool)
  (this : AbstractBehavior.t Owner) (o : Owner)
  (this' : AbstractBehavior.t Owner) :
  AbstractBehavior.init truthy (Some o) this = inr this' ->
  (forall current, AbstractBehavior.owner this = Some current ->
                   truthy current = false)
  /\ AbstractBehavior.owner this' = Some o
  /\ (truthy o = true ->
      (forall o', AbstractBehavior.init truthy o' this'
                  = inl "behavior already has a owner")
      /\ (forall calls,
             Forall (fun c => c <> AbstractBehavior.Destruct) calls ->
             foldl (AbstractBehavior.after truthy) this' calls = this'))
  /\ (truthy o = false ->
      forall o', AbstractBehavior.init truthy o' this'
                 = inr (AbstractBehavior.mk o'))
  /\ (forall o', AbstractBehavior.init truthy o' (AbstractBehavior.destruct this')
                 = inr (AbstractBehavior.mk o')).
Proof.
  unfold AbstractBehavior.init. intros Hinit.
  assert (Hfalsy : forall current, AbstractBehavior.owner this = Some current ->
                                   truthy current = false).
  { intros current Hcur. rewrite Hcur in Hinit.
    destruct (truthy current); [discriminate | reflexivity]. }
  assert (Hthis' : this' = AbstractBehavior.mk (Some o)).
  { destruct (AbstractBehavior.owner this) as [current|];
      [destruct (truthy current)|]; inversion Hinit; reflexivity. }
  subst this'. simpl.
  split; [exact Hfalsy|]. split; [reflexivity|].
  split; [|split; [|reflexivity]].
  - intros Ho. split; [intros o'; rewrite Ho; reflexivity|].
    intros calls Hno.
    induction Hno as [|c calls Hc _ IH]; [reflexivity|].
    destruct c as [o'|]; [|congruence].
    cbn [foldl AbstractBehavior.after]. unfold AbstractBehavior.init.
    cbn [AbstractBehavior.owner]. rewrite Ho. exact IH.
  - intros Ho o'. rewrite Ho. reflexivity.
Qed.

Lemma X7_behavior_owner_witness :
  let truthy := fun n : nat => negb (Nat.eqb n 0) in
  let this' := AbstractBehavior.mk (Some 1%nat) in
  (forall current, AbstractBehavior.owner (AbstractBehavior.mk (Some 0%nat))
                   = Some current -> truthy current = false)
  /\ AbstractBehavior.owner this' = Some 1%nat
  /\ (truthy 1%nat = true ->
      (forall o', AbstractBehavior.init truthy o' this'
                  = inl "behavior already has a owner")
      /\ (forall calls,
             Forall (fun c => c <> AbstractBehavior.Destruct) calls ->
             foldl (AbstractBehavior.after truthy) this' calls = this'))
  /\ (truthy 1%nat = false ->
      forall o', AbstractBehavior.init truthy o' this'
                 = inr (AbstractBehavior.mk o'))
  /\ (forall o', AbstractBehavior.init truthy o' (AbstractBehavior.destruct this')
                 = inr (AbstractBehavior.mk o')).
Proof.
  exact (X7_behavior_owner nat (fun n => negb (Nat.eqb n 0))
           (AbstractBehavior.mk (Some 0%nat)) 1%nat _ eq_refl).
Defined.

(** * Texture atlases *)

Lemma set_proto_name {V : Type} (v : V) (obj : Js.table V) :
  Js.own obj !! "__proto__" = None ->
  Js.set "__proto__" v obj = Js.Table (Js.own obj) (Some v).
Proof. unfold Js.set. intros ->. reflexivity. Qed.

Lemma set_other_name {V : Type} (name : string) (v : V) (obj : Js.table V) :
  name <> "__proto__" ->
  Js.set name v obj = Js.Table (<[name := v]> (Js.own obj)) (Js.proto obj).
Proof.
  unfold Js.set. intros Hne. apply String.eqb_neq in Hne. rewrite Hne.
  reflexivity.
Qed.

Lemma atlas_fold {Json Texture : Type} (symbol : Json -> string)
  (make : Json -> Texture) (textures : list Json) :
  forall acc : Js.table Texture,
    Js.own acc !! "__proto__" = None ->
    (forall s, s <> "__proto__" ->
               Js.own (foldl (fun obj texture =>
                                Js.set (symbol texture) (make texture) obj)
                         acc textures) !! s
               = match last (filter (fun texture => symbol texture = s) textures) with
                 | Some texture => Some (make texture)
                 | None => Js.own acc !! s
                 end)
    /\ Js.own (foldl (fun obj texture =>
                        Js.set (symbol texture) (make texture) obj)
                 acc textures) !! "__proto__" = None
    /\ Js.proto (foldl (fun obj texture =>
                          Js.set (symbol texture) (make texture) obj)
                   acc textures)
       = match last (filter (fun texture => symbol texture = "__proto__")
                       textures) with
         | Some texture => Some (make texture)
         | None => Js.proto acc
         end.
Proof.
  induction textures as [|texture rest IH]; intros acc Hacc.
  - split; [reflexivity|]. split; [exact Hacc | reflexivity].
  - cbn [foldl].
    destruct (decide (symbol texture = "__proto__")) as [Hp|Hp].
    + rewrite Hp, (set_proto_name _ _ Hacc).
      destruct (IH (Js.Table (Js.own acc) (Some (make texture))) Hacc)
        as (Hown & Hnone & Hproto).
      split; [|split; [exact Hnone|]].
      * intros s Hs. rewrite (Hown s Hs).
        rewrite (filter_cons (fun texture0 => symbol texture0 = s)).
        rewrite decide_False by congruence. reflexivity.
      * rewrite Hproto.
        rewrite (filter_cons (fun texture0 => symbol texture0 = "__proto__")).
        rewrite decide_True by exact Hp. rewrite last_cons.
        destruct (last (filter (fun texture0 => symbol texture0 = "__proto__")
                          rest)); reflexivity.
    + rewrite (set_other_name _ _ _ Hp).
      assert (Hacc' : <[symbol texture := make texture]> (Js.own acc)
                      !! "__proto__" = None).
      { rewrite lookup_insert_ne by exact Hp. exact Hacc. }
      destruct (IH (Js.Table (<[symbol texture := make texture]> (Js.own acc))
                      (Js.proto acc)) Hacc')
        as (Hown & Hnone & Hproto).
      split; [|split; [exact Hnone|]].
      * intros s Hs. rewrite (Hown s Hs).
        rewrite (filter_cons (fun texture0 => symbol texture0 = s)).
        cbn [Js.own].
        destruct (decide (symbol texture = s)) as [<-|Hne].
        -- rewrite last_cons, lookup_insert_eq.
           destruct (last (filter (fun texture0 =>
                                     symbol texture0 = symbol texture) rest));
             reflexivity.
        -- rewrite lookup_insert_ne by exact Hne. reflexivity.
      * rewrite Hproto.
        rewrite (filter_cons (fun texture0 => symbol texture0 = "__proto__")).
        rewrite decide_False by exact Hp. reflexivity.
Qed.

(** X8: the atlas built from [json.textures] keeps the atlas image and holds,
    as own property under each listed symbol name other than [__proto__],
    the texture made from the last entry that bears this name; a name borne
    by no entry is no own property.  An entry named [__proto__] adds no
    property: the texture made from the last such entry becomes the
    prototype of the table. *)
Theorem X8_atlas_lookup {Image Json Texture : Type} (symbol : Json -> string)
  (newFlumpTexture : Image -> Json -> Texture)
  (renderTexture : Image) (textures : list Json) (s : string) :
  let atlas := FlumpTextureGroupAtlas.constructor symbol newFlumpTexture
                 renderTexture textures in
  let table := FlumpTextureGroupAtlas.flumpTextures atlas in
  FlumpTextureGroupAtlas.renderTexture atlas = renderTexture
  /\ (s <> "__proto__" ->
      Js.own table !! s
      = newFlumpTexture renderTexture
        <$> last (filter (fun texture => symbol texture = s) textures))
  /\ Js.own table !! "__proto__" = None
  /\ Js.proto table
     = newFlumpTexture renderTexture
       <$> last (filter (fun texture => symbol texture = "__proto__") textures)
  /\ (is_Some (Js.own table !! s)
      <-> s ∈ symbol <$> textures /\ s <> "__proto__").
Proof.
  intros atlas table. split; [reflexivity|].
  destruct (atlas_fold symbol (newFlumpTexture renderTexture) textures
              Js.blank (lookup_empty _)) as (Hown & Hnone & Hproto).
  change (foldl _ Js.blank textures) with table in Hown, Hnone, Hproto.
  assert (Hlook : s <> "__proto__" ->
                  Js.own table !! s
                  = newFlumpTexture renderTexture
                    <$> last (filter (fun texture => symbol texture = s) textures)).
  { intros Hs. rewrite (Hown s Hs). cbn [Js.blank Js.own].
    rewrite lookup_empty. destruct (last _); reflexivity. }
  split; [exact Hlook|].
  split; [exact Hnone|].
  split; [rewrite Hproto; destruct (last _); reflexivity|].
  destruct (decide (s = "__proto__")) as [->|Hs].
  - rewrite Hnone.
    split; [intros [x Hx]; discriminate | intros [_ Hne]; congruence].
  - rewrite (Hlook Hs), list_elem_of_fmap.
    destruct (last (filter (fun texture => symbol texture = s) textures))
      as [texture|] eqn:Hlast; simpl.
    + split; [intros _|eauto].
      apply last_Some_elem_of in Hlast.
      apply list_elem_of_filter in Hlast as [Hsym Hin]. eauto.
    + split; [intros [x Hx]; discriminate|].
      intros [(texture & Hsym & Hin) _]. apply last_None in Hlast.
      assert (Hf : texture ∈ filter (fun texture => symbol texture = s) textures).
      { apply list_elem_of_filter. auto. }
      rewrite Hlast in Hf. inversion Hf.
Qed.

(** * Plain objects as tables *)

Section Tables.
Context {V : Type} `{Js.Shape V}.

Lemma get_holds (name : string) (obj : Js.table V) (v : V) :
  Js.get name obj = Js.Holds v <-> Js.holds name obj = Some v.
Proof.
  unfold Js.holds. destruct (Js.get name obj); split; intros Hx;
    inversion Hx; reflexivity.
Qed.

Lemma holds_blank (name : string) : Js.holds name (Js.blank (V := V)) = None.
Proof.
  unfold Js.holds, Js.get, Js.blank. cbn [Js.own Js.proto].
  rewrite lookup_empty. destruct (Js.inherited name); reflexivity.
Qed.

Lemma holds_set_eq (name : string) (v : V) (obj : Js.table V) :
  Js.holds name (Js.set name v obj) = Some v.
Proof.
  unfold Js.holds, Js.get, Js.set.
  destruct (String.eqb_spec name "__proto__") as [->|Hne]; simpl.
  - destruct (Js.own obj !! "__proto__") as [x|] eqn:Hown; simpl.
    + rewrite lookup_insert_eq. reflexivity.
    + rewrite Hown. reflexivity.
  - rewrite lookup_insert_eq. reflexivity.
Qed.

Lemma holds_set_ne (name name' : string) (v : V) (obj : Js.table V) :
  name <> name' ->
  Js.holds name' (Js.set name v obj) = Js.holds name' obj.
Proof.
  intros Hne. unfold Js.holds, Js.get, Js.set.
  destruct (String.eqb_spec name "__proto__") as [->|Hp]; simpl.
  - destruct (Js.own obj !! "__proto__") as [x|] eqn:Hown; simpl.
    + rewrite lookup_insert_ne by exact Hne. reflexivity.
    + destruct (Js.own obj !! name') as [y|]; [reflexivity|].
      assert (Hname : String.eqb name' "__proto__" = false)
        by (apply String.eqb_neq; congruence).
      rewrite Hname.
      destruct (Js.proto obj) as [p|]; [destruct (Js.field p name')|];
        destruct (Js.field v name'); destruct (Js.inherited name');
        reflexivity.
  - rewrite lookup_insert_ne by exact Hne. reflexivity.
Qed.

(** Without an assignment to [__proto__], the prototype stays and a name
    that is not assigned to finds what it found. *)
Lemma get_set_ne (name name' : string) (v : V) (obj : Js.table V) :
  name <> "__proto__" -> name <> name' ->
  Js.proto (Js.set name v obj) = Js.proto obj
  /\ Js.get name' (Js.set name v obj) = Js.get name' obj.
Proof.
  intros Hp Hne. rewrite (set_other_name _ _ _ Hp).
  split; [reflexivity|].
  unfold Js.get. cbn [Js.own Js.proto].
  rewrite lookup_insert_ne by exact Hne. reflexivity.
Qed.

End Tables.

(** * Sprite sheets *)

Section SheetGrid.
Context {Img : Type} `{Sheet.Dom Img}.
Context (fw fh cap rx ry : Z).
Hypothesis fw_pos : (0 < fw)%Z.
Hypothesis fh_pos : (0 < fh)%Z.

Let cell (img : Img) (row col : Z) : Sheet.Frame Img :=
  Sheet.mkFrame (Some img) (Sheet.mkRect (col * fw) (row * fh) fw fh) rx ry.

(** One row, from column [col] on, with [frameCount] frames made so far. *)
Lemma scanRow_spec (img : Img) (imgW row : Z) :
  forall (fuel : nat) (col : Z) (frames : list (Sheet.Frame Img)) (frameCount : Z),
    (0 <= col)%Z ->
    (Z.to_nat (imgW / fw - col) < fuel)%nat ->
    let rest := cell img row <$> seqZ col (imgW / fw - col) in
    Sheet.scanRow fw fh 0 0 cap rx ry fuel img imgW (row * fh) (col * fw)
      frames frameCount
    = Some (frames ++ take (Z.to_nat (cap - frameCount)) rest,
            (frameCount + Z.of_nat (length (take (Z.to_nat (cap - frameCount)) rest)))%Z,
            bool_decide (Z.to_nat (cap - frameCount) < length rest)%nat).
Proof.
  induction fuel as [|fuel IH]; intros col frames frameCount Hcol Hfuel rest;
    [lia|].
  simpl. 
  assert (Hdiv : (col * fw <= imgW - 0 - fw)%Z <-> (col < imgW / fw)%Z).
  { rewrite Z.sub_0_r. split; intros Hx.
    - apply Z.lt_le_trans with (m := ((col * fw + fw) / fw)%Z).
      + rewrite Z.div_add_l by lia. rewrite Z.div_same by lia. lia.
      + apply Z.div_le_mono; lia.
    - assert (col + 1 <= imgW / fw)%Z by lia.
      assert ((col + 1) * fw <= imgW)%Z; [|lia].
      transitivity (fw * (imgW / fw))%Z; [nia|].
      apply Z.mul_div_le. lia. }
  destruct (Z.leb_spec (col * fw) (imgW - 0 - fw)) as [Hin|Hout].
  - apply Hdiv in Hin.
    assert (Hrest : rest = cell img row col
                           :: (cell img row <$> seqZ (col + 1) (imgW / fw - (col + 1)))).
    { subst rest. rewrite (seqZ_cons col) by lia. simpl.
      repeat f_equal; lia. }
    destruct (Z.leb_spec cap frameCount) as [Hcap|Hroom].
    + replace (Z.to_nat (cap - frameCount)) with 0%nat by lia.
      rewrite Hrest. simpl. rewrite app_nil_r, Z.add_0_r. reflexivity.
    + replace ((col * fw + (fw + 0)))%Z with ((col + 1) * fw)%Z by lia.
      rewrite IH by lia. rewrite Hrest.
      set (k := Z.to_nat (cap - (frameCount + 1))).
      replace (Z.to_nat (cap - frameCount)) with (S k) by lia.
      cbn [firstn length]. rewrite Nat2Z.inj_succ.
      f_equal. f_equal; [f_equal|].
      * rewrite <- app_assoc. reflexivity.
      * lia.
      * apply bool_decide_ext. lia.
  - assert (Hnone : rest = []).
    { subst rest. rewrite seqZ_nil; [reflexivity|]. 
      destruct (Z.le_gt_cases (imgW / fw - col) 0) as [|Hpos]; [assumption|].
      exfalso. assert (col * fw <= imgW - 0 - fw)%Z by (apply Hdiv; lia). lia. }
    rewrite Hnone, take_nil. simpl. rewrite app_nil_r, Z.add_0_r. reflexivity.
Qed.

Lemma row_in_range (imgH row : Z) :
  (row * fh <= imgH - 0 - fh)%Z <-> (row < imgH / fh)%Z.
Proof.
  rewrite Z.sub_0_r. split; intros Hy.
  - apply Z.lt_le_trans with (m := ((row * fh + fh) / fh)%Z).
    + rewrite Z.div_add_l by lia. rewrite Z.div_same by lia. lia.
    + apply Z.div_le_mono; lia.
  - assert ((row + 1) * fh <= imgH)%Z; [|lia].
    transitivity (fh * (imgH / fh))%Z; [nia|].
    apply Z.mul_div_le. lia.
Qed.

(** One image, from row [row] on. *)
Lemma scanColumn_spec (img : Img) (budget : nat) :
  (Z.to_nat (Sheet.imgWidth img / fw) < budget)%nat ->
  forall (fuel : nat) (row : Z) (frames : list (Sheet.Frame Img)) (frameCount : Z),
    (0 <= row)%Z ->
    (Z.to_nat (Sheet.imgHeight img / fh - row) < fuel)%nat ->
    let rest := concat (rowCells fw fh rx ry img
                        <$> seqZ row (Sheet.imgHeight img / fh - row)) in
    let k := Z.to_nat (cap - frameCount) in
    Sheet.scanColumn fw fh 0 0 cap rx ry fuel budget img
      (Sheet.imgWidth img) (Sheet.imgHeight img) (row * fh) frames frameCount
    = Some (frames ++ take k rest,
            (frameCount + Z.of_nat (length (take k rest)))%Z,
            bool_decide (k < length rest)%nat).
Proof.
  intros Hbudget.
  induction fuel as [|fuel IH]; intros row frames frameCount Hrow Hfuel rest k;
    [lia|].
  simpl.
  destruct (Z.leb_spec (row * fh) (Sheet.imgHeight img - 0 - fh)) as [Hin|Hout].
  - apply row_in_range in Hin.
    pose proof (scanRow_spec img (Sheet.imgWidth img) row budget 0 frames
                  frameCount ltac:(lia) ltac:(lia)) as Hscan.
    cbv zeta in Hscan. rewrite Z.sub_0_r in Hscan.
    change (0 * fw)%Z with 0%Z in Hscan. rewrite Hscan. clear Hscan.
    fold (rowCells fw fh rx ry img row). fold k.
    set (here := rowCells fw fh rx ry img row).
    set (below := concat (rowCells fw fh rx ry img
                          <$> seqZ (row + 1) (Sheet.imgHeight img / fh - (row + 1)))).
    assert (Hrest : rest = here ++ below).
    { subst rest here below. rewrite (seqZ_cons row) by lia. simpl.
      repeat f_equal; lia. }
    destruct (decide (k < length here)%nat) as [Hcut|Hall].
    + rewrite bool_decide_true by exact Hcut.
      rewrite Hrest, take_app_le by lia.
      rewrite bool_decide_true by (rewrite length_app; lia). reflexivity.
    + rewrite bool_decide_false by exact Hall.
      replace ((row * fh + (fh + 0)))%Z with ((row + 1) * fh)%Z by lia.
      rewrite IH by lia. fold below.
      rewrite (take_ge here) by lia.
      rewrite Hrest, take_app_ge by lia.
      rewrite !length_app, <- app_assoc.
      replace (Z.to_nat (cap - (frameCount + Z.of_nat (length here))))
        with (k - length here)%nat by lia.
      f_equal. f_equal; [f_equal|].
      * lia.
      * apply bool_decide_ext. lia.
  - assert (Hnone : rest = []).
    { subst rest. rewrite seqZ_nil; [reflexivity|].
      destruct (Z.le_gt_cases (Sheet.imgHeight img / fh - row) 0) as [|Hpos];
        [assumption|].
      exfalso.
      assert (row * fh <= Sheet.imgHeight img - 0 - fh)%Z
        by (apply row_in_range; lia).
      lia. }
    rewrite Hnone, take_nil. simpl. rewrite app_nil_r, Z.add_0_r. reflexivity.
Qed.

Lemma enoughFuel_covers (imgs : list Img) (img : Img) :
  img ∈ imgs ->
  (Z.to_nat (Sheet.imgWidth img / fw) < enoughFuel imgs)%nat
  /\ (Z.to_nat (Sheet.imgHeight img / fh) < enoughFuel imgs)%nat.
Proof.
  unfold enoughFuel. intros Hin.
  assert (Hmax : (Z.max (Sheet.imgWidth img) (Sheet.imgHeight img)
                  <= foldr Z.max 0
                       ((fun img => Z.max (Sheet.imgWidth img) (Sheet.imgHeight img))
                        <$> imgs))%Z).
  { induction Hin as [img rest|img other rest Hin IH];
      rewrite fmap_cons; cbn [foldr]; lia. }
  assert (Hw : (Sheet.imgWidth img / fw <= Z.max 0 (Sheet.imgWidth img))%Z).
  { destruct (Z.le_gt_cases 0 (Sheet.imgWidth img)).
    - transitivity (Sheet.imgWidth img); [|lia].
      apply Z.div_le_upper_bound; nia.
    - assert (Sheet.imgWidth img / fw < 0)%Z; [|lia].
      apply Z.div_lt_upper_bound; lia. }
  assert (Hh : (Sheet.imgHeight img / fh <= Z.max 0 (Sheet.imgHeight img))%Z).
  { destruct (Z.le_gt_cases 0 (Sheet.imgHeight img)).
    - transitivity (Sheet.imgHeight img); [|lia].
      apply Z.div_le_upper_bound; nia.
    - assert (Sheet.imgHeight img / fh < 0)%Z; [|lia].
      apply Z.div_lt_upper_bound; lia. }
  lia.
Qed.

(** All the images. *)
Lemma scanImages_spec (fuel : nat) (imgs : list Img) :
  (forall img, img ∈ imgs ->
               (Z.to_nat (Sheet.imgWidth img / fw) < fuel)%nat
               /\ (Z.to_nat (Sheet.imgHeight img / fh) < fuel)%nat) ->
  forall (frames : list (Sheet.Frame Img)) (frameCount : Z),
    let k := Z.to_nat (cap - frameCount) in
    Sheet.scanImages fw fh 0 0 cap rx ry fuel imgs frames frameCount
    = Some (frames ++ take k (gridCells fw fh rx ry imgs),
            (frameCount
             + Z.of_nat (length (take k (gridCells fw fh rx ry imgs))))%Z).
Proof.
  induction imgs as [|img rest IH]; intros Hfuel frames frameCount k; simpl.
  - unfold gridCells. simpl. rewrite take_nil, app_nil_r. simpl.
    rewrite Z.add_0_r. reflexivity.
  - destruct (Hfuel img (list_elem_of_here _ _)) as [Hw Hh].
    pose proof (scanColumn_spec img fuel Hw fuel 0 frames frameCount
                  ltac:(lia) ltac:(lia)) as Hscan.
    cbv zeta in Hscan. rewrite Z.sub_0_r in Hscan.
    change (0 * fh)%Z with 0%Z in Hscan. rewrite Hscan. clear Hscan.
    fold (imageCells fw fh rx ry img). fold k.
    set (here := imageCells fw fh rx ry img).
    assert (Hcells : gridCells fw fh rx ry (img :: rest)
                     = here ++ gridCells fw fh rx ry rest) by reflexivity.
    destruct (decide (k < length here)%nat) as [Hcut|Hall].
    + rewrite bool_decide_true by exact Hcut.
      rewrite Hcells, take_app_le by lia. reflexivity.
    + rewrite bool_decide_false by exact Hall.
      rewrite IH by (intros i Hi; apply Hfuel, list_elem_of_further, Hi).
      rewrite (take_ge here) by lia.
      rewrite Hcells, take_app_ge by lia.
      rewrite !length_app, <- app_assoc.
      replace (Z.to_nat (cap - (frameCount + Z.of_nat (length here))))
        with (k - length here)%nat by lia.
      f_equal. f_equal. lia.
Qed.

End SheetGrid.

Section SheetFrames.
Context {Img : Type} `{Sheet.Dom Img}.

Lemma gridCells_inside (fw fh rx ry : Z) (imgs : list Img)
  (frame : Sheet.Frame Img) :
  (0 < fw)%Z -> (0 < fh)%Z ->
  frame ∈ gridCells fw fh rx ry imgs ->
  exists img,
    img ∈ imgs
    /\ Sheet.image frame = Some img
    /\ Sheet.width (Sheet.rect frame) = fw
    /\ Sheet.height (Sheet.rect frame) = fh
    /\ (0 <= Sheet.x (Sheet.rect frame))%Z
    /\ (Sheet.x (Sheet.rect frame) + fw <= Sheet.imgWidth img)%Z
    /\ (0 <= Sheet.y (Sheet.rect frame))%Z
    /\ (Sheet.y (Sheet.rect frame) + fh <= Sheet.imgHeight img)%Z
    /\ Sheet.regX frame = rx /\ Sheet.regY frame = ry.
Proof.
  intros Hfw Hfh. unfold gridCells, imageCells, rowCells.
  rewrite list_elem_of_In, in_concat. intros (cells & Hcells & Hin).
  apply list_elem_of_In, list_elem_of_fmap in Hcells as (img & -> & Himg).
  apply in_concat in Hin as (row & Hrow & Hin).
  apply list_elem_of_In, list_elem_of_fmap in Hrow as (r & -> & Hr).
  apply list_elem_of_In, list_elem_of_fmap in Hin as (c & -> & Hc).
  apply elem_of_seqZ in Hr, Hc. exists img. simpl.
  assert (fw * (Sheet.imgWidth img / fw) <= Sheet.imgWidth img)%Z
    by (apply Z.mul_div_le; lia).
  assert (fh * (Sheet.imgHeight img / fh) <= Sheet.imgHeight img)%Z
    by (apply Z.mul_div_le; lia).
  repeat split; try reflexivity; try assumption; nia.
Qed.

(** X9: for a grid of frames of positive width and height over loaded
    images, [_calculateFrames] ends (a fuel above the largest image measure
    suffices) and the frames it makes are the cells of the grid, image after
    image and row after row, cut off at the frame count of the data (at
    100000 when that count is absent or 0); [_numFrames] becomes their number
    and nothing else changes.  Each frame lies within its image. *)
Theorem X9_calculateFrames_grid (this : Sheet.t Img) (imgs : list Img)
  (fuel : nat) :
  Sheet._frames this = None ->
  (0 < Sheet._frameWidth this)%Z ->
  (0 < Sheet._frameHeight this)%Z ->
  Sheet._images this = Some imgs ->
  (enoughFuel imgs <= fuel)%nat ->
  let cells :=
    take (Z.to_nat (maxFramesOf this))
      (gridCells (Sheet._frameWidth this) (Sheet._frameHeight this)
         (Sheet._regX this) (Sheet._regY this) imgs) in
  Sheet._calculateFrames fuel this
  = Some (Returns (Sheet.set_numFrames (Some (Z.of_nat (length cells)))
                     (Sheet.set_frames (Some cells) this)))
  /\ (length cells <= Z.to_nat (maxFramesOf this))%nat
  /\ (forall frame,
         frame ∈ cells ->
         exists img,
           img ∈ imgs
           /\ Sheet.image frame = Some img
           /\ Sheet.width (Sheet.rect frame) = Sheet._frameWidth this
           /\ Sheet.height (Sheet.rect frame) = Sheet._frameHeight this
           /\ (0 <= Sheet.x (Sheet.rect frame))%Z
           /\ (Sheet.x (Sheet.rect frame) + Sheet._frameWidth this
               <= Sheet.imgWidth img)%Z
           /\ (0 <= Sheet.y (Sheet.rect frame))%Z
           /\ (Sheet.y (Sheet.rect frame) + Sheet._frameHeight this
               <= Sheet.imgHeight img)%Z
           /\ Sheet.regX frame = Sheet._regX this
           /\ Sheet.regY frame = Sheet._regY this).
Proof.
  intros Hframes Hfw Hfh Himgs Hfuel cells. split; [|split].
  - unfold Sheet._calculateFrames. rewrite Hframes.
    replace (Sheet._frameWidth this =? 0)%Z with false by lia.
    simpl. rewrite Himgs.
    destruct this; simpl in *.
    rewrite (scanImages_spec _ _ _ _ _ Hfw Hfh fuel imgs).
    + simpl. rewrite Z.sub_0_r. reflexivity.
    + intros img Hin.
      destruct (enoughFuel_covers _ _ Hfw Hfh imgs img Hin). lia.
  - subst cells. rewrite length_take. lia.
  - intros frame Hin. apply subseteq_take in Hin.
    exact (gridCells_inside _ _ _ _ _ _ Hfw Hfh Hin).
Qed.

End SheetFrames.

Lemma X9_calculateFrames_grid_witness :
  let cell col row :=
    SpriteSheet.mkFrame (Some Pictures.strip)
      (SpriteSheet.mkRect col row 32 16) 1 2 in
  Sheet._calculateFrames (H := Pictures.dom) 100 Pictures.cutting
  = Some (Returns (Sheet.set_numFrames (Some 3%Z)
                     (Sheet.set_frames (Some [cell 0 0; cell 32 0; cell 0 16]%Z)
                        Pictures.cutting))).
Proof.
  intros cell.
  exact (proj1 (X9_calculateFrames_grid (H := Pictures.dom) Pictures.cutting
                  [Pictures.strip] 100 eq_refl eq_refl eq_refl eq_refl
                  ltac:(vm_compute; lia))).
Defined.

Section SheetLoading.
Context {Img : Type} `{Sheet.Dom Img}.

Lemma scanColumn_hangs (fw cap rx ry : Z) (img : Img) (budget : nat) :
  (Sheet.imgWidth img < fw)%Z ->
  (0 <= Sheet.imgHeight img)%Z ->
  forall (fuel : nat) (frames : list (Sheet.Frame Img)) (frameCount : Z),
    Sheet.scanColumn fw 0 0 0 cap rx ry fuel budget img
      (Sheet.imgWidth img) (Sheet.imgHeight img) 0 frames frameCount = None.
Proof.
  intros Hnarrow Htall.
  induction fuel as [|fuel IH]; intros frames frameCount; simpl; [reflexivity|].
  replace (0 <=? Sheet.imgHeight img - 0 - 0)%Z with true by lia.
  destruct budget as [|budget]; simpl; [reflexivity|].
  replace (0 <=? Sheet.imgWidth img - 0 - fw)%Z with false by lia.
  apply IH.
Qed.

(** X10: on a sheet whose frames have not been computed yet ([_frames] is
    null), with a frame height of 0, a frame width other than 0 and a first
    image of non-negative height that is narrower than a frame,
    [_calculateFrames] never ends: no row holds a frame, so the frame cap is
    never reached, and the row position does not advance. *)
Theorem X10_calculateFrames_hangs (this : Sheet.t Img) (img : Img)
  (imgs : list Img) (fuel : nat) :
  Sheet._frames this = None ->
  Sheet._frameHeight this = 0%Z ->
  Sheet._images this = Some (img :: imgs) ->
  (Sheet.imgWidth img < Sheet._frameWidth this)%Z ->
  (0 <= Sheet.imgHeight img)%Z ->
  (Sheet._frameWidth this <> 0)%Z ->
  Sheet._calculateFrames fuel this = None.
Proof.
  intros Hframes Hfh Himgs Hnarrow Htall Hfw.
  unfold Sheet._calculateFrames. rewrite Hframes.
  replace (Sheet._frameWidth this =? 0)%Z with false by lia.
  simpl. destruct this; simpl in *. subst. simpl.
  rewrite scanColumn_hangs by assumption. reflexivity.
Qed.

Lemma handleImageLoad_waiting (fuel : nat) (this : Sheet.t Img) :
  Sheet.loadCount this <> 1%Z ->
  Sheet._handleImageLoad fuel this
  = Some (Returns (Sheet.set_loadCount (Sheet.loadCount this - 1) this)).
Proof.
  intros Hmore. unfold Sheet._handleImageLoad.
  destruct this; simpl in *.
  replace (loadCount - 1 =? 0)%Z with false by lia. reflexivity.
Qed.

Lemma loadEvents_waiting (fuel : nat) :
  forall (n : nat) (this : Sheet.t Img),
    (Sheet.loadCount this <= 0 \/ Z.of_nat n < Sheet.loadCount this)%Z ->
    loadEvents fuel n this
    = Some (Returns (Sheet.set_loadCount (Sheet.loadCount this - Z.of_nat n) this)).
Proof.
  induction n as [|n IH]; intros this Hcount.
  - simpl. destruct this; simpl. rewrite Z.sub_0_r. reflexivity.
  - cbn [loadEvents]. rewrite handleImageLoad_waiting by lia.
    cbn [Sheet.andThen]. rewrite IH by (destruct this; simpl in *; lia).
    rewrite Nat2Z.inj_succ. destruct this; simpl.
    replace (loadCount - Z.succ (Z.of_nat n))%Z
      with (loadCount - 1 - Z.of_nat n)%Z by lia.
    reflexivity.
Qed.

(** X11: load events count the pending images down.  While fewer events
    have arrived than images are pending, each event only lowers [loadCount];
    the event that brings it to 0 computes the frames, sets [complete] and
    dispatches "complete", once.  On a sheet that is not waiting
    ([loadCount <= 0]) an event lowers [loadCount] below 0 and nothing else
    ever happens. *)
Theorem X11_load_events (fuel : nat) (this : Sheet.t Img) (n : nat) :
  ((Z.of_nat n < Sheet.loadCount this)%Z ->
   loadEvents fuel n this
   = Some (Returns (Sheet.set_loadCount (Sheet.loadCount this - Z.of_nat n) this)))
  /\ (Sheet.loadCount this = Z.of_nat (S n) ->
      loadEvents fuel (S n) this
      = Sheet.andThen (Sheet._calculateFrames fuel (Sheet.set_loadCount 0 this))
          (fun this =>
             Some (Returns (Sheet.set_dispatched
                              (Sheet.dispatched this ++ ["complete"])
                              (Sheet.set_complete true this)))))
  /\ ((Sheet.loadCount this <= 0)%Z ->
      loadEvents fuel n this
      = Some (Returns (Sheet.set_loadCount (Sheet.loadCount this - Z.of_nat n) this))).
Proof.
  split; [|split].
  - intros Hless. apply loadEvents_waiting. lia.
  - intros Hlast.
    replace (S n) with (n + 1)%nat by lia.
    assert (Hsplit : forall a b t,
               loadEvents fuel (a + b) t
               = Sheet.andThen (loadEvents fuel a t) (loadEvents fuel b)).
    { induction a as [|a IHa]; intros b t; [reflexivity|].
      cbn [Nat.add loadEvents].
      destruct (Sheet._handleImageLoad fuel t) as [[t'|e]|]; simpl; auto. }
    rewrite Hsplit, loadEvents_waiting by lia.
    cbn [Sheet.andThen loadEvents]. unfold Sheet._handleImageLoad.
    destruct this; simpl in *.
    replace (loadCount - Z.of_nat n - 1 =? 0)%Z with true by lia.
    replace (loadCount - Z.of_nat n - 1)%Z with 0%Z by lia.
    destruct (Sheet._calculateFrames fuel _) as [[t'|e]|]; reflexivity.
  - intros Hidle. apply loadEvents_waiting. lia.
Qed.

End SheetLoading.

Section SheetInitialize.
Context {Img : Type} `{Sheet.Dom Img}.

Lemma waiting_cons (img : Img) (imgs : list Img) :
  waiting (img :: imgs)
  = if pending img then img :: waiting imgs else waiting imgs.
Proof.
  unfold waiting.
  rewrite (filter_cons (fun img => pending img = true) img imgs).
  destruct (decide (pending img = true)) as [Hp|Hp].
  - rewrite Hp. reflexivity.
  - apply not_true_is_false in Hp. rewrite Hp. reflexivity.
Qed.

Lemma parseImages_spec (specs : list (Sheet.ImageSpec Img)) :
  forall (this : Sheet.t Img) (l : list Img),
    Sheet._images this = Some l ->
    Sheet.parseImages specs this
    = Sheet.set_complete
        (if decide (waiting (toImg <$> specs) = []) then Sheet.complete this
         else false)
        (Sheet.set_loadCount
           (Sheet.loadCount this
            + Z.of_nat (length (waiting (toImg <$> specs))))
           (Sheet.set_images (Some (l ++ (toImg <$> specs))) this)).
Proof.
  induction specs as [|spec rest IH]; intros this l Himgs.
  - destruct this; simpl in *. subst. rewrite app_nil_r, Z.add_0_r. reflexivity.
  - cbn [Sheet.parseImages]. fold (toImg spec).
    change (negb (Sheet.imgHasContext (toImg spec))
            && negb (Sheet.imgComplete (toImg spec)))
      with (pending (toImg spec)).
    rewrite fmap_cons, waiting_cons.
    destruct (pending (toImg spec)).
    + rewrite (IH _ (l ++ [toImg spec]))
        by (destruct this; simpl in *; subst; reflexivity).
      destruct (decide (toImg spec :: waiting (toImg <$> rest) = []))
        as [Hd|_]; [discriminate|].
      destruct this; simpl in *. subst.
      rewrite <- app_assoc. simpl.
      replace (loadCount + 1 + Z.of_nat (length (waiting (toImg <$> rest))))%Z
        with (loadCount
              + Z.pos (Pos.of_succ_nat (length (waiting (toImg <$> rest)))))%Z
        by lia.
      destruct (decide (waiting (toImg <$> rest) = [])); reflexivity.
    + rewrite (IH _ (l ++ [toImg spec]))
        by (destruct this; simpl in *; subst; reflexivity).
      destruct this; simpl in *. subst.
      rewrite <- app_assoc. reflexivity.
Qed.

Lemma frames_of_sequence (images : list string) (w h : Z) :
  Sheet.parseFrame (Sheet.createImg <$> images)
  <$> imap (fun index _ =>
              Sheet.mkFrameDef 0 0 w h (Some (Z.of_nat index)) (Some 0%Z) (Some 0%Z))
        images
  = (fun src => Sheet.mkFrame (Some (Sheet.createImg src))
                  (Sheet.mkRect 0 0 w h) 0 0) <$> images.
Proof.
  apply list_eq. intros i.
  rewrite !list_lookup_fmap, list_lookup_imap.
  destruct (images !! i) as [src|] eqn:Hi; simpl; [|reflexivity].
  unfold Sheet.parseFrame, Sheet.at_index.
  cbn [Sheet.defImage Sheet.defX Sheet.defY Sheet.defWidth Sheet.defHeight
       Sheet.defRegX Sheet.defRegY default]. unfold id.
  destruct (Z.leb_spec 0 (Z.of_nat i)) as [_|Hneg]; [|lia].
  rewrite Nat2Z.id, list_lookup_fmap, Hi. reflexivity.
Qed.

(** The sheet that [createFromString] builds. *)
Lemma createFromString_result (fuel : nat) (images : list string) (w h : Z) :
  let imgs := Sheet.createImg <$> images in
  let n := Z.of_nat (length images) in
  Sheet.createFromString fuel images w h
  = Some (Returns
      (Sheet.mk
         (if decide (waiting imgs = []) then true else false)
         0
         (Some ["animation"])
         (Some ((fun src => Sheet.mkFrame (Some (Sheet.createImg src))
                              (Sheet.mkRect 0 0 w h) 0 0) <$> images))
         (match images with [] => None | _ :: _ => Some imgs end)
         (Some (Js.Table
                  (<["animation" :=
                     Sheet.mkAnim "animation" (seqZ 0 n) 1
                       (if (n <? 2)%Z then None else Some "animation")]> ∅)
                  None))
         (Z.of_nat (length (waiting imgs)))
         0 0 (Some 0%Z) 0 0 false None [])).
Proof.
  intros imgs n. subst imgs n.
  unfold Sheet.createFromString, Sheet.constructor, Sheet.initialize,
    Sheet.createSequenceDataFromString.
  cbn [Sheet.dataFramerate Sheet.dataImages Sheet.dataFrames
       Sheet.dataAnimations].
  destruct images as [|src rest]; [reflexivity|].
  set (images := src :: rest).
  set (n := Z.of_nat (length images)).
  assert (Hrange : Sheet.range 0 (n - 1) = seqZ 0 n).
  { unfold Sheet.range. f_equal. lia. }
  assert (Hlen : ((length (seqZ 0 n) <? 2)%nat = (n <? 2)%Z)).
  { rewrite length_seqZ.
    destruct (Z.ltb_spec n 2), (Nat.ltb_spec (Z.to_nat n) 2);
      try reflexivity; lia. }
  assert (Hspecs : Sheet.Src <$> images
                   = Sheet.Src src :: (Sheet.Src (Img := Img) <$> rest))
    by reflexivity.
  rewrite Hspecs, <- Hspecs.
  rewrite (parseImages_spec _ _ []) by reflexivity.
  rewrite <- list_fmap_compose.
  change (toImg ∘ Sheet.Src) with (Sheet.createImg (Img := Img)).
  rewrite app_nil_l.
  assert (Hdefs : exists d ds,
             imap (fun index (_ : string) =>
                     Sheet.mkFrameDef 0 0 w h (Some (Z.of_nat index))
                       (Some 0%Z) (Some 0%Z)) images = d :: ds)
    by (do 2 eexists; reflexivity).
  destruct Hdefs as (d & ds & Hdefs).
  cbn [Sheet.set_frames Sheet._images Sheet.set_complete
    Sheet.set_loadCount Sheet.set_images Sheet.set_framerate Sheet.fresh
    Sheet.complete Sheet.loadCount Sheet.framerate Sheet._animations
    Sheet._frames Sheet._data Sheet._frameHeight Sheet._frameWidth
    Sheet._numFrames Sheet._regX Sheet._regY Sheet._hasLoaded Sheet.url
    Sheet.dispatched].
  rewrite Hdefs, <- Hdefs. rewrite frames_of_sequence.
  cbn [Sheet.andThen Sheet.parseAnimations Sheet.parseAnimation].
  rewrite Hrange. cbn [Js.bind]. rewrite Hlen.
  change (String.eqb "animation" "animation") with true.
  rewrite andb_true_r.
  destruct (n <? 2)%Z; reflexivity.
Qed.

(** X12: [createFromString(images, width, height)] returns a sheet with one
    frame per image, in order, each covering the rectangle (0, 0, width,
    height) of its own image with registration point (0, 0), and one
    animation, "animation", that runs through all frames at speed 1; the
    animation loops onto itself when there are two images at least and stops
    otherwise.  [loadCount] is the number of images still to load. *)
Theorem X12_createFromString (fuel : nat) (images : list string) (w h : Z) :
  let imgs := Sheet.createImg <$> images in
  let n := Z.of_nat (length images) in
  exists sheet,
    Sheet.createFromString fuel images w h = Some (Returns sheet)
    /\ Sheet.getNumFrames None sheet = Returns (Some n)
    /\ Sheet.getNumFrames (Some "animation") sheet = Returns (Some n)
    /\ Sheet.getAnimations sheet = Returns ["animation"]
    /\ Sheet.getAnimation "animation" sheet
       = Returns (Js.Holds (Sheet.mkAnim "animation" (seqZ 0 n) 1
                              (if (n <? 2)%Z then None else Some "animation")))
    /\ (forall i,
           Sheet.getFrame i sheet
           = (fun src => Sheet.mkFrame (Some (Sheet.createImg src))
                           (Sheet.mkRect 0 0 w h) 0 0)
             <$> Sheet.at_index images i)
    /\ (forall i,
           Sheet.getFrameBounds i None sheet
           = (fun _ => Sheet.mkRect 0 0 w h) <$> Sheet.at_index images i)
    /\ Sheet.loadCount sheet = Z.of_nat (length (waiting imgs))
    /\ (Sheet.complete sheet = true <-> waiting imgs = []).
Proof.
  intros imgs n. eexists. split; [apply createFromString_result|].
  assert (Hframe : forall i,
             Sheet.at_index
               ((fun src => Sheet.mkFrame (Some (Sheet.createImg src))
                              (Sheet.mkRect 0 0 w h) 0 0) <$> images) i
             = (fun src => Sheet.mkFrame (Some (Sheet.createImg src))
                             (Sheet.mkRect 0 0 w h) 0 0)
               <$> Sheet.at_index images i).
  { intros i. unfold Sheet.at_index.
    destruct (0 <=? i)%Z; [apply list_lookup_fmap | reflexivity]. }
  unfold Sheet.getNumFrames, Sheet.getAnimations, Sheet.getAnimation,
    Sheet.getFrameBounds, Sheet.getFrame.
  cbn [Sheet._frames Sheet._data Sheet._animations Sheet.loadCount
       Sheet.complete].
  unfold Js.get. cbn [Js.own]. rewrite lookup_insert_eq, length_fmap.
  cbn [Sheet.frames]. rewrite length_seqZ. subst n. rewrite Nat2Z.id.
  split; [reflexivity|]. split; [reflexivity|]. split; [reflexivity|].
  split; [reflexivity|]. split; [exact Hframe|]. split; [|split].
  - intros i. rewrite Hframe.
    destruct (Sheet.at_index images i); reflexivity.
  - reflexivity.
  - fold imgs. destruct (decide (waiting imgs = [])); split; auto; discriminate.
Qed.

Lemma andThen_returns {A B : Type} (m : option (Js.outcome A))
  (k : A -> option (Js.outcome B)) (b : B) :
  Sheet.andThen m k = Some (Returns b) ->
  exists a, m = Some (Returns a) /\ k a = Some (Returns b).
Proof. destruct m as [[a|e]|]; simpl; [eauto | discriminate | discriminate]. Qed.

(** Unless it is a one-element array, an entry is parsed the same way
    whatever the variable [a] held before. *)
Lemma parseAnimation_alone (name : string) (obj : Sheet.AnimSpec)
  (a : option nat) :
  ~ one_element obj ->
  Sheet.parseAnimation name obj a = Sheet.parseAnimation name obj None.
Proof. destruct obj; simpl; [reflexivity | tauto | reflexivity | reflexivity]. Qed.

Lemma parseAnimation_settled (name : string) (obj : Sheet.AnimSpec)
  (a : option nat) :
  ~ one_element obj ->
  exists anim a',
    Sheet.parseAnimation name obj a = Returns (anim, a')
    /\ Sheet.name anim = name
    /\ settled anim.
Proof.
  assert (Hone : Sheet.truthy 1 = true) by reflexivity.
  assert (Hspeed : forall speed : option float,
             Sheet.truthy match speed with
                          | Some speed => if Sheet.truthy speed then speed else 1
                          | None => 1
                          end = true).
  { intros [speed|]; [|exact Hone].
    destruct (Sheet.truthy speed) eqn:Hs; [exact Hs | exact Hone]. }
  assert (Hcore : forall (fs : list Z) (next : Sheet.NextSpec)
                         (speed : option float) (len : nat),
             len = length fs ->
             exists anim a',
               (let next0 :=
                  match next with
                  | Sheet.NextBool true | Sheet.NextUndefined => Sheet.NextName name
                  | _ => next
                  end in
                let speed0 :=
                  match speed with
                  | Some speed => if Sheet.truthy speed then speed else 1
                  | None => 1
                  end in
                match next0 with
                | Sheet.NextBool _ =>
                    Returns (Sheet.mkAnim name fs speed0 None, Some len)
                | Sheet.NextNull | Sheet.NextUndefined =>
                    Returns (Sheet.mkAnim name fs speed0 None, Some len)
                | Sheet.NextName n =>
                    if (len <? 2)%nat && String.eqb n name
                    then Returns (Sheet.mkAnim name fs speed0 None, Some len)
                    else Returns (Sheet.mkAnim name fs speed0 (Some n), Some len)
                end) = Returns (anim, a')
               /\ Sheet.name anim = name
               /\ settled anim).
  { intros fs next speed len ->. unfold settled. cbv zeta.
    assert (Hloop :
      forall n,
      exists anim a',
        (if (length fs <? 2)%nat && String.eqb n name
         then Returns (Sheet.mkAnim name fs
                         match speed with
                         | Some speed => if Sheet.truthy speed then speed else 1
                         | None => 1
                         end None, Some (length fs))
         else Returns (Sheet.mkAnim name fs
                         match speed with
                         | Some speed => if Sheet.truthy speed then speed else 1
                         | None => 1
                         end (Some n), Some (length fs))) = Returns (anim, a')
        /\ Sheet.name anim = name
        /\ Sheet.truthy (Sheet.speed anim) = true
        /\ (Sheet.next anim = Some (Sheet.name anim) ->
            (2 <= length (Sheet.frames anim))%nat)).
    { intros n.
      destruct ((length fs <? 2)%nat && String.eqb n name) eqn:Hstop;
        do 2 eexists; (split; [reflexivity|]); (split; [reflexivity|]);
        (split; [apply Hspeed|]); simpl; [discriminate|].
      intros Hself. inversion Hself; subst.
      rewrite String.eqb_refl, andb_true_r in Hstop.
      apply Nat.ltb_ge in Hstop. exact Hstop. }
    destruct next as [| |[|]|n]; try apply Hloop;
      do 2 eexists; (split; [reflexivity|]); (split; [reflexivity|]);
      (split; [apply Hspeed | discriminate]). }
  destruct obj as [frame|frame|start stop next speed|frames next speed];
    intros Hnot; [|simpl in Hnot; tauto| |].
  - exact (Hcore [frame] Sheet.NextUndefined None 1%nat eq_refl).
  - exact (Hcore (Sheet.range start stop) next speed _ eq_refl).
  - exact (Hcore match frames with inl frame => [frame] | inr frames => frames end
             next speed _ eq_refl).
Qed.

Lemma parseAnimations_spec (anims : list (string * Sheet.AnimSpec)) :
  Forall (fun entry => ~ one_element entry.2) anims ->
  forall (a : option nat) (this : Sheet.t Img) (names : list string)
         (d : Js.table Sheet.Anim),
    Sheet._animations this = Some names ->
    Sheet._data this = Some d ->
    exists this' d',
      Sheet.parseAnimations anims a this = Returns this'
      /\ Sheet._animations this' = Some (names ++ anims.*1)
      /\ Sheet._data this' = Some d'
      /\ (forall name anim,
             Js.holds name d' = Some anim ->
             Js.holds name d = Some anim
             \/ exists obj a',
                  (name, obj) ∈ anims
                  /\ Sheet.parseAnimation name obj None = Returns (anim, a'))
      /\ (forall name, name ∈ anims.*1 \/ is_Some (Js.holds name d) ->
                       is_Some (Js.holds name d'))
      /\ (NoDup (anims.*1) ->
          forall name obj,
            (name, obj) ∈ anims ->
            exists anim a',
              Sheet.parseAnimation name obj None = Returns (anim, a')
              /\ Js.holds name d' = Some anim)
      /\ ("__proto__" ∉ anims.*1 ->
          forall name, name ∉ anims.*1 -> Js.get name d' = Js.get name d).
Proof.
  induction 1 as [|[name obj] rest Hobj Hrest IH]; intros a this names d Hn Hd.
  - exists this, d. simpl. rewrite app_nil_r.
    split; [reflexivity|]. split; [exact Hn|]. split; [exact Hd|].
    split; [auto|]. split; [|split].
    + intros n [Hin|Hsome]; [inversion Hin | exact Hsome].
    + intros _ n o Hin. inversion Hin.
    + reflexivity.
  - simpl in Hobj. cbn [Sheet.parseAnimations].
    destruct (parseAnimation_settled name obj a Hobj) as (anim & a' & Hparse & _).
    rewrite Hparse. cbn [Js.bind].
    rewrite (parseAnimation_alone _ _ a Hobj) in Hparse.
    set (next := Sheet.set_data _ _).
    assert (Hn' : Sheet._animations next = Some (names ++ [name])).
    { subst next. destruct this; simpl in *. subst. reflexivity. }
    assert (Hd' : Sheet._data next = Some (Js.set name anim d)).
    { subst next. destruct this; simpl in *. subst. reflexivity. }
    destruct (IH a' next _ _ Hn' Hd')
      as (this' & d' & Hrun & Hnames & Hdata & Hfrom & Hdom & Hlast & Hrest').
    exists this', d'. split; [exact Hrun|].
    split; [rewrite Hnames, fmap_cons, <- app_assoc; reflexivity|].
    split; [exact Hdata|]. split; [|split; [|split]].
    + intros n x Hx. destruct (Hfrom n x Hx) as [Hold|(o & ax & Hin & Hp)].
      * destruct (decide (name = n)) as [<-|Hne].
        -- rewrite holds_set_eq in Hold. inversion Hold; subst.
           right. exists obj, a'. split; [apply list_elem_of_here | exact Hparse].
        -- rewrite holds_set_ne in Hold by exact Hne. auto.
      * right. exists o, ax. split; [apply list_elem_of_further, Hin | exact Hp].
    + intros n Hn0. apply Hdom.
      destruct (decide (name = n)) as [<-|Hne].
      * right. rewrite holds_set_eq. eauto.
      * rewrite holds_set_ne by exact Hne.
        destruct Hn0 as [Hin|Hsome]; [|auto].
        rewrite fmap_cons in Hin. apply elem_of_cons in Hin as [Heq|Hin];
          [simpl in Heq; congruence | auto].
    + rewrite fmap_cons. intros Hnodup n o Hin.
      apply NoDup_cons in Hnodup as [Hfresh Hnodup].
      apply elem_of_cons in Hin as [Heq|Hin].
      * inversion Heq; subst. exists anim, a'. split; [exact Hparse|].
        assert (Hhere : is_Some (Js.holds name (Js.set name anim d)))
          by (rewrite holds_set_eq; eauto).
        destruct (Hdom name (or_intror Hhere)) as [x Hx].
        destruct (Hfrom name x Hx) as [Hold|(o' & ax & Hin' & _)].
        -- rewrite holds_set_eq in Hold. congruence.
        -- exfalso. apply Hfresh.
           apply list_elem_of_fmap. exists (name, o'). auto.
      * apply (Hlast Hnodup n o Hin).
    + rewrite fmap_cons. cbn [fst]. intros Hproto n Hn0.
      apply not_elem_of_cons in Hproto as [Hp Hproto].
      apply not_elem_of_cons in Hn0 as [Hne Hn0].
      rewrite (Hrest' Hproto n Hn0).
      apply get_set_ne; congruence.
Qed.

Lemma calculateFrames_data (fuel : nat) (this this' : Sheet.t Img) :
  Sheet._calculateFrames fuel this = Some (Returns this') ->
  Sheet._data this' = Sheet._data this.
Proof.
  unfold Sheet._calculateFrames.
  destruct (bool_decide (is_Some (Sheet._frames this))
            || (Sheet._frameWidth this =? 0)%Z).
  - intros Hr. inversion Hr; subst. reflexivity.
  - destruct this; simpl. destruct _images as [imgs|]; [|discriminate].
    destruct (Sheet.scanImages _ _ _ _ _ _ _ _ _ _ _) as [[fs c]|];
      [|discriminate].
    intros Hr. inversion Hr; subst. reflexivity.
Qed.

(** What [initialize] hands to its last part, the animations. *)
Lemma initialize_animations (fuel : nat) (data : Sheet.Data Img)
  (this this' : Sheet.t Img) :
  Sheet.initialize fuel (Some data) this = Some (Returns this') ->
  exists mid a,
    Sheet._data mid = Sheet._data this
    /\ match Sheet.dataAnimations data with
       | Some o =>
           Sheet.parseAnimations o a
             (Sheet.set_data (Some Js.blank)
                (Sheet.set_animations (Some []) mid))
           = Returns this'
       | None => this' = Sheet.set_animations (Some []) mid
       end.
Proof.
  unfold Sheet.initialize.
  set (start := Sheet.set_framerate _ this).
  assert (Hstart : Sheet._data start = Sheet._data this)
    by (destruct this; reflexivity).
  assert (Himages :
    exists mid0 a0,
      match Sheet.dataImages data with
      | Some (spec :: specs) =>
          (Sheet.parseImages (spec :: specs) (Sheet.set_images (Some []) start),
           Some (length (spec :: specs)))
      | _ => (start, None)
      end = (mid0, a0)
      /\ Sheet._data mid0 = Sheet._data this).
  { destruct (Sheet.dataImages data) as [[|spec specs]|];
      try (do 2 eexists; split; [reflexivity | exact Hstart]).
    do 2 eexists. split; [reflexivity|].
    rewrite (parseImages_spec _ _ []) by (destruct start; reflexivity).
    destruct start; simpl in *. exact Hstart. }
  destruct Himages as (mid0 & a0 & -> & Hmid0).
  intros Hinit. apply andThen_returns in Hinit as ([mid a] & Hframes & Hrest).
  exists mid, a. split.
  - destruct (Sheet.dataFrames data) as [|defs|o].
    + inversion Hframes; subst. exact Hmid0.
    + destruct defs as [|def defs].
      * inversion Hframes; subst. destruct mid0; simpl in *. exact Hmid0.
      * destruct (Sheet._images (Sheet.set_frames (Some []) mid0)) as [imgs|];
          [|discriminate].
        inversion Hframes; subst. destruct mid0; simpl in *. exact Hmid0.
    + set (grid := Sheet.set_numFrames _ _) in Hframes.
      assert (Hgrid : Sheet._data grid = Sheet._data this)
        by (subst grid; destruct mid0; simpl in *; exact Hmid0).
      destruct (Sheet.loadCount grid =? 0)%Z.
      * apply andThen_returns in Hframes as (done & Hcalc & Hdone).
        inversion Hdone; subst.
        rewrite (calculateFrames_data _ _ _ Hcalc). exact Hgrid.
      * inversion Hframes; subst. exact Hgrid.
  - destruct (Sheet.dataAnimations data) as [o|].
    + inversion Hrest. reflexivity.
    + inversion Hrest. reflexivity.
Qed.

(** X13: when no animation of the data is a one-element array and
    [initialize] returns, [getAnimations] lists the names of the data in
    order, [getAnimation] finds an animation object under exactly these
    names, and every animation it finds bears its own name, has a speed that
    is neither 0 nor NaN (1 by default), and names itself as next only if it
    has two frames at least; it is what parsing its entry alone yields, so
    that a number gives a single frame that stops and [[start, end]] gives
    the frames from start to end, looping when there are two or more.  Under
    a name that is not listed, [getAnimation] finds no animation: when no
    animation is named [__proto__], it finds the member of [Object.prototype]
    of that name, if there is one, and [undefined] otherwise. *)
Theorem X13_animations_settled (fuel : nat) (data : Sheet.Data Img)
  (anims : list (string * Sheet.AnimSpec)) (this this' : Sheet.t Img) :
  Sheet.dataAnimations data = Some anims ->
  Forall (fun entry => ~ one_element entry.2) anims ->
  Sheet.initialize fuel (Some data) this = Some (Returns this') ->
  Sheet.getAnimations this' = Returns (anims.*1)
  /\ (forall name,
         (exists anim, Sheet.getAnimation name this' = Returns (Js.Holds anim))
         <-> name ∈ anims.*1)
  /\ (forall name anim,
         Sheet.getAnimation name this' = Returns (Js.Holds anim) ->
         Sheet.name anim = name /\ settled anim)
  /\ (NoDup (anims.*1) ->
      (forall name frame,
          (name, Sheet.Single frame) ∈ anims ->
          Sheet.getAnimation name this'
          = Returns (Js.Holds (Sheet.mkAnim name [frame] 1 None)))
      /\ (forall name start stop,
             (name, Sheet.Range start stop Sheet.NextUndefined None) ∈ anims ->
             Sheet.getAnimation name this'
             = Returns (Js.Holds
                          (Sheet.mkAnim name (seqZ start (stop - start + 1)) 1
                             (if (stop - start + 1 <? 2)%Z then None
                              else Some name)))))
  /\ ("__proto__" ∉ anims.*1 ->
      forall name,
        name ∉ anims.*1 ->
        Sheet.getAnimation name this'
        = Returns (if Js.inherited name then Js.Foreign false else Js.Missing)).
Proof.
  intros Hanims Hplain Hinit.
  destruct (initialize_animations _ _ _ _ Hinit) as (mid & a & _ & Hrun).
  rewrite Hanims in Hrun.
  destruct (parseAnimations_spec anims Hplain a
              (Sheet.set_data (Some Js.blank)
                 (Sheet.set_animations (Some []) mid))
              [] Js.blank ltac:(destruct mid; reflexivity)
              ltac:(destruct mid; reflexivity))
    as (this0 & d' & Hrun' & Hnames & Hdata & Hfrom & Hdom & Hlast & Hrest).
  rewrite Hrun in Hrun'. inversion Hrun'; subst this0. clear Hrun'.
  unfold Sheet.getAnimations, Sheet.getAnimation. rewrite Hnames, Hdata.
  split; [reflexivity|]. split; [|split; [|split]].
  - intros name. split.
    + intros (anim & Hget). inversion Hget as [Hlook].
      apply get_holds in Hlook.
      destruct (Hfrom name anim Hlook) as [Hold|(obj & a' & Hin & _)].
      * rewrite holds_blank in Hold. discriminate.
      * apply list_elem_of_fmap. exists (name, obj). auto.
    + intros Hin. destruct (Hdom name (or_introl Hin)) as [anim Hlook].
      exists anim. apply get_holds in Hlook. rewrite Hlook. reflexivity.
  - intros name anim Hget. inversion Hget as [Hlook].
    apply get_holds in Hlook.
    destruct (Hfrom name anim Hlook) as [Hold|(obj & a' & Hin & Hparse)].
    + rewrite holds_blank in Hold. discriminate.
    + assert (Hobj : ~ one_element obj).
      { rewrite Forall_forall in Hplain. apply (Hplain (name, obj) Hin). }
      destruct (parseAnimation_settled name obj None Hobj)
        as (anim0 & a0 & Hparse0 & Hname & Hsettled).
      rewrite Hparse in Hparse0. inversion Hparse0; subst. auto.
  - intros Hnodup. split.
    + intros name frame Hin.
      destruct (Hlast Hnodup _ _ Hin) as (anim & a' & Hparse & Hlook).
      apply get_holds in Hlook. rewrite Hlook.
      unfold Sheet.parseAnimation in Hparse.
      rewrite String.eqb_refl in Hparse. simpl in Hparse.
      inversion Hparse; subst. reflexivity.
    + intros name start stop Hin.
      destruct (Hlast Hnodup _ _ Hin) as (anim & a' & Hparse & Hlook).
      apply get_holds in Hlook. rewrite Hlook.
      unfold Sheet.parseAnimation in Hparse.
      rewrite String.eqb_refl, andb_true_r in Hparse.
      unfold Sheet.range in Hparse. rewrite length_seqZ in Hparse.
      assert (Hlen : (Z.to_nat (stop - start + 1) <? 2)%nat
                     = (stop - start + 1 <? 2)%Z).
      { destruct (Z.ltb_spec (stop - start + 1) 2),
          (Nat.ltb_spec (Z.to_nat (stop - start + 1)) 2);
          try reflexivity; lia. }
      rewrite Hlen in Hparse.
      destruct (stop - start + 1 <? 2)%Z; inversion Hparse; subst; reflexivity.
  - intros Hproto name Hname. rewrite (Hrest Hproto name Hname).
    unfold Js.get, Js.blank. cbn [Js.own Js.proto]. rewrite lookup_empty.
    reflexivity.
Qed.

(** X14: data without images makes the constructor throw a TypeError as
    soon as it has a non-empty frame list, or a frame grid of a width other
    than 0, or, these apart, a first animation written as a one-element
    array: the sheet then reads [_images] or the array variable [a] before
    either has been set. *)
Theorem X14_constructor_throws (fuel : nat) (data : Sheet.Data Img) :
  Sheet.dataImages data = None \/ Sheet.dataImages data = Some [] ->
  (exists def defs, Sheet.dataFrames data = Sheet.FrameList (def :: defs))
  \/ (exists grid, Sheet.dataFrames data = Sheet.FrameGrid grid
                   /\ Sheet.gridWidth grid <> 0%Z)
  \/ ((Sheet.dataFrames data = Sheet.NoFrames
       \/ exists grid, Sheet.dataFrames data = Sheet.FrameGrid grid
                       /\ Sheet.gridWidth grid = 0%Z)
      /\ exists name frame rest,
          Sheet.dataAnimations data
          = Some ((name, Sheet.Simple1 frame) :: rest)) ->
  Sheet.constructor fuel (Sheet.DataArg (Some data)) = Some (Throws Js.TypeError).
Proof.
  intros Himages Hcase. unfold Sheet.constructor, Sheet.initialize.
  assert (Hnone :
    match Sheet.dataImages data with
    | Some (spec :: specs) =>
        (Sheet.parseImages (spec :: specs)
           (Sheet.set_images (Some [])
              (Sheet.set_framerate
                 match Sheet.dataFramerate data with
                 | Some f => if Sheet.truthy f then f else 0
                 | None => 0
                 end Sheet.fresh)),
         Some (length (spec :: specs)))
    | _ => (Sheet.set_framerate
              match Sheet.dataFramerate data with
              | Some f => if Sheet.truthy f then f else 0
              | None => 0
              end Sheet.fresh, None)
    end
    = (Sheet.set_framerate
         match Sheet.dataFramerate data with
         | Some f => if Sheet.truthy f then f else 0
         | None => 0
         end Sheet.fresh, None)).
  { destruct Himages as [-> | ->]; reflexivity. }
  rewrite Hnone. clear Hnone.
  destruct Hcase as [(def & defs & ->)
                    |[(grid & -> & Hw)
                     |[[-> | (grid & -> & Hw)] (name & frame & rest & ->)]]].
  - reflexivity.
  - simpl. unfold Sheet._calculateFrames. simpl.
    replace (Sheet.gridWidth grid =? 0)%Z with false by lia. reflexivity.
  - reflexivity.
  - simpl. unfold Sheet._calculateFrames. simpl.
    replace (Sheet.gridWidth grid =? 0)%Z with true by lia. reflexivity.
Qed.

(** X15: an animation written as a one-element array takes its decision to
    stop or to loop from the array that the variable [a] happens to hold.
    With images, no frame list and this animation alone, the animation stops
    when the data lists one image and loops onto its single frame when it
    lists two or more. *)
Theorem X15_one_element_array (fuel : nat) (data : Sheet.Data Img)
  (spec : Sheet.ImageSpec Img) (specs : list (Sheet.ImageSpec Img))
  (name : string) (frame : Z) :
  Sheet.dataImages data = Some (spec :: specs) ->
  Sheet.dataFrames data = Sheet.NoFrames ->
  Sheet.dataAnimations data = Some [(name, Sheet.Simple1 frame)] ->
  exists sheet,
    Sheet.constructor fuel (Sheet.DataArg (Some data)) = Some (Returns sheet)
    /\ Sheet.getAnimation name sheet
       = Returns (Js.Holds (Sheet.mkAnim name [frame] 1
                              (match specs with
                               | [] => None
                               | _ :: _ => Some name
                               end))).
Proof.
  intros Himages Hframes Hanims.
  unfold Sheet.constructor, Sheet.initialize.
  rewrite Himages, Hframes, Hanims.
  cbn [Sheet.andThen Sheet.parseAnimations Sheet.parseAnimation].
  rewrite String.eqb_refl, andb_true_r. cbn [length].
  destruct specs as [|spec' specs']; cbn [Nat.ltb Nat.leb Js.bind];
    eexists; (split; [reflexivity|]);
    unfold Sheet.getAnimation;
    rewrite (parseImages_spec _ _ []) by reflexivity;
    cbn [Sheet.set_data Sheet.set_animations Sheet.set_complete
         Sheet.set_loadCount Sheet.set_images Sheet._data default];
    apply f_equal, get_holds, holds_set_eq.
Qed.

(** X16: a sheet without animation table fails its animation queries.
    Built from a URL, [getAnimations], [getAnimation] and [getNumFrames] of a
    name throw a TypeError, while [getNumFrames()] answers 0 and [getFrame]
    null.  Built from data that has no [animations], [getAnimations] answers
    the empty list and the two queries by name still throw. *)
Theorem X16_no_animation_table (fuel : nat) (data : Sheet.Data Img)
  (sheet : Sheet.t Img) (name : string) :
  Sheet.dataAnimations data = None ->
  Sheet.constructor fuel (Sheet.DataArg (Some data)) = Some (Returns sheet) ->
  (Sheet.getAnimations sheet = Returns []
   /\ Sheet.getAnimation name sheet = Throws Js.TypeError
   /\ Sheet.getNumFrames (Some name) sheet = Throws Js.TypeError)
  /\ (forall url,
         exists bare,
           Sheet.constructor fuel (Sheet.Url url) = Some (Returns bare)
           /\ Sheet.url bare = Some url
           /\ Sheet.getAnimations bare = Throws Js.TypeError
           /\ Sheet.getAnimation name bare = Throws Js.TypeError
           /\ Sheet.getNumFrames (Some name) bare = Throws Js.TypeError
           /\ Sheet.getNumFrames None bare = Returns (Some 0%Z)
           /\ forall i, Sheet.getFrame i bare = None).
Proof.
  intros Hnone Hbuilt. split.
  - unfold Sheet.constructor in Hbuilt.
    destruct (initialize_animations _ _ _ _ Hbuilt) as (mid & a & Hdata & Hrun).
    rewrite Hnone in Hrun. subst sheet.
    unfold Sheet.getAnimations, Sheet.getAnimation, Sheet.getNumFrames.
    destruct mid; simpl in *. subst. auto.
  - intros url. eexists. split; [reflexivity|]. repeat split.
Qed.

(** X17: a clone answers the frame and animation queries as the original
    does and shares its images and load count, but it starts with frame rate
    0, grid registration point (0, 0), no URL and no dispatched event. *)
Theorem X17_clone (this : Sheet.t Img) :
  let o := Sheet.clone this in
  (forall animation, Sheet.getNumFrames animation o
                     = Sheet.getNumFrames animation this)
  /\ Sheet.getAnimations o = Sheet.getAnimations this
  /\ (forall name, Sheet.getAnimation name o = Sheet.getAnimation name this)
  /\ (forall i, Sheet.getFrame i o = Sheet.getFrame i this)
  /\ (forall i r, Sheet.getFrameBounds i r o = Sheet.getFrameBounds i r this)
  /\ Sheet._images o = Sheet._images this
  /\ Sheet.loadCount o = Sheet.loadCount this
  /\ Sheet.complete o = Sheet.complete this
  /\ Sheet.framerate o = 0
  /\ Sheet._regX o = 0%Z /\ Sheet._regY o = 0%Z
  /\ Sheet.url o = None
  /\ Sheet.hasLoaded o = false
  /\ Sheet.dispatched o = [].
Proof. destruct this. repeat split. Qed.

(** X18: once a sheet has frames, [getNumFrames()] is their number and
    [getFrame(i)] is non-null exactly for 0 <= i < getNumFrames();
    [getFrameBounds] is null exactly when [getFrame] is, gives the rectangle
    (-regX, -regY, width, height) of the frame when called without rectangle,
    and hands a rectangle it is given back as it is.  A sheet that has no
    frames yet answers null for every frame and the frame count of its
    data. *)
Theorem X18_frame_queries (this : Sheet.t Img) (i : Z) :
  (forall frames,
      Sheet._frames this = Some frames ->
      Sheet.getNumFrames None this = Returns (Some (Z.of_nat (length frames)))
      /\ (is_Some (Sheet.getFrame i this)
          <-> (0 <= i < Z.of_nat (length frames))%Z))
  /\ (Sheet._frames this = None ->
      Sheet.getFrame i this = None
      /\ Sheet.getNumFrames None this = Returns (Sheet._numFrames this))
  /\ (forall r, Sheet.getFrameBounds i r this = None
                <-> Sheet.getFrame i this = None)
  /\ (forall frame,
         Sheet.getFrame i this = Some frame ->
         Sheet.getFrameBounds i None this
         = Some (Sheet.mkRect (- Sheet.regX frame) (- Sheet.regY frame)
                   (Sheet.width (Sheet.rect frame))
                   (Sheet.height (Sheet.rect frame)))
         /\ forall r, Sheet.getFrameBounds i (Some r) this = Some r).
Proof.
  unfold Sheet.getFrameBounds, Sheet.getNumFrames, Sheet.getFrame.
  split; [|split; [|split]].
  - intros frames ->. split; [reflexivity|].
    unfold Sheet.at_index. destruct (Z.leb_spec 0 i) as [Hpos|Hneg].
    + rewrite lookup_lt_is_Some. lia.
    + split; [intros [x Hx]; discriminate | lia].
  - intros ->. auto.
  - intros r. destruct (match Sheet._frames this with
                        | Some frames => Sheet.at_index frames i
                        | None => None
                        end); split; (discriminate || reflexivity).
  - intros frame ->. auto.
Qed.

Lemma parseImages_idle (specs : list (Sheet.ImageSpec Img)) :
  forall this : Sheet.t Img,
    Sheet._hasLoaded (Sheet.parseImages specs this) = Sheet._hasLoaded this
    /\ Sheet.url (Sheet.parseImages specs this) = Sheet.url this.
Proof.
  induction specs as [|spec specs IH]; intros this; [split; reflexivity|].
  cbn [Sheet.parseImages]. cbv zeta.
  match goal with
  | |- context [Sheet.parseImages specs ?next] =>
      destruct (IH next) as [-> ->]
  end.
  destruct (negb _ && negb _); destruct this; split; reflexivity.
Qed.

Lemma calculateFrames_idle (fuel : nat) (this this' : Sheet.t Img) :
  Sheet._calculateFrames fuel this = Some (Returns this') ->
  Sheet._hasLoaded this' = Sheet._hasLoaded this
  /\ Sheet.url this' = Sheet.url this
  /\ Sheet.loadCount this' = Sheet.loadCount this.
Proof.
  unfold Sheet._calculateFrames.
  destruct (bool_decide (is_Some (Sheet._frames this))
            || (Sheet._frameWidth this =? 0)%Z).
  - intros Hr. inversion Hr; subst. auto.
  - destruct this; simpl. destruct _images as [imgs|]; [|discriminate].
    destruct (Sheet.scanImages _ _ _ _ _ _ _ _ _ _ _) as [[fs c]|];
      [|discriminate].
    intros Hr. inversion Hr; subst. auto.
Qed.

Lemma parseAnimations_names (anims : list (string * Sheet.AnimSpec)) :
  forall (a : option nat) (this this' : Sheet.t Img) (names : list string),
    Sheet.parseAnimations anims a this = Returns this' ->
    Sheet._animations this = Some names ->
    Sheet._animations this' = Some (names ++ anims.*1)
    /\ Sheet._hasLoaded this' = Sheet._hasLoaded this
    /\ Sheet.url this' = Sheet.url this.
Proof.
  induction anims as [|[name obj] rest IH]; intros a this this' names Hrun Hn.
  - inversion Hrun; subst. rewrite app_nil_r. auto.
  - cbn [Sheet.parseAnimations] in Hrun.
    destruct (Sheet.parseAnimation name obj a) as [[anim a']|e];
      [|discriminate].
    cbn [Js.bind] in Hrun.
    apply IH with (names := names ++ [name]) in Hrun
      as (Hnames & Hloaded & Hurl).
    + rewrite Hnames, Hloaded, Hurl, fmap_cons, <- app_assoc.
      destruct this; auto.
    + destruct this; simpl in *. subst. reflexivity.
Qed.

(** [initialize] leaves [_hasLoaded] and [url] alone and lists the names of
    the animations. *)
Lemma initialize_idle (fuel : nat) (data : Sheet.Data Img)
  (this this' : Sheet.t Img) :
  Sheet.initialize fuel (Some data) this = Some (Returns this') ->
  Sheet._hasLoaded this' = Sheet._hasLoaded this
  /\ Sheet.url this' = Sheet.url this
  /\ Sheet._animations this'
     = Some (match Sheet.dataAnimations data with
             | Some o => o.*1
             | None => []
             end).
Proof.
  unfold Sheet.initialize.
  set (start := Sheet.set_framerate _ this).
  assert (Hstart : Sheet._hasLoaded start = Sheet._hasLoaded this
                   /\ Sheet.url start = Sheet.url this)
    by (destruct this; split; reflexivity).
  assert (Himages :
    exists mid0 a0,
      match Sheet.dataImages data with
      | Some (spec :: specs) =>
          (Sheet.parseImages (spec :: specs) (Sheet.set_images (Some []) start),
           Some (length (spec :: specs)))
      | _ => (start, None)
      end = (mid0, a0)
      /\ Sheet._hasLoaded mid0 = Sheet._hasLoaded this
      /\ Sheet.url mid0 = Sheet.url this).
  { destruct (Sheet.dataImages data) as [[|spec specs]|];
      try (do 2 eexists; split; [reflexivity | exact Hstart]).
    do 2 eexists. split; [reflexivity|].
    destruct (parseImages_idle (spec :: specs)
                (Sheet.set_images (Some []) start)) as [-> ->].
    destruct start; simpl in *. exact Hstart. }
  destruct Himages as (mid0 & a0 & -> & Hmid0).
  intros Hinit. apply andThen_returns in Hinit as ([mid a] & Hframes & Hrest).
  assert (Hmid : Sheet._hasLoaded mid = Sheet._hasLoaded this
                 /\ Sheet.url mid = Sheet.url this).
  { destruct (Sheet.dataFrames data) as [|defs|o].
    - inversion Hframes; subst. exact Hmid0.
    - destruct defs as [|def defs].
      + inversion Hframes; subst. destruct mid0; simpl in *. exact Hmid0.
      + destruct (Sheet._images (Sheet.set_frames (Some []) mid0)) as [imgs|];
          [|discriminate].
        inversion Hframes; subst. destruct mid0; simpl in *. exact Hmid0.
    - set (grid := Sheet.set_numFrames _ _) in Hframes.
      assert (Hgrid : Sheet._hasLoaded grid = Sheet._hasLoaded this
                      /\ Sheet.url grid = Sheet.url this)
        by (subst grid; destruct mid0; simpl in *; exact Hmid0).
      destruct (Sheet.loadCount grid =? 0)%Z.
      + apply andThen_returns in Hframes as (done & Hcalc & Hdone).
        inversion Hdone; subst.
        destruct (calculateFrames_idle _ _ _ Hcalc) as (-> & -> & _).
        exact Hgrid.
      + inversion Hframes; subst. exact Hgrid. }
  destruct Hmid as [Hloaded Hurl].
  destruct (Sheet.dataAnimations data) as [o|]; inversion Hrest as [Hrun].
  - apply parseAnimations_names with (names := []) in Hrun
      as (-> & -> & ->); [|destruct mid; reflexivity].
    destruct mid; simpl in *. auto.
  - destruct mid; simpl in *. auto.
Qed.

(** X19: [load] on a sheet that has just been constructed never fetches
    anything and never resolves at once.  Built from a URL, or from no data
    at all, the sheet has no list of animations and [load] throws a
    TypeError before it looks at the URL; built from data with one animation
    at least, [load] polls [loadCount]; built from data without animation,
    it throws the error that the URL is not set. *)
Theorem X19_load_new_sheet (fuel : nat) (arg : Sheet.Arg Img)
  (sheet : Sheet.t Img) (onProgress : bool) :
  Sheet.constructor fuel arg = Some (Returns sheet) ->
  Sheet.load onProgress sheet
  = match arg with
    | Sheet.Url _ | Sheet.DataArg None => Throws Js.TypeError
    | Sheet.DataArg (Some data) =>
        match Sheet.dataAnimations data with
        | Some (_ :: _) => Returns ([], Sheet.Polling (Sheet.loadCount sheet))
        | _ => Returns ([], Sheet.Raised
                              "url is not set and there for can not be loaded")
        end
    end.
Proof.
  destruct arg as [url|[data|]]; intros Hbuilt.
  - inversion Hbuilt; subst. reflexivity.
  - unfold Sheet.constructor in Hbuilt.
    destruct (initialize_idle _ _ _ _ Hbuilt) as (Hloaded & Hurl & Hnames).
    unfold Sheet.load, Sheet.hasLoaded. rewrite Hloaded, Hnames, Hurl.
    destruct (Sheet.dataAnimations data) as [[|[name obj] rest]|]; reflexivity.
  - inversion Hbuilt; subst. reflexivity.
Qed.

Lemma loadEvents_count (fuel : nat) :
  forall (n : nat) (this this' : Sheet.t Img),
    loadEvents fuel n this = Some (Returns this') ->
    Sheet.loadCount this' = (Sheet.loadCount this - Z.of_nat n)%Z.
Proof.
  induction n as [|n IH]; intros this this' Hrun.
  - inversion Hrun; subst. simpl. lia.
  - cbn [loadEvents] in Hrun.
    apply andThen_returns in Hrun as (next & Hone & Hrest).
    apply IH in Hrest. rewrite Hrest, Nat2Z.inj_succ.
    assert (Hnext : Sheet.loadCount next = (Sheet.loadCount this - 1)%Z).
    { unfold Sheet._handleImageLoad in Hone.
      destruct (Sheet.loadCount _ =? 0)%Z.
      - apply andThen_returns in Hone as (done & Hcalc & Hdone).
        inversion Hdone; subst.
        destruct (calculateFrames_idle _ _ _ Hcalc) as (_ & _ & Hcount).
        destruct done; simpl in *. rewrite Hcount.
        destruct this; reflexivity.
      - inversion Hone; subst. destruct this; reflexivity. }
    lia.
Qed.

(** X20: after [n] load events, the interval of a polling [load] resolves
    exactly when the sheet was waiting for [n] images; it then marks the
    sheet as loaded, so that a later [load] resolves at once and reports the
    progress 1.  At any other count, negative ones included, the interval
    leaves the sheet as it is and goes on. *)
Theorem X20_load_interval (fuel n : nat) (this this' : Sheet.t Img)
  (onProgress : bool) (total : Z) :
  loadEvents fuel n this = Some (Returns this') ->
  let '(reported, sheet, resolved) :=
    Sheet.loadInterval onProgress total this' in
  reported
  = (if onProgress
     then [Sheet.Quotient (total - (Sheet.loadCount this - Z.of_nat n)) total]
     else [])
  /\ (resolved = true <-> Sheet.loadCount this = Z.of_nat n)
  /\ (resolved = true ->
      Sheet.hasLoaded sheet = true
      /\ forall onProgress',
           Sheet.load onProgress' sheet
           = Returns (if onProgress' then [Sheet.Whole] else [], Sheet.Resolved))
  /\ (resolved = false -> sheet = this').
Proof.
  intros Hrun. apply loadEvents_count in Hrun.
  unfold Sheet.loadInterval. rewrite Hrun.
  destruct (Z.eqb_spec (Sheet.loadCount this - Z.of_nat n) 0) as [Hzero|Hmore].
  - split; [reflexivity|]. split; [split; [lia | reflexivity]|].
    split; [|discriminate]. intros _. split; [destruct this'; reflexivity|].
    intros onProgress'. destruct this'; reflexivity.
  - split; [reflexivity|]. split; [split; [discriminate | lia]|].
    split; [discriminate | reflexivity].
Qed.

End SheetInitialize.

Lemma X10_calculateFrames_hangs_witness :
  Sheet._calculateFrames (H := Pictures.dom) 1000 Pictures.stuck = None.
Proof.
  apply (X10_calculateFrames_hangs (H := Pictures.dom) Pictures.stuck
           Pictures.strip [] 1000); simpl; (reflexivity || lia).
Defined.

Lemma X11_load_events_witness :
  exists sheet,
    loadEvents (H := Pictures.dom) 100 2
      (Sheet.set_loadCount 2 Pictures.cutting) = Some (Returns sheet)
    /\ Sheet.loadCount sheet = 0%Z
    /\ Sheet.complete sheet = true
    /\ Sheet.dispatched sheet = ["complete"]
    /\ Sheet.getNumFrames None sheet = Returns (Some 3%Z).
Proof.
  rewrite (proj1 (proj2 (X11_load_events (H := Pictures.dom) 100
                           (Sheet.set_loadCount 2 Pictures.cutting) 1))
             eq_refl).
  eexists. split; [vm_compute; reflexivity|]. repeat split.
Defined.

Lemma X13_animations_settled_witness :
  exists sheet,
    Sheet.constructor (H := Pictures.dom) 0
      (Sheet.DataArg (Some Pictures.script)) = Some (Returns sheet)
    /\ Sheet.getAnimations sheet = Returns ["idle"; "run"; "jump"]
    /\ Sheet.getAnimation "idle" sheet
       = Returns (Js.Holds (Sheet.mkAnim "idle" [3%Z] 1 None))
    /\ Sheet.getAnimation "run" sheet
       = Returns (Js.Holds (Sheet.mkAnim "run" [0; 1; 2; 3; 4]%Z 1 (Some "run")))
    /\ Sheet.getAnimation "toString" sheet = Returns (Js.Foreign false)
    /\ Sheet.getAnimation "walk" sheet = Returns Js.Missing.
Proof.
  destruct (Sheet.constructor (H := Pictures.dom) 0
              (Sheet.DataArg (Some Pictures.script)))
    as [[sheet|e]|] eqn:Hbuilt; [|vm_compute in Hbuilt; discriminate ..].
  assert (Hplain : Forall (fun entry => ~ one_element entry.2) Pictures.moves).
  { repeat (constructor; [simpl; tauto|]). constructor. }
  destruct (X13_animations_settled (H := Pictures.dom) 0 Pictures.script
              Pictures.moves Sheet.fresh sheet eq_refl Hplain Hbuilt)
    as (Hnames & _ & _ & Hshape & Hother).
  assert (Hdistinct : NoDup (Pictures.moves.*1)).
  { apply (bool_decide_unpack _). vm_compute. reflexivity. }
  assert (Hout : forall name, bool_decide (name ∈ Pictures.moves.*1) = false ->
                              name ∉ Pictures.moves.*1).
  { intros name Hname. apply bool_decide_eq_false in Hname. exact Hname. }
  destruct (Hshape Hdistinct) as [Hsingle Hrange].
  exists sheet. split; [reflexivity|]. split; [exact Hnames|].
  split; [|split; [|split]].
  - apply Hsingle. apply list_elem_of_here.
  - apply (Hrange "run" 0%Z 4%Z).
    apply list_elem_of_further, list_elem_of_here.
  - apply (Hother (Hout "__proto__" ltac:(vm_compute; reflexivity)) "toString").
    apply Hout. vm_compute. reflexivity.
  - apply (Hother (Hout "__proto__" ltac:(vm_compute; reflexivity)) "walk").
    apply Hout. vm_compute. reflexivity.
Defined.

Lemma X14_constructor_throws_witness :
  Sheet.constructor (H := Pictures.dom) 0
    (Sheet.DataArg (Some Pictures.imageless)) = Some (Throws Js.TypeError).
Proof.
  apply X14_constructor_throws; [left; reflexivity|].
  left. eexists _, _. reflexivity.
Defined.

Lemma X15_one_element_array_witness :
  exists sheet,
    Sheet.constructor (H := Pictures.dom) 0
      (Sheet.DataArg (Some Pictures.still)) = Some (Returns sheet)
    /\ Sheet.getAnimation "pose" sheet
       = Returns (Js.Holds (Sheet.mkAnim "pose" [0%Z] 1 (Some "pose"))).
Proof.
  exact (X15_one_element_array (H := Pictures.dom) 0 Pictures.still
           _ _ "pose" 0%Z eq_refl eq_refl eq_refl).
Defined.

Lemma X16_no_animation_table_witness :
  exists sheet,
    Sheet.constructor (H := Pictures.dom) 100
      (Sheet.DataArg (Some Pictures.gridded)) = Some (Returns sheet)
    /\ Sheet.getNumFrames None sheet = Returns (Some 4%Z)
    /\ Sheet.getAnimations sheet = Returns []
    /\ Sheet.getAnimation "run" sheet = Throws Js.TypeError.
Proof.
  destruct (Sheet.constructor (H := Pictures.dom) 100
              (Sheet.DataArg (Some Pictures.gridded)))
    as [[sheet|e]|] eqn:Hbuilt; [|vm_compute in Hbuilt; discriminate ..].
  destruct (X16_no_animation_table (H := Pictures.dom) 100 Pictures.gridded
              sheet "run" eq_refl Hbuilt) as [(Hnames & Hone & _) _].
  exists sheet. split; [reflexivity|]. split; [|split; assumption].
  vm_compute in Hbuilt. injection Hbuilt as <-. reflexivity.
Defined.

Lemma X18_frame_queries_witness :
  Sheet.getNumFrames None Pictures.halves = Returns (Some 2%Z)
  /\ is_Some (Sheet.getFrame 1 Pictures.halves)
  /\ Sheet.getFrame 2 Pictures.halves = None.
Proof.
  destruct (proj1 (X18_frame_queries Pictures.halves 1) _ eq_refl)
    as [Hcount Hinside].
  split; [exact Hcount|]. split; [apply Hinside; simpl; lia|].
  destruct (proj1 (X18_frame_queries Pictures.halves 2) _ eq_refl)
    as [_ Houtside].
  destruct (Sheet.getFrame 2 Pictures.halves) eqn:Hframe; [|reflexivity].
  assert (Hno : (0 <= 2 < Z.of_nat 2)%Z) by (apply Houtside; eauto).
  lia.
Defined.

Lemma X19_load_new_sheet_witness :
  exists sheet,
    Sheet.constructor (H := Pictures.dom) 0
      (Sheet.DataArg (Some Pictures.still)) = Some (Returns sheet)
    /\ Sheet.load true sheet = Returns ([], Sheet.Polling 1).
Proof.
  destruct (Sheet.constructor (H := Pictures.dom) 0
              (Sheet.DataArg (Some Pictures.still)))
    as [[sheet|e]|] eqn:Hbuilt; [|vm_compute in Hbuilt; discriminate ..].
  exists sheet. split; [reflexivity|].
  rewrite (X19_load_new_sheet (H := Pictures.dom) 0 _ sheet true Hbuilt).
  vm_compute in Hbuilt. injection Hbuilt as <-. reflexivity.
Defined.

Lemma X20_load_interval_witness :
  exists sheet,
    Sheet.loadInterval true 2 sheet
    = ([Sheet.Quotient 2 2], Sheet.set_hasLoaded true sheet, true)
    /\ loadEvents (H := Pictures.dom) 100 2
         (Sheet.set_loadCount 2 Pictures.cutting) = Some (Returns sheet).
Proof.
  destruct (loadEvents (H := Pictures.dom) 100 2
              (Sheet.set_loadCount 2 Pictures.cutting))
    as [[sheet|e]|] eqn:Hrun; [|vm_compute in Hrun; discriminate ..].
  exists sheet. split; [|reflexivity].
  pose proof (X20_load_interval (H := Pictures.dom) 100 2 _ sheet true 2 Hrun)
    as Hinterval.
  destruct (Sheet.loadInterval true 2 sheet) as [[reported sheet'] resolved]
    eqn:Hpoll.
  destruct Hinterval as (-> & Hresolved & _ & _).
  unfold Sheet.loadInterval in Hpoll.
  destruct (Sheet.loadCount sheet =? 0)%Z; inversion Hpoll; subst.
  - reflexivity.
  - assert (Hno : false = true) by (apply Hresolved; reflexivity).
    discriminate.
Defined.

Section LayerReset.
Context `{Js.Math} `{FlumpLayerData.Lookup}.

Lemma active_ok_reset (this : Layer.t) :
  active_ok this ->
  exists this',
    Layer.reset this = Returns this'
    /\ Layer.observed this'
       = (Layer._storedMtx this, Layer.alpha this, Layer.visible this,
          Layer.resetSymbol <$> Layer.activeChild this,
          Layer._symbolType this)
    /\ Layer._keyframeRef this' = Layer._keyframeRef this
    /\ (Layer._symbolType this <> DISPLAYOBJECT -> this' = this)
    /\ Layer.reset this' = Returns this'
    /\ active_ok this'.
Proof.
  intros Hok. unfold active_ok in Hok.
  unfold Layer.reset, Layer.observed, Layer.activeChild.
  destruct (Layer._symbolType this) eqn:Htype.
  - exists this. rewrite Htype. repeat split; auto.
    unfold active_ok. rewrite Htype. exact I.
  - destruct Hok.
  - destruct Hok as (r & m & Href & Hmovie & Hsym).
    rewrite Hmovie. simpl. rewrite Hsym.
    eexists. split; [reflexivity|].
    destruct this; simpl in *. subst.
    split; [unfold mbind, option_bind; rewrite lookup_insert_eq; reflexivity|].
    split; [reflexivity|].
    split; [intros Hne; destruct Hne; reflexivity|].
    split; [rewrite lookup_insert_eq, insert_insert_eq; reflexivity|].
    unfold active_ok. simpl. exists r, (FlumpMovie.reset m).
    rewrite lookup_insert_eq. auto.
  - destruct Hok as (r & tex & Href & Htex & Hsym).
    exists this. rewrite Htype, Htex. simpl. rewrite Hsym.
    repeat split; auto.
    unfold active_ok. rewrite Htype. exists r, tex. auto.
  - exists this. rewrite Htype. repeat split; auto.
    unfold active_ok. rewrite Htype. exact Hok.
Qed.

(** X21: on a layer built by the constructor, after any run of [setFrame]
    calls that returned, [reset] returns normally.  It puts the nested movie
    that the layer shows back to frame 0, in the cache too, and changes
    nothing else: transform, alpha, visibility, symbol type and active
    ref stay, and a layer that shows a texture or nothing is left as it is.
    Resetting twice is resetting once. *)
Theorem X21_reset_after_setFrames (alpha0 : float) (visible0 : bool)
  (lib : FlumpLibrary.t) (labels labels' : gmap string FlumpLabelData.t)
  (ld : FlumpLayerData.t) (created : list string) (built this : Layer.t)
  (frames : list float) :
  Layer.constructor alpha0 visible0 lib labels ld
  = Returns (labels', created, built) ->
  setFrames frames built = Returns this ->
  exists this',
    Layer.reset this = Returns this'
    /\ Layer.observed this'
       = (Layer._storedMtx this, Layer.alpha this, Layer.visible this,
          Layer.resetSymbol <$> Layer.activeChild this,
          Layer._symbolType this)
    /\ Layer._keyframeRef this' = Layer._keyframeRef this
    /\ (Layer._symbolType this <> DISPLAYOBJECT -> this' = this)
    /\ Layer.reset this' = Returns this'
    /\ forall ctx,
         Layer.draw this' ctx
         = Returns (ctx ++ match Layer.activeChild this with
                           | Some child => [Layer.resetSymbol child]
                           | None => []
                           end, true).
Proof.
  intros Hc Hrun.
  assert (Hok : active_ok this).
  { destruct (constructor_inv _ _ _ _ _ _ _ _ Hc) as (symbols & _ & Hset).
    eapply (setFrames_invariant active_ok); [| |exact Hrun].
    - intros frame t t' Hok Hs. eapply setFrame_active_ok; eauto.
    - eapply setFrame_active_ok; [|exact Hset]. apply fresh_active_ok. }
  destruct (active_ok_reset this Hok)
    as (this' & Hreset & Hobs & Href & Hsame & Htwice & Hok').
  exists this'. do 5 (split; [assumption|]).
  intros ctx. destruct (active_ok_draw this' ctx Hok') as (-> & _ & _).
  unfold Layer.observed in Hobs. inversion Hobs as [[Hm Ha Hv Hchild Ht]].
  rewrite Hchild. destruct (Layer.activeChild this); reflexivity.
Qed.

End LayerReset.

Lemma X21_reset_after_setFrames_witness :
  exists built this this',
    Layer.constructor (H := Scenario.taylor) (H0 := FlumpLayerData.specLookup)
      1 true Scenario.library ∅ Scenario.bounce = Returns (∅, ["ball"], built)
    /\ setFrames (H := Scenario.taylor) (H0 := FlumpLayerData.specLookup)
         [7; 3] built = Returns this
    /\ Layer.reset this = Returns this'
    /\ Layer.draw this' [] = Returns ([SymMovie (FlumpMovie.mk "ball" 0)], true).
Proof.
  destruct (Layer.constructor (H := Scenario.taylor)
              (H0 := FlumpLayerData.specLookup)
              1 true Scenario.library ∅ Scenario.bounce)
    as [[[labels created] built]|e] eqn:Hbuilt;
    [|vm_compute in Hbuilt; discriminate].
  destruct (setFrames (H := Scenario.taylor) (H0 := FlumpLayerData.specLookup)
              [7; 3] built) as [this|e] eqn:Hrun.
  - destruct (X21_reset_after_setFrames (H := Scenario.taylor)
                (H0 := FlumpLayerData.specLookup) _ _ _ _ _ _ _ _ _ _
                Hbuilt Hrun) as (this' & Hreset & _ & _ & _ & _ & Hdraw).
    exists built, this, this'.
    assert (Hshape : labels = ∅ /\ created = ["ball"]).
    { vm_compute in Hbuilt. inversion Hbuilt; subst. auto. }
    destruct Hshape as [-> ->].
    split; [reflexivity|]. split; [exact Hrun|]. split; [exact Hreset|].
    rewrite Hdraw.
    vm_compute in Hbuilt. injection Hbuilt as <-.
    vm_compute in Hrun. injection Hrun as <-. reflexivity.
  - vm_compute in Hbuilt. injection Hbuilt as _ _ <-.
    vm_compute in Hrun. discriminate.
Defined.

(** ** The static [load] *)

Lemma append_nil (b : string) : EmptyString +:+ b = b.
Proof. reflexivity. Qed.

Lemma append_cons (x : Ascii.ascii) (a b : string) :
  String x a +:+ b = String x (a +:+ b).
Proof. reflexivity. Qed.

Lemma append_assoc (a b c : string) : (a +:+ b) +:+ c = a +:+ b +:+ c.
Proof.
  induction a as [|x a IH]; [reflexivity|].
  rewrite !append_cons, IH. reflexivity.
Qed.

Lemma append_nonempty (a b : string) : b <> EmptyString -> a +:+ b <> EmptyString.
Proof.
  destruct a; [rewrite append_nil; auto | rewrite append_cons; discriminate].
Qed.

Lemma includes_nonempty (needle s : string) :
  needle <> EmptyString -> Sheet.includes needle s = true -> s <> EmptyString.
Proof.
  intros Hneedle Hin ->. destruct needle; [congruence | discriminate].
Qed.

Lemma loadUrl_nonempty (url : string) : (Sheet.loadUrl url).1 <> EmptyString.
Proof.
  unfold Sheet.loadUrl. destruct (Sheet.includes ".json" url) eqn:Hjson.
  - apply (includes_nonempty ".json"); [discriminate | exact Hjson].
  - simpl. apply append_nonempty, append_nonempty. discriminate.
Qed.

Lemma dropLast_lastChar (s : string) : s = Sheet.dropLast s +:+ Sheet.lastChar s.
Proof.
  induction s as [|c s IH]; [reflexivity|].
  destruct s as [|c' s]; [reflexivity|].
  change (Sheet.dropLast (String c (String c' s)))
    with (String c (Sheet.dropLast (String c' s))).
  change (Sheet.lastChar (String c (String c' s)))
    with (Sheet.lastChar (String c' s)).
  rewrite append_cons, <- IH. reflexivity.
Qed.

Lemma lastIndexOf_split (c : Ascii.ascii) (s : string) :
  forall i,
    Sheet.lastIndexOf c s = Some i ->
    String.length (String.substring 0 i s) = i
    /\ exists file,
         s = String.substring 0 i s +:+ String c file
         /\ Sheet.lastIndexOf c file = None.
Proof.
  induction s as [|c' s IH]; intros i Hi; [discriminate|].
  cbn [Sheet.lastIndexOf] in Hi.
  destruct (Sheet.lastIndexOf c s) as [j|] eqn:Hrest.
  - inversion Hi; subst. destruct (IH j eq_refl) as (Hlen & file & Hs & Hfile).
    cbn [String.substring String.length]. split; [rewrite Hlen; reflexivity|].
    exists file. split; [|exact Hfile].
    rewrite append_cons, <- Hs. reflexivity.
  - destruct (Ascii.eqb_spec c' c) as [->|Hne]; [|discriminate].
    inversion Hi; subst. split; [reflexivity|].
    exists s. split; [reflexivity | exact Hrest].
Qed.

Lemma lastIndexOf_append (c : Ascii.ascii) (b file : string) :
  Sheet.lastIndexOf c file = None ->
  Sheet.lastIndexOf c (b +:+ String c file) = Some (String.length b)
  /\ String.substring 0 (String.length b) (b +:+ String c file) = b.
Proof.
  intros Hfile. induction b as [|x b [IHi IHs]].
  - rewrite append_nil. cbn [Sheet.lastIndexOf String.length]. rewrite Hfile.
    rewrite Ascii.eqb_refl. split; [reflexivity|].
    destruct file; reflexivity.
  - rewrite append_cons.
    cbn [Sheet.lastIndexOf String.length String.substring].
    rewrite IHi, IHs. auto.
Qed.

Lemma includes_append (needle b s : string) :
  Sheet.includes needle s = true -> Sheet.includes needle (b +:+ s) = true.
Proof.
  intros Hs. induction b as [|x b IH]; [exact Hs|].
  rewrite append_cons. cbn [Sheet.includes]. rewrite IH. apply orb_true_r.
Qed.

(** X22: the URL that the static [load] requests.  For a URL that does not
    contain ".json" it is [baseDir + "/library.json"], [baseDir] being the
    URL without one trailing slash.  A URL that contains ".json" is requested
    as it is and [baseDir] is what precedes its last slash, the empty string
    when it has none.  Loading from the requested URL again requests the same
    URL with the same [baseDir], and the requested URL is never empty. *)
Theorem X22_load_url (url : string) :
  let '(target, baseDir) := Sheet.loadUrl url in
  (Sheet.includes ".json" url = false ->
   target = baseDir +:+ "/library.json"
   /\ (url = baseDir \/ url = baseDir +:+ "/"))
  /\ (Sheet.includes ".json" url = true ->
      target = url
      /\ match Sheet.lastIndexOf Sheet.slash url with
         | Some i =>
             String.length baseDir = i
             /\ exists file,
                  url = baseDir +:+ "/" +:+ file
                  /\ Sheet.lastIndexOf Sheet.slash file = None
         | None => baseDir = EmptyString
         end)
  /\ Sheet.loadUrl target = (target, baseDir)
  /\ target <> EmptyString.
Proof.
  unfold Sheet.loadUrl.
  destruct (Sheet.includes ".json" url) eqn:Hjson.
  - split; [discriminate|]. split; [|split].
    + intros _. split; [reflexivity|].
      destruct (Sheet.lastIndexOf Sheet.slash url) as [i|] eqn:Hi;
        [|reflexivity].
      destruct (lastIndexOf_split _ _ _ Hi) as (Hlen & file & Hs & Hfile).
      split; [exact Hlen|]. exists file. split; [exact Hs | exact Hfile].
    + rewrite Hjson. reflexivity.
    + apply (includes_nonempty ".json"); [discriminate | exact Hjson].
  - assert (Hshape :
      url +:+ (if negb (String.eqb (Sheet.lastChar url) "/")
               then "/" else EmptyString) +:+ "library.json"
      = (if String.eqb (Sheet.lastChar url) "/"
         then Sheet.dropLast url else url) +:+ "/library.json"
      /\ (url = (if String.eqb (Sheet.lastChar url) "/"
                 then Sheet.dropLast url else url)
          \/ url = (if String.eqb (Sheet.lastChar url) "/"
                    then Sheet.dropLast url else url) +:+ "/")).
    { destruct (String.eqb_spec (Sheet.lastChar url) "/") as [Hslash|Hnone].
      - pose proof (dropLast_lastChar url) as Hsplit. rewrite Hslash in Hsplit.
        split; [|right; exact Hsplit].
        cbn [negb]. rewrite append_nil. rewrite Hsplit at 1.
        rewrite append_assoc. reflexivity.
      - split; [reflexivity | left; reflexivity]. }
    destruct Hshape as [-> Hbase].
    set (baseDir := if String.eqb (Sheet.lastChar url) "/"
                    then Sheet.dropLast url else url) in *.
    split; [intros _; split; [reflexivity | exact Hbase]|].
    split; [discriminate|]. split.
    + rewrite (includes_append ".json" baseDir "/library.json") by reflexivity.
      destruct (lastIndexOf_append Sheet.slash baseDir "library.json" eq_refl)
        as [Hi Hs].
      change ("/library.json")
        with (String Sheet.slash "library.json").
      rewrite Hi. cbn [Sheet.substr0]. rewrite Hs. reflexivity.
    + apply append_nonempty. discriminate.
Qed.

Lemma X22_load_url_witness :
  Sheet.loadUrl "assets/hero/" = ("assets/hero/library.json", "assets/hero")
  /\ "assets/hero/" = "assets/hero" +:+ "/".
Proof.
  pose proof (X22_load_url "assets/hero/") as Hurl.
  destruct (Sheet.loadUrl "assets/hero/") as [target baseDir] eqn:Hload.
  destruct Hurl as [Hplain _].
  destruct (Hplain eq_refl) as [-> _].
  vm_compute in Hload. injection Hload as _ <-. split; reflexivity.
Defined.

Section SheetStatic.
Context {Img : Type} `{Sheet.Dom Img}.

Lemma calculateFrames_images (fuel : nat) (this this' : Sheet.t Img) :
  Sheet._calculateFrames fuel this = Some (Returns this') ->
  Sheet._images this' = Sheet._images this.
Proof.
  unfold Sheet._calculateFrames.
  destruct (bool_decide (is_Some (Sheet._frames this))
            || (Sheet._frameWidth this =? 0)%Z).
  - intros Hr. inversion Hr; subst. auto.
  - destruct this; simpl. destruct _images as [imgs|]; [|discriminate].
    destruct (Sheet.scanImages _ _ _ _ _ _ _ _ _ _ _) as [[fs c]|];
      [|discriminate].
    intros Hr. inversion Hr; subst. auto.
Qed.

Lemma parseAnimations_images (anims : list (string * Sheet.AnimSpec)) :
  forall (a : option nat) (this this' : Sheet.t Img),
    Sheet.parseAnimations anims a this = Returns this' ->
    Sheet._images this' = Sheet._images this.
Proof.
  induction anims as [|[name obj] rest IH]; intros a this this' Hrun.
  - inversion Hrun; subst. reflexivity.
  - cbn [Sheet.parseAnimations] in Hrun.
    destruct (Sheet.parseAnimation name obj a) as [[anim a']|e];
      [|discriminate].
    cbn [Js.bind] in Hrun. apply IH in Hrun. rewrite Hrun.
    destruct this; reflexivity.
Qed.

(** The images that [initialize] leaves on the sheet. *)
Lemma initialize_images (fuel : nat) (data : Sheet.Data Img)
  (this this' : Sheet.t Img) :
  Sheet.initialize fuel (Some data) this = Some (Returns this') ->
  Sheet._images this'
  = match Sheet.dataImages data with
    | Some (spec :: specs) => Some (toImg <$> spec :: specs)
    | _ => Sheet._images this
    end.
Proof.
  unfold Sheet.initialize.
  set (start := Sheet.set_framerate _ this).
  set (goal := match Sheet.dataImages data with
               | Some (spec :: specs) => Some (toImg <$> spec :: specs)
               | _ => Sheet._images this
               end).
  assert (Himages :
    exists mid0 a0,
      match Sheet.dataImages data with
      | Some (spec :: specs) =>
          (Sheet.parseImages (spec :: specs) (Sheet.set_images (Some []) start),
           Some (length (spec :: specs)))
      | _ => (start, None)
      end = (mid0, a0)
      /\ Sheet._images mid0 = goal).
  { subst goal.
    destruct (Sheet.dataImages data) as [[|spec specs]|];
      try (do 2 eexists; split; [reflexivity | destruct this; reflexivity]).
    do 2 eexists. split; [reflexivity|].
    rewrite (parseImages_spec _ _ []) by (destruct start; reflexivity).
    reflexivity. }
  destruct Himages as (mid0 & a0 & -> & Hmid0). clearbody goal.
  intros Hinit. apply andThen_returns in Hinit as ([mid a] & Hframes & Hrest).
  assert (Hmid : Sheet._images mid = goal).
  { destruct (Sheet.dataFrames data) as [|defs|o].
    - inversion Hframes; subst. reflexivity.
    - destruct defs as [|def defs].
      + inversion Hframes; subst. destruct mid0; reflexivity.
      + destruct (Sheet._images (Sheet.set_frames (Some []) mid0)) as [imgs|];
          [|discriminate].
        inversion Hframes; subst. destruct mid0; reflexivity.
    - set (grid := Sheet.set_numFrames _ _) in Hframes.
      assert (Hgrid : Sheet._images grid = goal)
        by (subst grid goal; destruct mid0; reflexivity).
      destruct (Sheet.loadCount grid =? 0)%Z.
      + apply andThen_returns in Hframes as (done & Hcalc & Hdone).
        inversion Hdone; subst mid.
        rewrite (calculateFrames_images _ _ _ Hcalc). exact Hgrid.
      + inversion Hframes; subst. reflexivity. }
  destruct (Sheet.dataAnimations data) as [o|]; inversion Hrest as [Hrun].
  - apply parseAnimations_images in Hrun. rewrite Hrun.
    destruct mid; simpl in *. exact Hmid.
  - destruct mid; simpl in *. exact Hmid.
Qed.

(** X23: the callback that the static [load] runs on the answer, for a sheet
    that is not marked as loaded.  An answer without [images] makes it throw
    a TypeError, which rejects the promise.  When it has run [initialize] on
    the answer without exception, [onProgress] has been called with 1, the
    sheet carries the requested URL, and its images are those of the answer,
    each name that holds no backslash prefixed with [baseDir] and a slash; a
    later [load] of the sheet polls if the answer had an animation, and
    otherwise requests the same URL once more. *)
Theorem X23_static_load (fuel : nat) (url : string) (json : Sheet.Json)
  (spriteSheet : Sheet.t Img) (onProgress : bool) :
  Sheet.hasLoaded spriteSheet = false ->
  (Sheet.jsonImages json = None ->
   Sheet.loadJson fuel (Sheet.loadUrl url).1 (Sheet.loadUrl url).2 json
     spriteSheet onProgress = Some (Throws Js.TypeError))
  /\ (forall (reported : list Sheet.Progress) (sheet : Sheet.t Img),
        Sheet.loadJson fuel (Sheet.loadUrl url).1 (Sheet.loadUrl url).2 json
          spriteSheet onProgress = Some (Returns (reported, sheet)) ->
        reported = (if onProgress then [Sheet.Whole] else [])
        /\ Sheet.url sheet = Some (Sheet.loadUrl url).1
        /\ (exists images,
              Sheet.jsonImages json = Some images
              /\ (images <> [] ->
                  Sheet._images sheet
                  = Some ((fun image =>
                             Sheet.createImg
                               (if Sheet.includes Sheet.backslash image
                                then image
                                else (Sheet.loadUrl url).2 +:+ "/" +:+ image))
                          <$> images)))
        /\ (forall onProgress',
              Sheet.load onProgress' sheet
              = match Sheet.jsonAnimations json with
                | Some (_ :: _) =>
                    Returns ([], Sheet.Polling (Sheet.loadCount sheet))
                | _ => Returns ([], Sheet.Fetching (Sheet.loadUrl url).1)
                end)).
Proof.
  intros Hfresh. split.
  { intros Hnone. unfold Sheet.loadJson. rewrite Hnone. reflexivity. }
  intros reported sheet Hload.
  pose proof (loadUrl_nonempty url) as Htarget.
  destruct (Sheet.loadUrl url) as [target baseDir]. simpl in *.
  unfold Sheet.loadJson in Hload.
  destruct (Sheet.jsonImages json) as [images|]; [|discriminate].
  apply andThen_returns in Hload as (done & Hinit & Hdone).
  inversion Hdone; subst reported sheet. clear Hdone.
  destruct (initialize_idle _ _ _ _ Hinit) as (Hloaded & Hurl & Hnames).
  pose proof (initialize_images _ _ _ _ Hinit) as Himages.
  cbn [Sheet.dataImages Sheet.dataAnimations] in *.
  assert (Hurl' : Sheet.url done = Some target)
    by (rewrite Hurl; destruct spriteSheet; reflexivity).
  split; [reflexivity|]. split; [exact Hurl'|]. split.
  - exists images. split; [reflexivity|]. intros Hsome.
    destruct images as [|image images]; [congruence|].
    rewrite Himages. cbn [fmap list_fmap toImg]. f_equal. f_equal.
    + destruct (Sheet.includes Sheet.backslash image); reflexivity.
    + rewrite <- !list_fmap_compose. apply list_fmap_ext.
      intros i image' _. simpl.
      destruct (Sheet.includes Sheet.backslash image'); reflexivity.
  - intros onProgress'. unfold Sheet.load, Sheet.hasLoaded.
    rewrite Hloaded, Hnames, Hurl'.
    replace (Sheet._hasLoaded (Sheet.set_url (Some target) spriteSheet))
      with false by (destruct spriteSheet; simpl in *; congruence).
    apply String.eqb_neq in Htarget.
    destruct (Sheet.jsonAnimations json) as [[|[name obj] rest]|];
      simpl; rewrite ?Htarget; reflexivity.
Qed.

End SheetStatic.

Lemma X23_static_load_witness :
  exists sheet,
    Sheet.loadJson (H := Pictures.dom) 0 "assets/hero/library.json"
      "assets/hero" Pictures.answer (Sheet.set_url (Some EmptyString) Sheet.fresh)
      true = Some (Returns ([Sheet.Whole], sheet))
    /\ Sheet.url sheet = Some "assets/hero/library.json"
    /\ Sheet._images sheet
       = Some [Pictures.mk "assets/hero/a.png" 0 0 false false;
               Pictures.mk "assets/hero/b.png" 0 0 false false]
    /\ Sheet.load false sheet = Returns ([], Sheet.Polling 2)
    /\ Sheet.loadJson (H := Pictures.dom) 0 "assets/hero/library.json"
         "assets/hero" Pictures.imagefree
         (Sheet.set_url (Some EmptyString) Sheet.fresh) true
       = Some (Throws Js.TypeError).
Proof.
  destruct (Sheet.loadJson (H := Pictures.dom) 0
              (Sheet.loadUrl "assets/hero/").1 (Sheet.loadUrl "assets/hero/").2
              Pictures.answer (Sheet.set_url (Some EmptyString) Sheet.fresh) true)
    as [[[reported sheet]|e]|] eqn:Hload;
    [|vm_compute in Hload; discriminate ..].
  destruct (proj2 (X23_static_load (H := Pictures.dom) 0 "assets/hero/"
                     Pictures.answer
                     (Sheet.set_url (Some EmptyString) Sheet.fresh) true eq_refl)
              reported sheet Hload)
    as (-> & Hurl & (images & Himages & Hnames) & Hlater).
  exists sheet. split; [exact Hload|]. split; [exact Hurl|].
  injection Himages as <-. split; [apply Hnames; discriminate|].
  split.
  - rewrite Hlater. vm_compute in Hload. injection Hload as <-. reflexivity.
  - exact (proj1 (X23_static_load (H := Pictures.dom) 0 "assets/hero/"
                    Pictures.imagefree
                    (Sheet.set_url (Some EmptyString) Sheet.fresh) true eq_refl)
             eq_refl).
Defined.

(** * A [setFrame] that throws *)

Section Thrown.
Context `{Js.Math} `{FlumpLayerData.Lookup}.

(** X24: [setFrame] throws only a TypeError, and only when the keyframe of
    the frame names a ref that differs from the active one and that [in]
    would not find in the cache.  The layer is then left with the transform,
    alpha and visibility of the frame and with this ref recorded as active,
    its symbol type and children being as before; so the same call made
    again on this layer returns normally and changes nothing. *)
Theorem X24_setFrame_throws (this : Layer.t) (frame : float) (e : Js.Error) :
  Layer.setFrame frame this = Throws e ->
  e = Js.TypeError
  /\ exists kf ref,
       FlumpLayerData.getKeyframeForFrame (Layer.flumpLayerData this)
         (Js.bitor0 frame) = Some kf
       /\ KF.ref kf = Some ref
       /\ Layer._keyframeRef this <> Some ref
       /\ Js.has ref (Layer._symbols this) = false
       /\ (Layer.setFrame_state frame this).1
          = Layer.set_keyframeRef (Some ref) (staged kf frame this)
       /\ Layer.setFrame frame (Layer.setFrame_state frame this).1
          = Returns (Layer.setFrame_state frame this).1.
Proof.
  unfold Layer.setFrame at 1. unfold Layer.setFrame_state.
  destruct (FlumpLayerData.getKeyframeForFrame (Layer.flumpLayerData this)
              (Js.bitor0 frame)) as [kf|] eqn:Hkf; [|discriminate].
  fold (staged kf frame this).
  unfold Layer.resolveSymbol_state.
  destruct (KF.ref kf) as [ref|] eqn:Href; [|discriminate].
  destruct (Layer.ref_differs (Layer._keyframeRef (staged kf frame this)) ref)
    eqn:Hdiff; [|discriminate].
  destruct (Layer._symbols (staged kf frame this) !! ref) as [[m|tex]|] eqn:Hsym;
    [discriminate | discriminate |].
  destruct (Js.inherited ref) eqn:Hinh; [discriminate|].
  cbn [Js.completion fst]. intros He. inversion He; subst e.
  split; [reflexivity|]. exists kf, ref.
  split; [reflexivity|]. split; [exact Href|]. split; [|split; [|split]].
  - intros Hsame. unfold staged in Hdiff. simpl in Hdiff.
    rewrite Hsame in Hdiff. simpl in Hdiff.
    rewrite String.eqb_refl in Hdiff. discriminate.
  - apply has_not. split; [exact Hsym | exact Hinh].
  - reflexivity.
  - assert (Hkf' : FlumpLayerData.getKeyframeForFrame
                     (Layer.flumpLayerData
                        (Layer.set_keyframeRef (Some ref) (staged kf frame this)))
                     (Js.bitor0 frame) = Some kf) by exact Hkf.
    rewrite (setFrame_some _ _ _ Hkf'), resolveSymbol_cases, Href.
    cbn [staged Layer._keyframeRef Layer.set_keyframeRef Layer.set_visible
         Layer.set_alpha Layer.set_storedMtx Layer.ref_differs
         Layer.flumpLayerData].
    rewrite String.eqb_refl. cbn [negb]. destruct this; reflexivity.
Qed.

End Thrown.

Lemma X24_setFrame_throws_witness :
  let this := Layer.fresh 1 true Sample.orphan ∅ in
  let left := (Layer.setFrame_state (H := Scenario.taylor)
                 (H0 := FlumpLayerData.specLookup) 0 this).1 in
  Layer.setFrame (H := Scenario.taylor) (H0 := FlumpLayerData.specLookup) 0 this
  = Throws Js.TypeError
  /\ Layer._keyframeRef left = Some "ball"
  /\ Layer.setFrame (H := Scenario.taylor) (H0 := FlumpLayerData.specLookup)
       0 left = Returns left.
Proof.
  intros this left.
  destruct (X24_setFrame_throws (H := Scenario.taylor)
              (H0 := FlumpLayerData.specLookup) this 0 Js.TypeError eq_refl)
    as (_ & kf & ref & _ & _ & _ & _ & _ & Hagain).
  split; [reflexivity|]. split; [reflexivity | exact Hagain].
Defined.
